(** * ModbusBaby-go: register marshalling, audit frames and polling

    A shallow embedding of the Go sources
      - [pkg/datatypes]     (the [Converter] and [ParseStringToType]),
      - [internal/modbus]   (the [Client], [calculateCRC], [recordADU]),
      - [internal/gui]      (the polling pair [startPolling]/[stopPolling],
                             the register form [readRegister]/[writeRegister],
                             [disconnectFromDevice], [populateSerialPorts]),
      - [internal/i18n]     ([normalizeLanguageCode] and the language that
                             [NewI18n] settles on),
    followed by the properties established about them.

    Conventions.  A Go [uintN]/[intN] is a [Z] together with the explicit
    wrap-around of every conversion ([uint16 x] is [x mod 2^16], [int16 x]
    the two's-complement reading of the low 16 bits).  A Go [[]byte] is a
    [list Z] of values in [0, 256).  A Go [string] is a Rocq [string]: both
    are plain sequences of 8-bit bytes.  A [float32]/[float64] is carried by
    its IEEE-754 bit pattern, [math.Float32frombits] and [math.Float32bits]
    being the two directions of that reinterpretation. *)

From Stdlib Require Import ZArith List Bool Lia Arith.
From Stdlib Require Import Strings.String Strings.Ascii DecimalString.
From Stdlib Require DecimalPos.
Import ListNotations.

Open Scope Z_scope.

(** ** Go integer conversions *)

Module GoInt.

Definition byte (x : Z) : Z := x mod 2 ^ 8.
Definition uint16 (x : Z) : Z := x mod 2 ^ 16.
Definition uint32 (x : Z) : Z := x mod 2 ^ 32.
Definition uint64 (x : Z) : Z := x mod 2 ^ 64.

(** Two's-complement reading of the low [w] bits. *)
Definition signed (w : Z) (x : Z) : Z :=
  let u := x mod 2 ^ w in
  if u <? 2 ^ (w - 1) then u else u - 2 ^ w.

Definition int16 (x : Z) : Z := signed 16 x.
Definition int32 (x : Z) : Z := signed 32 x.
Definition int64 (x : Z) : Z := signed 64 x.

(** Range predicates for values of the unsigned types. *)
Definition is_byte (x : Z) : Prop := 0 <= x < 2 ^ 8.
Definition is_uint16 (x : Z) : Prop := 0 <= x < 2 ^ 16.

(** [[]byte(s)] and [string(b)]: a Go string is its bytes. *)
Definition bytes_of_string (s : string) : list Z :=
  map (fun a => Z.of_N (N_of_ascii a)) (list_ascii_of_string s).

Definition string_of_bytes (b : list Z) : string :=
  string_of_list_ascii (map (fun x => ascii_of_N (Z.to_N (byte x))) b).

(** [binary.BigEndian.PutUint16] on a fresh two-byte window. *)
Definition PutUint16 (v : Z) : list Z := [byte (Z.shiftr v 8); byte v].

(** [binary.BigEndian.Uint16]. *)
Definition Uint16 (b0 b1 : Z) : Z := Z.lor (Z.shiftl b0 8) b1.

End GoInt.

Import GoInt.

(** A Go [(T, error)] return: the value, or the error's message. *)
Inductive result (A : Type) : Type :=
| Ok (a : A)
| Err (msg : string).
Arguments Ok {A} a.
Arguments Err {A} msg.

(** ** Package [datatypes] *)

Module datatypes.

Inductive DataType :=
| BYTE | INT16 | UINT16 | INT32 | UINT32 | INT64 | UINT64
| FLOAT32 | FLOAT64 | BOOL | ASCII | UNIX_TIMESTAMP.

Definition DataType_String (dt : DataType) : string :=
  match dt with
  | BYTE => "BYTE" | INT16 => "INT16" | UINT16 => "UINT16"
  | INT32 => "INT32" | UINT32 => "UINT32" | INT64 => "INT64"
  | UINT64 => "UINT64" | FLOAT32 => "FLOAT32" | FLOAT64 => "FLOAT64"
  | BOOL => "BOOL" | ASCII => "ASCII" | UNIX_TIMESTAMP => "UNIX_TIMESTAMP"
  end%string.

Inductive ByteOrder := AB | BA.
Inductive WordOrder := WORD_1234 | WORD_4321.

Definition RegistersPerValue (dt : DataType) : nat :=
  match dt with
  | BYTE | INT16 | UINT16 | BOOL => 1
  | INT32 | UINT32 | FLOAT32 | UNIX_TIMESTAMP => 2
  | INT64 | UINT64 | FLOAT64 => 4
  | ASCII => 1
  end%nat.

Record Converter := NewConverter {
  byteOrder : ByteOrder;
  wordOrder : WordOrder
}.

(** IEEE-754 values, carried by their bit patterns. *)
Record float32 := Float32frombits { Float32bits : Z }.
Record float64 := Float64frombits { Float64bits : Z }.

(** The dynamically typed [interface{}] values that travel between the
    converter, the parser and the client. *)
Inductive Value :=
| V_bytes (v : list Z)
| V_int16 (v : list Z)
| V_uint16 (v : list Z)
| V_int32 (v : list Z)
| V_uint32 (v : list Z)
| V_int64 (v : list Z)
| V_uint64 (v : list Z)
| V_float32 (v : list float32)
| V_float64 (v : list float64)
| V_bool (v : list bool)
| V_string (v : string).

(** The Go type name printed by [%T]. *)
Definition Value_typeName (v : Value) : string :=
  match v with
  | V_bytes _ => "[]uint8" | V_int16 _ => "[]int16" | V_uint16 _ => "[]uint16"
  | V_int32 _ => "[]int32" | V_uint32 _ => "[]uint32" | V_int64 _ => "[]int64"
  | V_uint64 _ => "[]uint64" | V_float32 _ => "[]float32"
  | V_float64 _ => "[]float64" | V_bool _ => "[]bool" | V_string _ => "string"
  end%string.

Section Conversions.

Variable c : Converter.

(** *** registers -> values *)

Definition convertToBytes (registers : list Z) : list Z :=
  flat_map (fun reg =>
    match byteOrder c with
    | AB => [byte (Z.shiftr reg 8); byte (Z.land reg 255)]
    | BA => [byte (Z.land reg 255); byte (Z.shiftr reg 8)]
    end) registers.

Definition convertToInt16Array (registers : list Z) : list Z :=
  map int16 registers.

Definition convertToUint16Array (registers : list Z) : list Z := registers.

(** The 32-bit word of the register pair starting at index [i]. *)
Definition word32 (r0 r1 : Z) : Z :=
  match wordOrder c with
  | WORD_1234 => Z.lor (uint32 (Z.shiftl r0 16)) r1
  | WORD_4321 => Z.lor (uint32 (Z.shiftl r1 16)) r0
  end.

(** The 64-bit word of the register quadruple starting at index [i]. *)
Definition word64 (r0 r1 r2 r3 : Z) : Z :=
  match wordOrder c with
  | WORD_1234 =>
      Z.lor (Z.lor (Z.lor (uint64 (Z.shiftl r0 48)) (uint64 (Z.shiftl r1 32)))
                   (uint64 (Z.shiftl r2 16))) r3
  | WORD_4321 =>
      Z.lor (Z.lor (Z.lor (uint64 (Z.shiftl r3 48)) (uint64 (Z.shiftl r2 32)))
                   (uint64 (Z.shiftl r1 16))) r0
  end.

(** [for i := 0; i < len; i += 2 { if i+1 < len { ... } }]: whole pairs are
    consumed front to back, a trailing single register is skipped. *)
Fixpoint pairs32 {A} (f : Z -> A) (registers : list Z) : list A :=
  match registers with
  | r0 :: r1 :: rest => f (word32 r0 r1) :: pairs32 f rest
  | _ => []
  end.

(** [for i := 0; i < len; i += 4 { if i+3 < len { ... } }]. *)
Fixpoint quads64 {A} (f : Z -> A) (registers : list Z) : list A :=
  match registers with
  | r0 :: r1 :: r2 :: r3 :: rest => f (word64 r0 r1 r2 r3) :: quads64 f rest
  | _ => []
  end.

Definition convertToInt32Array := pairs32 int32.
Definition convertToUint32Array := pairs32 (fun v => v).
Definition convertToInt64Array := quads64 int64.
Definition convertToUint64Array := quads64 (fun v => v).
Definition convertToFloat32Array := pairs32 Float32frombits.
Definition convertToFloat64Array := quads64 Float64frombits.

Definition convertToBoolArray (registers : list Z) : list bool :=
  flat_map (fun reg =>
    map (fun i => negb (Z.land reg (uint16 (Z.shiftl 1 i)) =? 0))
        (map Z.of_nat (seq 0 16))) registers.

(** [strings.TrimRight(s, "\x00")]: the single-byte cutset path, which
    drops the maximal run of that byte at the end of [s]. *)
Fixpoint TrimRight (s : string) (cut : ascii) : string :=
  match s with
  | EmptyString => EmptyString
  | String a s' =>
      match TrimRight s' cut with
      | EmptyString => if Ascii.eqb a cut then EmptyString
                       else String a EmptyString
      | t => String a t
      end
  end.

Definition convertToASCII (registers : list Z) : string :=
  let chars := flat_map (fun reg =>
    match byteOrder c with
    | AB => [byte (Z.shiftr reg 8); byte (Z.land reg 255)]
    | BA => [byte (Z.land reg 255); byte (Z.shiftr reg 8)]
    end) registers in
  TrimRight (string_of_bytes chars) zero.

(** [time.Unix(ts, 0).Format("2006-01-02 15:04:05")].  The calendar date
    of a day count is the proleptic Gregorian one; [Local] is the offset of
    the process's time zone in seconds east of UTC, fixed here to UTC. *)
Definition Local : Z := 0.

Definition civil_from_days (days : Z) : Z * Z * Z :=
  let z := days + 719468 in
  let era := z / 146097 in
  let doe := z - era * 146097 in
  let yoe := (doe - doe / 1460 + doe / 36524 - doe / 146096) / 365 in
  let doy := doe - (365 * yoe + yoe / 4 - yoe / 100) in
  let mp := (5 * doy + 2) / 153 in
  let d := doy - (153 * mp + 2) / 5 + 1 in
  let m := if mp <? 10 then mp + 3 else mp - 9 in
  let y := yoe + era * 400 in
  (if m <=? 2 then y + 1 else y, m, d).

Definition digit (d : Z) : ascii := ascii_of_N (Z.to_N (48 + d mod 10)).

Definition pad2 (n : Z) : string :=
  String (digit (n / 10)) (String (digit n) EmptyString).

Definition pad4 (n : Z) : string :=
  String (digit (n / 1000)) (String (digit (n / 100)) (pad2 n)).

Definition formatTime (sec : Z) : string :=
  let t := sec + Local in
  let '(y, m, d) := civil_from_days (t / 86400) in
  let s := t mod 86400 in
  (pad4 y ++ "-" ++ pad2 m ++ "-" ++ pad2 d ++ " "
   ++ pad2 (s / 3600) ++ ":" ++ pad2 (s mod 3600 / 60) ++ ":"
   ++ pad2 (s mod 60))%string.

Definition convertToTimestamp (registers : list Z) : string :=
  match registers with
  | r0 :: r1 :: _ => formatTime (int64 (word32 r0 r1))
  | _ => "无效时间戳"%string
  end.

(** *** values -> registers *)

Definition uint32ToRegisters (value : Z) : list Z :=
  match wordOrder c with
  | WORD_1234 => [uint16 (Z.shiftr value 16); uint16 (Z.land value 65535)]
  | WORD_4321 => [uint16 (Z.land value 65535); uint16 (Z.shiftr value 16)]
  end.

Definition int32ToRegisters (value : Z) : list Z :=
  uint32ToRegisters (uint32 value).

Definition uint64ToRegisters (value : Z) : list Z :=
  let bits := value in
  match wordOrder c with
  | WORD_1234 =>
      [uint16 (Z.shiftr bits 48); uint16 (Z.shiftr bits 32);
       uint16 (Z.shiftr bits 16); uint16 (Z.land bits 65535)]
  | WORD_4321 =>
      [uint16 (Z.land bits 65535); uint16 (Z.shiftr bits 16);
       uint16 (Z.shiftr bits 32); uint16 (Z.shiftr bits 48)]
  end.

Definition int64ToRegisters (value : Z) : list Z :=
  uint64ToRegisters (uint64 value).

Definition float32ToRegisters (value : float32) : list Z :=
  uint32ToRegisters (Float32bits value).

Definition float64ToRegisters (value : float64) : list Z :=
  uint64ToRegisters (Float64bits value).

(** The loop [for i := 0; i < len(bytes); i += 2] over the padded, hence
    even-length, byte slice. *)
Fixpoint pairBytes (bytes : list Z) : list Z :=
  match bytes with
  | b0 :: b1 :: rest =>
      match byteOrder c with
      | AB => Z.lor (uint16 (Z.shiftl b0 8)) b1
      | BA => Z.lor (uint16 (Z.shiftl b1 8)) b0
      end :: pairBytes rest
  | _ => []
  end.

Definition asciiToRegisters (value : string) : list Z :=
  let bytes := bytes_of_string value in
  let bytes := if (List.length bytes mod 2 =? 0)%nat then bytes
               else bytes ++ [0] in
  pairBytes bytes.

(** *** The two public entry points *)

Definition ConvertFromRegisters (registers : list Z) (dataType : DataType)
  : result Value :=
  match registers with
  | [] => Err "寄存器数据为空"
  | _ =>
      match dataType with
      | BYTE => Ok (V_bytes (convertToBytes registers))
      | INT16 => Ok (V_int16 (convertToInt16Array registers))
      | UINT16 => Ok (V_uint16 (convertToUint16Array registers))
      | INT32 => Ok (V_int32 (convertToInt32Array registers))
      | UINT32 => Ok (V_uint32 (convertToUint32Array registers))
      | INT64 => Ok (V_int64 (convertToInt64Array registers))
      | UINT64 => Ok (V_uint64 (convertToUint64Array registers))
      | FLOAT32 => Ok (V_float32 (convertToFloat32Array registers))
      | FLOAT64 => Ok (V_float64 (convertToFloat64Array registers))
      | BOOL => Ok (V_bool (convertToBoolArray registers))
      | ASCII => Ok (V_string (convertToASCII registers))
      | UNIX_TIMESTAMP => Ok (V_string (convertToTimestamp registers))
      end
  end.

Definition ConvertToRegisters (value : Value) : result (list Z) :=
  match value with
  | V_int16 v => Ok (map uint16 v)
  | V_uint16 v => Ok v
  | V_int32 v => Ok (flat_map int32ToRegisters v)
  | V_uint32 v => Ok (flat_map uint32ToRegisters v)
  | V_int64 v => Ok (flat_map int64ToRegisters v)
  | V_uint64 v => Ok (flat_map uint64ToRegisters v)
  | V_float32 v => Ok (flat_map float32ToRegisters v)
  | V_float64 v => Ok (flat_map float64ToRegisters v)
  | V_string v => Ok (asciiToRegisters v)
  | _ => Err ("unsupported type for conversion to registers: "
              ++ Value_typeName value)%string
  end.

End Conversions.

(** *** Parsing text into values

    The Go standard library pieces [ParseStringToType] is built from,
    following their documented behaviour on byte strings. *)

(** [strings.Split(s, sep)] for a one-byte separator: the fields between
    the occurrences of [sep], in order. *)
Fixpoint Split (s : string) (sep : ascii) : list string :=
  match s with
  | EmptyString => [EmptyString]
  | String a s' =>
      if Ascii.eqb a sep then EmptyString :: Split s' sep
      else match Split s' sep with
           | p :: ps => String a p :: ps
           | [] => [String a EmptyString]
           end
  end.

(** The UTF-8 encodings of the code points for which [unicode.IsSpace]
    holds: U+0009..U+000D, U+0020, U+0085, U+00A0, U+1680, U+2000..U+200A,
    U+2028, U+2029, U+202F, U+205F, U+3000. *)
Definition whiteSpace : list string :=
  map string_of_bytes
    ([[9]; [10]; [11]; [12]; [13]; [32]; [0xC2; 0x85]; [0xC2; 0xA0];
      [0xE1; 0x9A; 0x80]]
     ++ map (fun k => [0xE2; 0x80; 0x80 + Z.of_nat k]) (seq 0 11)
     ++ [[0xE2; 0x80; 0xA8]; [0xE2; 0x80; 0xA9]; [0xE2; 0x80; 0xAF];
         [0xE2; 0x81; 0x9F]; [0xE3; 0x80; 0x80]]).

Fixpoint stripPrefix (p s : string) : option string :=
  match p, s with
  | EmptyString, _ => Some s
  | String a p', String b s' =>
      if Ascii.eqb a b then stripPrefix p' s' else None
  | String _ _, EmptyString => None
  end.

(** Drops one leading element of [set] from [s], if [s] starts with one. *)
Fixpoint dropOne (set : list string) (s : string) : option string :=
  match set with
  | [] => None
  | p :: set' =>
      match stripPrefix p s with
      | Some s' => Some s'
      | None => dropOne set' s
      end
  end.

Fixpoint trimLeftFuel (fuel : nat) (set : list string) (s : string) : string :=
  match fuel with
  | O => s
  | S fuel' =>
      match dropOne set s with
      | Some s' => trimLeftFuel fuel' set s'
      | None => s
      end
  end.

Definition trimLeftSet (set : list string) (s : string) : string :=
  trimLeftFuel (String.length s) set s.

Fixpoint revString (acc s : string) : string :=
  match s with
  | EmptyString => acc
  | String a s' => revString (String a acc) s'
  end.

(** [strings.TrimSpace]: leading white space is removed first, then
    trailing white space of what remains. *)
Definition TrimSpace (s : string) : string :=
  let l := trimLeftSet whiteSpace s in
  revString EmptyString
    (trimLeftSet (map (revString EmptyString) whiteSpace)
                 (revString EmptyString l)).

Definition digitVal (a : ascii) : option Z :=
  let n := Z.of_N (N_of_ascii a) in
  if (48 <=? n) && (n <=? 57) then Some (n - 48) else None.

Fixpoint parseDigits (acc : Z) (s : string) : option Z :=
  match s with
  | EmptyString => Some acc
  | String a s' =>
      match digitVal a with
      | Some d => parseDigits (acc * 10 + d) s'
      | None => None
      end
  end.

(** [strconv.ParseUint(s, 10, bitSize)]; [None] stands for a non-nil error
    (syntax or range). *)
Definition ParseUint (s : string) (bitSize : Z) : option Z :=
  match s with
  | EmptyString => None
  | _ =>
      match parseDigits 0 s with
      | Some n => if n <=? 2 ^ bitSize - 1 then Some n else None
      | None => None
      end
  end.

(** [strconv.ParseInt(s, 10, bitSize)]. *)
Definition ParseInt (s : string) (bitSize : Z) : option Z :=
  match s with
  | EmptyString => None
  | String a s' =>
      let '(neg, body) :=
        if Ascii.eqb a "+" then (false, s')
        else if Ascii.eqb a "-" then (true, s')
        else (false, s) in
      match body with
      | EmptyString => None
      | _ =>
          match parseDigits 0 body with
          | None => None
          | Some un =>
              let cutoff := 2 ^ (bitSize - 1) in
              if negb neg && (cutoff <=? un) then None
              else if neg && (cutoff <? un) then None
              else Some (if neg then - un else un)
          end
      end
  end.

(** [strconv.ParseBool]. *)
Definition ParseBool (s : string) : option bool :=
  if existsb (String.eqb s) ["1"; "t"; "T"; "TRUE"; "true"; "True"]%string
  then Some true
  else if existsb (String.eqb s)
            ["0"; "f"; "F"; "FALSE"; "false"; "False"]%string
  then Some false
  else None.

(** The body shared by every numeric and boolean case of
    [ParseStringToType]: each part is trimmed and parsed in turn, and the
    first part that does not parse is reported, untrimmed, after [prefix]. *)
Fixpoint parseParts {A} (parse : string -> option A) (prefix : string)
         (parts : list string) : result (list A) :=
  match parts with
  | [] => Ok []
  | p :: ps =>
      match parse (TrimSpace p) with
      | None => Err (prefix ++ p)
      | Some val =>
          match parseParts parse prefix ps with
          | Ok values => Ok (val :: values)
          | Err e => Err e
          end
      end
  end.

Definition mapResult {A B} (f : A -> B) (r : result A) : result B :=
  match r with
  | Ok a => Ok (f a)
  | Err e => Err e
  end.

Definition ByteOrder_String (bo : ByteOrder) : string :=
  match bo with
  | AB => "AB"
  | BA => "BA"
  end.

Definition WordOrder_String (wo : WordOrder) : string :=
  match wo with
  | WORD_1234 => "1234"
  | WORD_4321 => "4321"
  end.

Section Parsing.

(** [strconv.ParseFloat(s, bitSize)], with [None] for a non-nil error, and
    the conversion [float32(x)] of a [float64], both left to the Go
    runtime. *)
Variable ParseFloat : string -> Z -> option float64.
Variable float32_of_float64 : float64 -> float32.

Definition ParseStringToType (valueStr : string) (dataType : DataType)
  : result Value :=
  let parts := Split valueStr "," in
  match parts with
  | [] => Err "value string is empty"
  | _ =>
      match dataType with
      | INT16 =>
          mapResult V_int16
            (parseParts (fun s => option_map int16 (ParseInt s 16))
                        "invalid INT16 value: " parts)
      | UINT16 =>
          mapResult V_uint16
            (parseParts (fun s => option_map uint16 (ParseUint s 16))
                        "invalid UINT16 value: " parts)
      | INT32 =>
          mapResult V_int32
            (parseParts (fun s => option_map int32 (ParseInt s 32))
                        "invalid INT32 value: " parts)
      | UINT32 =>
          mapResult V_uint32
            (parseParts (fun s => option_map uint32 (ParseUint s 32))
                        "invalid UINT32 value: " parts)
      | INT64 =>
          mapResult V_int64
            (parseParts (fun s => ParseInt s 64)
                        "invalid INT64 value: " parts)
      | UINT64 =>
          mapResult V_uint64
            (parseParts (fun s => ParseUint s 64)
                        "invalid UINT64 value: " parts)
      | FLOAT32 =>
          mapResult V_float32
            (parseParts
               (fun s => option_map float32_of_float64 (ParseFloat s 32))
               "invalid FLOAT32 value: " parts)
      | FLOAT64 =>
          mapResult V_float64
            (parseParts (fun s => ParseFloat s 64)
                        "invalid FLOAT64 value: " parts)
      | ASCII => Ok (V_string valueStr)
      | BOOL =>
          mapResult V_bool
            (parseParts ParseBool "invalid BOOL value: " parts)
      | BYTE | UNIX_TIMESTAMP =>
          Err ("unsupported data type for string parsing: "
               ++ DataType_String dataType)
      end
  end%string.

End Parsing.

End datatypes.

(** ** Package [modbus] *)

Module modbus.

Import datatypes.

Inductive ConnectionType := TCP | RTU.

(** The transport handler kept for closing. *)
Inductive Handler := TCPClientHandler | RTUClientHandler.

(** The [Client] struct.  [client] is the interface value of the transport
    library ([None] is the nil interface); the two packets are slices, with
    [None] for nil.  The mutexes guard single assignments and carry no
    state of their own. *)
Record Client := mkClient {
  client : option Handler;
  handler : option Handler;
  connectionType : ConnectionType;
  isConnected : bool;
  converter : Converter;
  lastSentPacket : option (list Z);
  lastReceivedPacket : option (list Z);
  transactionID : Z
}.

Definition NewClient : Client :=
  mkClient None None TCP false (NewConverter AB WORD_1234) None None 0.

(** What the transport library hands back from one request: the payload
    bytes of the response, or an error with its message. *)
Definition Reply : Type := list Z + string.

(** A call either returns (with the client as it leaves it) or stops in a
    run-time panic. *)
Inductive run (A : Type) : Type :=
| Done (r : A) (c : Client)
| Panic (msg : string) (c : Client).
Arguments Done {A} r c.
Arguments Panic {A} msg c.

Definition nilDereference : string :=
  "runtime error: invalid memory address or nil pointer dereference".

(** [ConnectTCP]; [connectErr] is the outcome of [handler.Connect()]. *)
Definition ConnectTCP (c : Client) (host : string) (port : Z)
           (connectErr : option string) : option string * Client :=
  match connectErr with
  | Some err => (Some err, c)
  | None =>
      (None, mkClient (Some TCPClientHandler) (Some TCPClientHandler) TCP true
                      (converter c) (lastSentPacket c) (lastReceivedPacket c)
                      (transactionID c))
  end.

(** [ConnectRTU]; the serial settings only configure the handler. *)
Definition ConnectRTU (c : Client) (port : string)
           (baudRate dataBits stopBits : Z) (parity : string)
           (connectErr : option string) : option string * Client :=
  match connectErr with
  | Some err => (Some err, c)
  | None =>
      (None, mkClient (Some RTUClientHandler) (Some RTUClientHandler) RTU true
                      (converter c) (lastSentPacket c) (lastReceivedPacket c)
                      (transactionID c))
  end.

(** [Disconnect]; [closeErr] is the outcome of [handler.Close()]. *)
Definition Disconnect (c : Client) (closeErr : option string)
  : option string * Client :=
  match handler c with
  | None => (None, c)
  | Some _ =>
      (closeErr, mkClient None None (connectionType c) (isConnected c)
                          (converter c) (lastSentPacket c)
                          (lastReceivedPacket c) (transactionID c))
  end.

Definition IsClientReady (c : Client) : bool :=
  match client c with Some _ => true | None => false end.

Definition SetDataConverter (c : Client) (bo : ByteOrder) (wo : WordOrder)
  : Client :=
  mkClient (client c) (handler c) (connectionType c) (isConnected c)
           (NewConverter bo wo) (lastSentPacket c) (lastReceivedPacket c)
           (transactionID c).

Definition IsConnected (c : Client) : bool := isConnected c.

Definition GetLastPackets (c : Client) : option (list Z) * option (list Z) :=
  (lastSentPacket c, lastReceivedPacket c).

(** *** Helpers *)

Fixpoint bytesToUint16Array (data : list Z) : list Z :=
  match data with
  | b0 :: b1 :: rest => Uint16 b0 b1 :: bytesToUint16Array rest
  | _ => []
  end.

Definition uint16ArrayToBytes (data : list Z) : list Z :=
  flat_map PutUint16 data.

(** *** CRC-16 *)

(** One turn of the inner loop [for j := 8; j != 0; j--]. *)
Definition crcShift (crc : Z) : Z :=
  if negb (Z.land crc 1 =? 0)
  then Z.lxor (Z.shiftr crc 1) 0xA001
  else Z.shiftr crc 1.

(** One turn of the outer loop, for the byte [b]. *)
Definition crcByte (crc b : Z) : Z :=
  Nat.iter 8 crcShift (Z.lxor crc (uint16 b)).

Definition calculateCRC (data : list Z) : Z :=
  let crc := fold_left crcByte data 0xFFFF in
  uint16 (Z.lor (Z.shiftr crc 8) (uint16 (Z.shiftl crc 8))).

(** *** Recording the last exchange *)

(** The [switch requestFuncCode] that rebuilds the response PDU from the
    payload the library returned.  Every caller passes a request PDU that
    starts with its function code. *)
Definition fullResponsePDU (requestPDU responsePDU : list Z) : list Z :=
  let requestFuncCode := hd 0 requestPDU in
  if existsb (Z.eqb requestFuncCode) [0x01; 0x02; 0x03; 0x04] then
    requestFuncCode :: byte (Z.of_nat (List.length responsePDU)) :: responsePDU
  else if existsb (Z.eqb requestFuncCode) [0x05; 0x06; 0x0F; 0x10] then
    requestFuncCode :: responsePDU
  else responsePDU.

(** The MBAP header: transaction id, protocol id 0, length, unit id. *)
Definition mbapHeader (tid : Z) (pdu : list Z) (slaveID : Z) : list Z :=
  PutUint16 tid ++ PutUint16 0
  ++ PutUint16 (uint16 (Z.of_nat (List.length pdu) + 1)) ++ [slaveID].

(** [append(adu, byte(crc&0xFF), byte(crc>>8))] for [crc := calculateCRC(adu)]. *)
Definition rtuFrame (slaveID : Z) (pdu : list Z) : list Z :=
  let adu := slaveID :: pdu in
  let crc := calculateCRC adu in
  adu ++ [byte (Z.land crc 255); byte (Z.shiftr crc 8)].

Definition recordADU (c : Client) (requestPDU : list Z)
           (responsePDU : option (list Z)) (slaveID : Z) : Client :=
  match connectionType c with
  | TCP =>
      let tid := uint16 (transactionID c + 1) in
      let sent := mbapHeader tid requestPDU slaveID ++ requestPDU in
      let received :=
        match responsePDU with
        | Some resp =>
            let full := fullResponsePDU requestPDU resp in
            Some (mbapHeader tid full slaveID ++ full)
        | None => None
        end in
      mkClient (client c) (handler c) (connectionType c) (isConnected c)
               (converter c) (Some sent) received tid
  | RTU =>
      let sent := rtuFrame slaveID requestPDU in
      let received :=
        match responsePDU with
        | Some resp => Some (rtuFrame slaveID (fullResponsePDU requestPDU resp))
        | None => None
        end in
      mkClient (client c) (handler c) (connectionType c) (isConnected c)
               (converter c) (Some sent) received (transactionID c)
  end.

(** *** Operations

    Each operation takes, besides the arguments of the Go method, the
    [reply] the transport library gives to the one request it makes.  The
    TCP branch that sets the handler's [SlaveId] for the call and restores
    it on return leaves the client as it found it.  A method call on the
    nil [client] interface is a run-time panic. *)

Definition notConnected : string := "device not connected".

(** Request PDU of the four reads: function code, address, count. *)
Definition readRequestPDU (fc address count : Z) : list Z :=
  fc :: PutUint16 address ++ PutUint16 count.

Definition ReadHoldingRegisters (c : Client) (slaveID address count : Z)
           (dataType : DataType) (reply : Reply) : run (result Value) :=
  if negb (isConnected c) then Done (Err notConnected) c
  else
    let requestPDU := readRequestPDU 0x03 address count in
    match client c with
    | None => Panic nilDereference c
    | Some _ =>
        match reply with
        | inr err =>
            Done (Err ("failed to read holding registers: " ++ err))
                 (recordADU c requestPDU None slaveID)
        | inl results =>
            let c' := recordADU c requestPDU (Some results) slaveID in
            let registers := bytesToUint16Array results in
            Done (ConvertFromRegisters (converter c') registers dataType) c'
        end
    end.

Definition ReadInputRegisters (c : Client) (slaveID address count : Z)
           (dataType : DataType) (reply : Reply) : run (result Value) :=
  if negb (isConnected c) then Done (Err notConnected) c
  else
    let requestPDU := readRequestPDU 0x04 address count in
    match client c with
    | None => Panic nilDereference c
    | Some _ =>
        match reply with
        | inr err =>
            Done (Err ("failed to read input registers: " ++ err))
                 (recordADU c requestPDU None slaveID)
        | inl results =>
            let c' := recordADU c requestPDU (Some results) slaveID in
            let registers := bytesToUint16Array results in
            Done (ConvertFromRegisters (converter c') registers dataType) c'
        end
    end.

(** The loop [for i := 0; i < int(count); i++] that unpacks the bits: index
    [i] is appended only when byte [i / 8] exists in [results]. *)
Definition unpackBits (count : Z) (results : list Z) : list bool :=
  flat_map (fun i =>
    let byteIndex := (i / 8)%nat in
    let bitIndex := (i mod 8)%nat in
    if (byteIndex <? List.length results)%nat
    then [negb (Z.land (nth byteIndex results 0)
                       (byte (Z.shiftl 1 (Z.of_nat bitIndex))) =? 0)]
    else []) (seq 0 (Z.to_nat count)).

Definition ReadCoils (c : Client) (slaveID address count : Z)
           (reply : Reply) : run (result (list bool)) :=
  if negb (isConnected c) then Done (Err notConnected) c
  else
    let requestPDU := readRequestPDU 0x01 address count in
    match client c with
    | None => Panic nilDereference c
    | Some _ =>
        match reply with
        | inr err =>
            Done (Err ("failed to read coils: " ++ err))
                 (recordADU c requestPDU None slaveID)
        | inl results =>
            Done (Ok (unpackBits count results))
                 (recordADU c requestPDU (Some results) slaveID)
        end
    end.

Definition ReadDiscreteInputs (c : Client) (slaveID address count : Z)
           (reply : Reply) : run (result (list bool)) :=
  if negb (isConnected c) then Done (Err notConnected) c
  else
    let requestPDU := readRequestPDU 0x02 address count in
    match client c with
    | None => Panic nilDereference c
    | Some _ =>
        match reply with
        | inr err =>
            Done (Err ("failed to read discrete inputs: " ++ err))
                 (recordADU c requestPDU None slaveID)
        | inl results =>
            Done (Ok (unpackBits count results))
                 (recordADU c requestPDU (Some results) slaveID)
        end
    end.

(** Request PDU of a multiple write: function code, address, quantity,
    byte count, data. *)
Definition writeMultiplePDU (fc address quantity : Z) (data : list Z)
  : list Z :=
  fc :: PutUint16 address ++ PutUint16 quantity
  ++ [byte (Z.of_nat (List.length data))] ++ data.

(** Request PDU built by [WriteHoldingRegisters] for [registers]. *)
Definition writeRegistersPDU (address : Z) (registers : list Z) : list Z :=
  let quantity := uint16 (Z.of_nat (List.length registers)) in
  let data := uint16ArrayToBytes registers in
  if quantity =? 1
  then 0x06 :: PutUint16 address ++ firstn 2 data
  else writeMultiplePDU 0x10 address quantity data.

Definition WriteHoldingRegisters (c : Client) (slaveID address : Z)
           (values : Value) (reply : Reply) : run (option string) :=
  if negb (isConnected c) then Done (Some notConnected) c
  else
    match ConvertToRegisters (converter c) values with
    | Err err =>
        Done (Some ("unsupported data type or conversion failed: " ++ err)%string)
             c
    | Ok registers =>
        let quantity := uint16 (Z.of_nat (List.length registers)) in
        let requestPDU := writeRegistersPDU address registers in
        match client c with
        | None => Panic nilDereference c
        | Some _ =>
            match reply with
            | inr err =>
                Done (Some ((if (quantity =? 1)%Z
                             then "failed to write single holding register: "
                             else "failed to write multiple holding registers: ")
                            ++ err)%string)
                     (recordADU c requestPDU None slaveID)
            | inl results =>
                Done None (recordADU c requestPDU (Some results) slaveID)
            end
        end
    end.

(** The byte [data[k]] after the packing loop
    [data[i/8] |= 1 << (i%8)] over the true entries of [values]. *)
Definition coilByte (values : list bool) (k : nat) : Z :=
  fold_left (fun acc j =>
               if nth (8 * k + j) values false
               then Z.lor acc (byte (Z.shiftl 1 (Z.of_nat j)))
               else acc)
            (seq 0 8) 0.

(** Request PDU built by [WriteCoils] for [values]. *)
Definition writeCoilsPDU (address : Z) (values : list bool) : list Z :=
  let quantity := uint16 (Z.of_nat (List.length values)) in
  if quantity =? 1
  then
    let value := if hd false values then 0xFF00 else 0x0000 in
    0x05 :: PutUint16 address ++ PutUint16 value
  else
    let byteCount := ((List.length values + 7) / 8)%nat in
    let data := map (coilByte values) (seq 0 byteCount) in
    writeMultiplePDU 0x0F address quantity data.

Definition WriteCoils (c : Client) (slaveID address : Z)
           (values : list bool) (reply : Reply) : run (option string) :=
  if negb (isConnected c) then Done (Some notConnected) c
  else
    let quantity := uint16 (Z.of_nat (List.length values)) in
    let requestPDU := writeCoilsPDU address values in
    match client c with
    | None => Panic nilDereference c
    | Some _ =>
        match reply with
        | inr err =>
            Done (Some ((if (quantity =? 1)%Z
                         then "failed to write single coil: "
                         else "failed to write multiple coils: ") ++ err)%string)
                 (recordADU c requestPDU None slaveID)
        | inl results =>
            Done None (recordADU c requestPDU (Some results) slaveID)
        end
    end.

End modbus.

(** ** Package [gui]: the polling scheduler *)

Module gui.

(** A polling goroutine started by [startPolling]: the closure's captured
    unit id and the period of its ticker. *)
Record Poller := mkPoller {
  slaveIDByte : Z;
  intervalMs : Z
}.

(** The part of [AppRefined] that polling reads and writes.  A [chan bool]
    is named by the order of its [make]; [signalled] lists the channels on
    which a send is pending or that have been closed, the only states in
    which a receive can proceed (a receive on a nil channel never does).
    Buttons are [true] when enabled.  [polls] counts the calls of
    [readRegister] made from polling goroutines. *)
Record AppRefined := mkApp {
  isConnected : bool;
  pollingStop : option nat;
  pollingIntervalInput : string;
  startPollingButton : bool;
  stopPollingButton : bool;
  logOutput : list string;
  channels : nat;
  signalled : list nat;
  goroutines : list Poller;
  polls : nat
}.

(** [NewAppRefined] sets [pollingStop: make(chan bool)]; the buttons are
    created disabled. *)
Definition NewAppRefined : AppRefined :=
  mkApp false (Some 0%nat) "" false false [] 1 [] [] 0.

Definition appendLog (a : AppRefined) (message : string) : AppRefined :=
  mkApp (isConnected a) (pollingStop a) (pollingIntervalInput a)
        (startPollingButton a) (stopPollingButton a)
        (logOutput a ++ [message]) (channels a) (signalled a)
        (goroutines a) (polls a).

(** [updateConnectionStateUI], for the two polling buttons. *)
Definition updateConnectionStateUI (a : AppRefined) : AppRefined :=
  mkApp (isConnected a) (pollingStop a) (pollingIntervalInput a)
        (isConnected a) false
        (logOutput a) (channels a) (signalled a) (goroutines a) (polls a).

(** The assignment [a.isConnected = b]. *)
Definition setConnected (a : AppRefined) (b : bool) : AppRefined :=
  mkApp b (pollingStop a) (pollingIntervalInput a)
        (startPollingButton a) (stopPollingButton a)
        (logOutput a) (channels a) (signalled a) (goroutines a) (polls a).

(** The state a successful [connectToDevice] leaves behind. *)
Definition connected (a : AppRefined) : AppRefined :=
  updateConnectionStateUI
    (setConnected (appendLog a "Connection successful!") true).

Definition setInterval (a : AppRefined) (text : string) : AppRefined :=
  mkApp (isConnected a) (pollingStop a) text
        (startPollingButton a) (stopPollingButton a)
        (logOutput a) (channels a) (signalled a) (goroutines a) (polls a).

Definition stopPolling (a : AppRefined) : AppRefined :=
  match pollingStop a with
  | None =>
      mkApp (isConnected a) (pollingStop a) (pollingIntervalInput a)
            true false
            (logOutput a) (channels a) (signalled a) (goroutines a) (polls a)
  | Some _ => a
  end.

(** [strconv.Atoi]. *)
Definition Atoi (s : string) : option Z := datatypes.ParseInt s 64.

(** The [%d] verb of [fmt.Sprintf]. *)
Definition formatInt (n : Z) : string := NilZero.string_of_int (Z.to_int n).

Definition startPolling (a : AppRefined) (slaveID : Z) : AppRefined :=
  if negb (isConnected a)
  then appendLog a "设备未连接，无法开始轮询。"
  else
    match Atoi (pollingIntervalInput a) with
    | None => a
    | Some interval =>
        if interval <=? 0 then a
        else
          let a1 := match pollingStop a with
                    | Some _ => stopPolling a
                    | None => a
                    end in
          let ch := channels a1 in
          mkApp (isConnected a1) (Some ch) (pollingIntervalInput a1)
                false true
                (logOutput a1
                 ++ ["开始轮询，间隔 " ++ formatInt interval ++ " ms..."]%string)
                (S ch) (signalled a1)
                (goroutines a1 ++ [mkPoller slaveID interval])
                (polls a1)
    end.

(** Whether the case [<-a.pollingStop] of the goroutines' [select] can
    proceed. *)
Definition stopReady (a : AppRefined) : bool :=
  match pollingStop a with
  | Some ch => existsb (Nat.eqb ch) (signalled a)
  | None => false
  end.

(** The case [<-ticker.C] of the [select] of goroutine number [i]: one call
    of [readRegister]. *)
Definition tick (a : AppRefined) (i : nat) : AppRefined :=
  match nth_error (goroutines a) i with
  | None => a
  | Some _ =>
      mkApp (isConnected a) (pollingStop a) (pollingIntervalInput a)
            (startPollingButton a) (stopPollingButton a)
            (logOutput a) (channels a) (signalled a) (goroutines a)
            (S (polls a))
  end.

(** The case [<-a.pollingStop] of goroutine number [i], when it can
    proceed: the goroutine logs and returns. *)
Definition receiveStop (a : AppRefined) (i : nat) : option AppRefined :=
  if stopReady a
  then
    match nth_error (goroutines a) i with
    | None => None
    | Some _ =>
        Some (mkApp (isConnected a) (pollingStop a) (pollingIntervalInput a)
                    (startPollingButton a) (stopPollingButton a)
                    (logOutput a ++ ["轮询已停止。"%string])
                    (channels a) (signalled a)
                    (firstn i (goroutines a) ++ skipn (S i) (goroutines a))
                    (polls a))
    end
  else None.

(** *** Labels of the selection boxes *)

Definition stringToByteOrder (s : string) : datatypes.ByteOrder :=
  if String.eqb s "AB" then datatypes.AB
  else if String.eqb s "BA" then datatypes.BA
  else datatypes.AB.

Definition stringToWordOrder (s : string) : datatypes.WordOrder :=
  if String.eqb s "1234" then datatypes.WORD_1234
  else if String.eqb s "4321" then datatypes.WORD_4321
  else datatypes.WORD_1234.

Definition stringToDataType (s : string) : datatypes.DataType :=
  if String.eqb s "BYTE" then datatypes.BYTE
  else if String.eqb s "INT16" then datatypes.INT16
  else if String.eqb s "UINT16" then datatypes.UINT16
  else if String.eqb s "INT32" then datatypes.INT32
  else if String.eqb s "UINT32" then datatypes.UINT32
  else if String.eqb s "INT64" then datatypes.INT64
  else if String.eqb s "UINT64" then datatypes.UINT64
  else if String.eqb s "FLOAT32" then datatypes.FLOAT32
  else if String.eqb s "FLOAT64" then datatypes.FLOAT64
  else if String.eqb s "BOOL" then datatypes.BOOL
  else if String.eqb s "ASCII" then datatypes.ASCII
  else if String.eqb s "UNIX_TIMESTAMP" then datatypes.UNIX_TIMESTAMP
  else datatypes.UINT16.

(** *** The serial port list *)

(** [strings.HasPrefix(s, prefix)]. *)
Definition HasPrefix (s prefix : string) : bool := String.prefix prefix s.

(** [strings.Contains(s, substr)]. *)
Fixpoint Contains (s substr : string) : bool :=
  String.prefix substr s
  || match s with
     | EmptyString => false
     | String _ s' => Contains s' substr
     end.

(** The serial port selection box: its options and the argument of the
    last [SetSelected]. *)
Record PortSelect := mkPortSelect {
  portOptions : list string;
  portSelected : string
}.

(** [populateSerialPorts]; [ports] is the outcome of
    [serial.GetPortsList()].  Returns the selection box and the lines
    logged. *)
Definition populateSerialPorts (ports : result (list string))
           (box : PortSelect) : PortSelect * list string :=
  match ports with
  | Err err => (box, ["获取串口列表失败: " ++ err]%string)
  | Ok allPorts =>
      let filteredPorts :=
        filter (fun port => negb (HasPrefix port "/dev/tty.")) allPorts in
      match filteredPorts with
      | [] => (mkPortSelect ["无可用串口"%string] "无可用串口",
               ["未找到可用串口。"%string])
      | first :: _ =>
          let defaultPort :=
            match find (fun port => Contains port "usbmodem"
                                    || Contains port "usbserial")
                       filteredPorts with
            | Some port => port
            | None => first
            end in
          (mkPortSelect filteredPorts defaultPort, [])
      end
  end.

(** *** Reading and writing registers *)

(** [strings.Join(elems, sep)]. *)
Fixpoint Join (elems : list string) (sep : string) : string :=
  match elems with
  | [] => EmptyString
  | e :: rest =>
      match rest with
      | [] => e
      | _ :: _ => e ++ sep ++ Join rest sep
      end
  end%string.

(** [strconv.FormatUint(i, 10)], [strconv.FormatInt(i, 10)] and
    [strconv.FormatBool]. *)
Definition FormatUint (i : Z) : string :=
  NilZero.string_of_uint (N.to_uint (Z.to_N i)).

Definition FormatInt (i : Z) : string := NilZero.string_of_int (Z.to_int i).

Definition FormatBool (b : bool) : string :=
  if b then "true"%string else "false"%string.

(** The entries and selection boxes of [AppRefined] that [readRegister] and
    [writeRegister] work on. *)
Record RegisterForm := mkRegisterForm {
  startAddressInput : string;
  endAddressInput : string;
  registerTypeCombo : string;
  dataTypeCombo : string;
  valueInput : string
}.

(** [a.valueInput.SetText(text)]. *)
Definition SetText (f : RegisterForm) (text : string) : RegisterForm :=
  mkRegisterForm (startAddressInput f) (endAddressInput f)
                 (registerTypeCombo f) (dataTypeCombo f) text.

(** A [[]bool] result stored in the [interface{}] variable [result]. *)
Definition boxed (r : modbus.run (result (list bool)))
  : modbus.run (result datatypes.Value) :=
  match r with
  | modbus.Done (Ok v) c => modbus.Done (Ok (datatypes.V_bool v)) c
  | modbus.Done (Err e) c => modbus.Done (Err e) c
  | modbus.Panic msg c => modbus.Panic msg c
  end.

(** How [writeRegister] ends: it returns before the final report, or
    reports [writeErr], or reports success. *)
Inductive WriteOutcome :=
| Abandoned
| Failed (writeErr : string)
| Succeeded.

Definition reported (r : modbus.run (option string))
  : modbus.run WriteOutcome :=
  match r with
  | modbus.Done (Some writeErr) c => modbus.Done (Failed writeErr) c
  | modbus.Done None c => modbus.Done Succeeded c
  | modbus.Panic msg c => modbus.Panic msg c
  end.

Section Registers.

(** [strconv.FormatFloat(x, 'f', -1, bitSize)], the conversion
    [float64(x)] of a [float32], [strconv.ParseFloat] and the conversion
    [float32(x)], all left to the Go runtime. *)
Variable FormatFloat : datatypes.float64 -> Z -> string.
Variable float64_of_float32 : datatypes.float32 -> datatypes.float64.
Variable ParseFloat : string -> Z -> option datatypes.float64.
Variable float32_of_float64 : datatypes.float64 -> datatypes.float32.

(** The text [readRegister] puts in the value entry.  A [[]byte] result
    takes the fallback [fmt.Sprintf("%v", result)], which prints the bytes
    in decimal between brackets. *)
Definition displayValue (result : datatypes.Value) : string :=
  match result with
  | datatypes.V_uint16 v => Join (map FormatUint v) ","
  | datatypes.V_int16 v => Join (map FormatInt v) ","
  | datatypes.V_int32 v => Join (map FormatInt v) ","
  | datatypes.V_uint32 v => Join (map FormatUint v) ","
  | datatypes.V_int64 v => Join (map FormatInt v) ","
  | datatypes.V_uint64 v => Join (map FormatUint v) ","
  | datatypes.V_float32 v =>
      Join (map (fun val => FormatFloat (float64_of_float32 val) 32) v) ","
  | datatypes.V_float64 v =>
      Join (map (fun val => FormatFloat val 64) v) ","
  | datatypes.V_bool v => Join (map FormatBool v) ","
  | datatypes.V_string v => v
  | datatypes.V_bytes v => "[" ++ Join (map FormatUint v) " " ++ "]"
  end%string.

(** [readRegister], on the value entry and the client; [reply] is what the
    transport answers if it is asked.  The log lines and the packet
    displays, which carry the time of day, are left out. *)
Definition readRegister (f : RegisterForm) (c : modbus.Client)
           (slaveIDByte : Z) (reply : modbus.Reply)
  : modbus.run RegisterForm :=
  if negb (modbus.IsConnected c) then modbus.Done f c
  else
    match datatypes.ParseUint (startAddressInput f) 16 with
    | None => modbus.Done f c
    | Some startAddr =>
        match datatypes.ParseUint (endAddressInput f) 16 with
        | None => modbus.Done f c
        | Some endAddr =>
            if endAddr <? startAddr then modbus.Done f c
            else
              let count := uint16 (endAddr - startAddr + 1) in
              let regType := registerTypeCombo f in
              let dataType := stringToDataType (dataTypeCombo f) in
              let outcome :=
                if String.eqb regType "Holding Register" then
                  modbus.ReadHoldingRegisters c slaveIDByte
                    (uint16 startAddr) count dataType reply
                else if String.eqb regType "Input Register" then
                  modbus.ReadInputRegisters c slaveIDByte
                    (uint16 startAddr) count dataType reply
                else if String.eqb regType "Coil" then
                  boxed (modbus.ReadCoils c slaveIDByte
                           (uint16 startAddr) count reply)
                else if String.eqb regType "Discrete Input" then
                  boxed (modbus.ReadDiscreteInputs c slaveIDByte
                           (uint16 startAddr) count reply)
                else
                  modbus.Done (Err ("不支持的寄存器类型: " ++ regType)%string) c
              in
              match outcome with
              | modbus.Panic msg c' => modbus.Panic msg c'
              | modbus.Done (Err _) c' => modbus.Done f c'
              | modbus.Done (Ok result) c' =>
                  modbus.Done (SetText f (displayValue result)) c'
              end
        end
    end.

(** [writeRegister], on the same footing. *)
Definition writeRegister (f : RegisterForm) (c : modbus.Client)
           (slaveIDByte : Z) (reply : modbus.Reply)
  : modbus.run WriteOutcome :=
  if negb (modbus.IsConnected c) then modbus.Done Abandoned c
  else
    let regType := registerTypeCombo f in
    let dataType := stringToDataType (dataTypeCombo f) in
    let valueStr := valueInput f in
    match datatypes.ParseUint (startAddressInput f) 16 with
    | None => modbus.Done Abandoned c
    | Some startAddr =>
        if String.eqb regType "Holding Register" then
          match datatypes.ParseStringToType ParseFloat float32_of_float64
                  valueStr dataType with
          | Err _ => modbus.Done Abandoned c
          | Ok values =>
              reported (modbus.WriteHoldingRegisters c slaveIDByte
                          (uint16 startAddr) values reply)
          end
        else if String.eqb regType "Coil" then
          match datatypes.ParseStringToType ParseFloat float32_of_float64
                  valueStr dataType with
          | Err _ => modbus.Done Abandoned c
          | Ok (datatypes.V_bool boolValues) =>
              reported (modbus.WriteCoils c slaveIDByte
                          (uint16 startAddr) boolValues reply)
          | Ok _ => modbus.Done Abandoned c
          end
        else
          modbus.Done (Failed ("不支持的写入寄存器类型: " ++ regType)%string) c
    end.

End Registers.

(** *** Disconnecting *)

(** [disconnectFromDevice], on the application and its client; [closeErr]
    is the outcome of [handler.Close()]. *)
Definition disconnectFromDevice (a : AppRefined) (c : modbus.Client)
           (closeErr : option string) : AppRefined * modbus.Client :=
  let '(a1, c1) :=
    if modbus.IsConnected c
    then
      match modbus.Disconnect c closeErr with
      | (Some err, c') => (appendLog a ("断开连接失败: " ++ err)%string, c')
      | (None, c') => (appendLog a "连接已断开。"%string, c')
      end
    else (a, c) in
  (updateConnectionStateUI (stopPolling (setConnected a1 false)), c1).

End gui.

(** ** Package [i18n]: the language code *)

Module i18n.






Section Language.

(** [strings.Map(unicode.ToLower, s)], the path [strings.ToLower] takes
    for a string with a byte outside ASCII, left to the Go runtime. *)
Variable mapToLower : string -> string.




(** Whether [loadLanguageFile(lang, ...)] succeeds: the embedded locale
    file exists and parses. *)
Variable loads : string -> bool.



End Language.


End i18n.

(** * Vocabulary of the properties *)

Section Vocabulary.

Import datatypes modbus.

(** The two registers of a pair, most significant first. *)
Definition msw32 (c : Converter) (r0 r1 : Z) : Z * Z :=
  match wordOrder c with
  | WORD_1234 => (r0, r1)
  | WORD_4321 => (r1, r0)
  end.

(** The four registers of a quadruple, most significant first. *)
Definition msw64 (c : Converter) (r0 r1 r2 r3 : Z) : Z * Z * Z * Z :=
  match wordOrder c with
  | WORD_1234 => (r0, r1, r2, r3)
  | WORD_4321 => (r3, r2, r1, r0)
  end.

(** Decode [r] as [T], then encode the value again. *)
Definition roundTrip (c : Converter) (r : list Z) (T : DataType)
  : result (list Z) :=
  match ConvertFromRegisters c r T with
  | Ok v => ConvertToRegisters c v
  | Err e => Err e
  end.

(** A run of [k] copies of the byte [a]. *)
Fixpoint run_of (a : ascii) (k : nat) : string :=
  match k with
  | O => EmptyString
  | S k' => String a (run_of a k')
  end.

Fixpoint lastChar (s : string) : option ascii :=
  match s with
  | EmptyString => None
  | String a EmptyString => Some a
  | String _ s' => lastChar s'
  end.

(** The two bytes of a 16-bit register in the order [bo] puts them:
    high byte first for [AB], low byte first for [BA]. *)
Definition registerBytes (bo : ByteOrder) (reg : Z) : list Z :=
  match bo with
  | AB => [(reg / 256) mod 256; reg mod 256]
  | BA => [reg mod 256; (reg / 256) mod 256]
  end.

(** The data types that [ConvertToRegisters] accepts back and whose
    decoding keeps every register: the integer and float types, and text
    whose last register is not zero. *)
Definition reversible (T : DataType) (r : list Z) : Prop :=
  match T with
  | INT16 | UINT16 | INT32 | UINT32 | INT64 | UINT64 | FLOAT32 | FLOAT64 =>
      True
  | ASCII => last r 0 <> 0
  | BYTE | BOOL | UNIX_TIMESTAMP => False
  end.

(** The word of a pair, written with the shift and or of the claim. *)
Definition assemble32 (wo : WordOrder) (reg0 reg1 : Z) : Z :=
  match wo with
  | WORD_1234 => Z.lor (Z.shiftl reg0 16) reg1
  | WORD_4321 => Z.lor (Z.shiftl reg1 16) reg0
  end.

(** The reference CRC-16 of Modbus RTU, in the words of the
    specification (section 4.2): the register starts at 0xFFFF; each byte
    is added into it with exclusive or and then eight times, least
    significant bit first, the register is halved and, when the bit
    shifted out was one, combined with the polynomial 0xA001.  The frame
    carries the low byte of the register first, then the high byte. *)
Fixpoint crc16_bits (n : nat) (crc : Z) : Z :=
  match n with
  | O => crc
  | S n' => crc16_bits n' (if Z.odd crc then Z.lxor (crc / 2) 0xA001
                           else crc / 2)
  end.

Fixpoint crc16_from (crc : Z) (data : list Z) : Z :=
  match data with
  | [] => crc
  | b :: rest => crc16_from (crc16_bits 8 (Z.lxor crc b)) rest
  end.

Definition crc16_reference (data : list Z) : Z := crc16_from 0xFFFF data.

Definition crc16_trailer (data : list Z) : list Z :=
  let crc := crc16_reference data in [crc mod 256; crc / 256].

(** The transaction id at the head of an MBAP-framed packet. *)
Definition transactionIDOf (adu : list Z) : option Z :=
  match adu with
  | b0 :: b1 :: _ => Some (b0 * 256 + b1)
  | _ => None
  end.

(** The six read/write calls of the client, with their arguments. *)
Inductive Call :=
| CallReadHoldingRegisters (slaveID address count : Z) (dataType : DataType)
| CallReadInputRegisters (slaveID address count : Z) (dataType : DataType)
| CallReadCoils (slaveID address count : Z)
| CallReadDiscreteInputs (slaveID address count : Z)
| CallWriteHoldingRegisters (slaveID address : Z) (values : Value)
| CallWriteCoils (slaveID address : Z) (values : list bool).

Definition clientAfter {A} (r : run A) : option Client :=
  match r with
  | Done _ c => Some c
  | Panic _ _ => None
  end.

(** The client as the call leaves it; [None] when the call panics. *)
Definition perform (c : Client) (call : Call) (reply : Reply)
  : option Client :=
  match call with
  | CallReadHoldingRegisters u a n dt =>
      clientAfter (ReadHoldingRegisters c u a n dt reply)
  | CallReadInputRegisters u a n dt =>
      clientAfter (ReadInputRegisters c u a n dt reply)
  | CallReadCoils u a n => clientAfter (ReadCoils c u a n reply)
  | CallReadDiscreteInputs u a n =>
      clientAfter (ReadDiscreteInputs c u a n reply)
  | CallWriteHoldingRegisters u a v =>
      clientAfter (WriteHoldingRegisters c u a v reply)
  | CallWriteCoils u a v => clientAfter (WriteCoils c u a v reply)
  end.

Definition unitOf (call : Call) : Z :=
  match call with
  | CallReadHoldingRegisters u _ _ _ | CallReadInputRegisters u _ _ _
  | CallReadCoils u _ _ | CallReadDiscreteInputs u _ _
  | CallWriteHoldingRegisters u _ _ | CallWriteCoils u _ _ => u
  end.

(** The request PDU a call puts on the wire; a [WriteHoldingRegisters]
    whose values do not convert to registers has none. *)
Definition requestOf (cv : Converter) (call : Call) : option (list Z) :=
  match call with
  | CallReadHoldingRegisters _ a n _ => Some (readRequestPDU 0x03 a n)
  | CallReadInputRegisters _ a n _ => Some (readRequestPDU 0x04 a n)
  | CallReadCoils _ a n => Some (readRequestPDU 0x01 a n)
  | CallReadDiscreteInputs _ a n => Some (readRequestPDU 0x02 a n)
  | CallWriteHoldingRegisters _ a v =>
      match ConvertToRegisters cv v with
      | Ok registers => Some (writeRegistersPDU a registers)
      | Err _ => None
      end
  | CallWriteCoils _ a v => Some (writeCoilsPDU a v)
  end.

(** Big-endian 16-bit field. *)
Definition be16 (v : Z) : list Z := [(v / 256) mod 256; v mod 256].

(** Modbus TCP frame: transaction id, protocol id 0, length of what
    follows, unit id, PDU. *)
Definition tcpADU (tid unitID : Z) (pdu : list Z) : list Z :=
  be16 tid ++ be16 0 ++ be16 (Z.of_nat (List.length pdu) + 1)
  ++ [unitID] ++ pdu.

(** Modbus RTU frame: unit id, PDU and two check bytes. *)
Definition rtuADU (unitID : Z) (pdu adu : list Z) : Prop :=
  exists c1 c2, adu = unitID :: pdu ++ [c1; c2].

(** The response PDU that goes with the request PDU [request] when the
    transport returns the payload [payload]: the function code, then for
    the reads a byte count, then the payload. *)
Definition responseOf (request payload : list Z) : list Z :=
  match request with
  | fc :: _ =>
      if fc <=? 4
      then fc :: Z.of_nat (List.length payload) mod 256 :: payload
      else fc :: payload
  | [] => payload
  end.

(** Element [i] of the unpacked list: bit [i mod 8] of byte [i / 8]. *)
Definition bitAt (results : list Z) (i : nat) : bool :=
  Z.testbit (nth (i / 8) results 0) (Z.of_nat (i mod 8)).

(** Whether the byte [a] occurs in [s]. *)
Fixpoint occurs (a : ascii) (s : string) : bool :=
  match s with
  | EmptyString => false
  | String b s' => Ascii.eqb b a || occurs a s'
  end.

(** The pieces [ws] one after the other. *)
Definition joined (ws : list string) : string :=
  fold_right append EmptyString ws.

(** Text made of white space only: a sequence of encoded white-space code
    points, possibly none. *)
Definition allSpace (s : string) : Prop :=
  exists ws, Forall (fun w => In w whiteSpace) ws /\ s = joined ws.

(** The numeric and boolean target types. *)
Definition numericOrBool (T : DataType) : Prop :=
  match T with
  | INT16 | UINT16 | INT32 | UINT32 | INT64 | UINT64
  | FLOAT32 | FLOAT64 | BOOL => True
  | BYTE | ASCII | UNIX_TIMESTAMP => False
  end.

(** How many elements a decoded value holds (bytes for text). *)
Definition valueCount (v : Value) : nat :=
  match v with
  | V_bytes l | V_int16 l | V_uint16 l | V_int32 l | V_uint32 l
  | V_int64 l | V_uint64 l => List.length l
  | V_float32 l => List.length l
  | V_float64 l => List.length l
  | V_bool l => List.length l
  | V_string s => String.length s
  end.

(** How many elements decoding [n] registers as [T] gives, for the types
    with a fixed number of elements per register group. *)
Definition decodedCount (T : DataType) (n : nat) : nat :=
  match T with
  | BYTE => 2 * n
  | BOOL => 16 * n
  | _ => n / RegistersPerValue T
  end%nat.

(** The 64-bit word of a quadruple, written with shifts and ors. *)
Definition assemble64 (wo : WordOrder) (reg0 reg1 reg2 reg3 : Z) : Z :=
  match wo with
  | WORD_1234 =>
      Z.lor (Z.lor (Z.lor (Z.shiftl reg0 48) (Z.shiftl reg1 32))
                   (Z.shiftl reg2 16)) reg3
  | WORD_4321 =>
      Z.lor (Z.lor (Z.lor (Z.shiftl reg3 48) (Z.shiftl reg2 32))
                   (Z.shiftl reg1 16)) reg0
  end.

(** The data type a value decodes back as, for the numeric values. *)
Definition numericType (v : Value) : option DataType :=
  match v with
  | V_int16 _ => Some INT16 | V_uint16 _ => Some UINT16
  | V_int32 _ => Some INT32 | V_uint32 _ => Some UINT32
  | V_int64 _ => Some INT64 | V_uint64 _ => Some UINT64
  | V_float32 _ => Some FLOAT32 | V_float64 _ => Some FLOAT64
  | V_bytes _ | V_bool _ | V_string _ => None
  end.

(** Every element lies in the range of its Go type. *)
Definition inRange (v : Value) : Prop :=
  match v with
  | V_bytes l => Forall is_byte l
  | V_int16 l => Forall (fun x => - 2 ^ 15 <= x < 2 ^ 15) l
  | V_uint16 l => Forall is_uint16 l
  | V_int32 l => Forall (fun x => - 2 ^ 31 <= x < 2 ^ 31) l
  | V_uint32 l => Forall (fun x => 0 <= x < 2 ^ 32) l
  | V_int64 l => Forall (fun x => - 2 ^ 63 <= x < 2 ^ 63) l
  | V_uint64 l => Forall (fun x => 0 <= x < 2 ^ 64) l
  | V_float32 l => Forall (fun x => 0 <= Float32bits x < 2 ^ 32) l
  | V_float64 l => Forall (fun x => 0 <= Float64bits x < 2 ^ 64) l
  | V_bool _ | V_string _ => True
  end.

Definition isSome {A} (o : option A) : bool :=
  match o with
  | Some _ => true
  | None => false
  end.

(** Whether [ParseStringToType] accepts the part [p] for the target type
    [T]: the part, trimmed, parses as a value of that type. *)
Definition partParses (ParseFloat : string -> Z -> option float64)
           (T : DataType) (p : string) : bool :=
  let tok := TrimSpace p in
  match T with
  | INT16 => isSome (ParseInt tok 16)
  | UINT16 => isSome (ParseUint tok 16)
  | INT32 => isSome (ParseInt tok 32)
  | UINT32 => isSome (ParseUint tok 32)
  | INT64 => isSome (ParseInt tok 64)
  | UINT64 => isSome (ParseUint tok 64)
  | FLOAT32 => isSome (ParseFloat tok 32)
  | FLOAT64 => isSome (ParseFloat tok 64)
  | BOOL => isSome (ParseBool tok)
  | BYTE | ASCII | UNIX_TIMESTAMP => false
  end.

(** A run of recorded exchanges: each is a request PDU, the response
    payload or nil, and the unit id. *)
Definition recordAll (c : Client)
           (exchanges : list (list Z * option (list Z) * Z)) : Client :=
  fold_left (fun c e => let '(request, response, unitID) := e in
                        recordADU c request response unitID)
            exchanges c.

End Vocabulary.

Section PollingVocabulary.

Import gui.

(** The states the application can be in: what the statements of the
    window's callbacks and the polling goroutines make of the initial
    state.  [connectToDevice] and [disconnectFromDevice] are sequences of
    log lines, an assignment to [isConnected], [stopPolling] and
    [updateConnectionStateUI]. *)
Inductive reachable : AppRefined -> Prop :=
| reach_new : reachable NewAppRefined
| reach_log a message : reachable a -> reachable (appendLog a message)
| reach_flag a b : reachable a -> reachable (setConnected a b)
| reach_ui a : reachable a -> reachable (updateConnectionStateUI a)
| reach_interval a text : reachable a -> reachable (setInterval a text)
| reach_start a slaveID : reachable a -> reachable (startPolling a slaveID)
| reach_stop a : reachable a -> reachable (stopPolling a)
| reach_tick a i : reachable a -> reachable (tick a i)
| reach_exit a i a' :
    reachable a -> receiveStop a i = Some a' -> reachable a'.

(** One statement-level step of the application: a callback's statement
    or a move of a polling goroutine. *)
Inductive step : AppRefined -> AppRefined -> Prop :=
| step_log a message : step a (appendLog a message)
| step_flag a b : step a (setConnected a b)
| step_ui a : step a (updateConnectionStateUI a)
| step_interval a text : step a (setInterval a text)
| step_start a slaveID : step a (startPolling a slaveID)
| step_stop a : step a (stopPolling a)
| step_tick a i : step a (tick a i)
| step_exit a i a' : receiveStop a i = Some a' -> step a a'.

(** Whether the interval entry holds a positive integer. *)
Definition validInterval (a : AppRefined) : bool :=
  match Atoi (pollingIntervalInput a) with
  | Some interval => 0 <? interval
  | None => false
  end.

(** Whether a port name mentions a USB serial adapter. *)
Definition mentionsUSB (port : string) : bool :=
  Contains port "usbmodem" || Contains port "usbserial".

End PollingVocabulary.

Section FormVocabulary.

Import datatypes gui.

(** A byte that is neither white space, nor part of an encoded white-space
    code point, nor the comma: a visible ASCII character other than [,]. *)
Definition tokenByte (a : ascii) : bool :=
  let n := Z.of_N (N_of_ascii a) in
  (33 <=? n) && (n <? 127) && negb (n =? 44).

Fixpoint token (s : string) : bool :=
  match s with
  | EmptyString => true
  | String a s' => tokenByte a && token s'
  end.

(** The data type of a list of integers or booleans. *)
Definition wholeType (v : Value) : option DataType :=
  match v with
  | V_int16 _ => Some INT16 | V_uint16 _ => Some UINT16
  | V_int32 _ => Some INT32 | V_uint32 _ => Some UINT32
  | V_int64 _ => Some INT64 | V_uint64 _ => Some UINT64
  | V_bool _ => Some BOOL
  | V_bytes _ | V_float32 _ | V_float64 _ | V_string _ => None
  end.

(** The six integer data types. *)
Definition integerType (T : DataType) : Prop :=
  match T with
  | INT16 | UINT16 | INT32 | UINT32 | INT64 | UINT64 => True
  | BYTE | FLOAT32 | FLOAT64 | BOOL | ASCII | UNIX_TIMESTAMP => False
  end.

(** The quantity field of a read from [startAddr] to [endAddr]: the
    number of addresses, except that the whole address space, 65536
    addresses, does not fit the field and comes out as 0. *)
Definition quantity (startAddr endAddr : Z) : Z :=
  if (startAddr =? 0) && (endAddr =? 65535) then 0
  else endAddr - startAddr + 1.

(** The Modbus function code of the read behind each register type of
    the form. *)
Definition readFunctionCode (regType : string) : option Z :=
  if String.eqb regType "Holding Register" then Some 3
  else if String.eqb regType "Input Register" then Some 4
  else if String.eqb regType "Coil" then Some 1
  else if String.eqb regType "Discrete Input" then Some 2
  else None.

(** The payload of a reply, nil for an error. *)
Definition payload (reply : modbus.Reply) : option (list Z) :=
  match reply with
  | inl results => Some results
  | inr _ => None
  end.

(** The combinations of register type and data type for which a write can
    reach the device: holding registers with a numeric type or text, coils
    with booleans. *)
Definition writable (regType : string) (T : DataType) : bool :=
  if String.eqb regType "Holding Register"
  then match T with
       | BYTE | BOOL | UNIX_TIMESTAMP => false
       | _ => true
       end
  else if String.eqb regType "Coil"
  then match T with
       | BOOL => true
       | _ => false
       end
  else false.

End FormVocabulary.

Section LanguageVocabulary.



End LanguageVocabulary.

(** * Properties *)

(** ** Arithmetic of the integer conversions *)

Section IntegerFacts.

Lemma is_uint16_bounds x : is_uint16 x <-> 0 <= x < 65536.
Proof. unfold is_uint16. change (2 ^ 16) with 65536. tauto. Qed.

(** An [or] of two bit-disjoint parts is their sum. *)
Lemma lor_shifted_low hi lo n :
  0 <= n -> 0 <= lo < 2 ^ n -> Z.lor (hi * 2 ^ n) lo = hi * 2 ^ n + lo.
Proof.
  intros Hn Hlo.
  assert (Hdisj : Z.land (hi * 2 ^ n) lo = 0).
  { apply Z.bits_inj'. intros k Hk.
    rewrite Z.land_spec, Z.bits_0.
    destruct (Z.lt_ge_cases k n) as [Hlt | Hge].
    - rewrite Z.mul_pow2_bits_low by lia. reflexivity.
    - replace (Z.testbit lo k) with false; [apply andb_false_r |].
      symmetry. destruct (Z.eq_dec lo 0) as [-> | Hnz]; [apply Z.bits_0 |].
      apply Z.bits_above_log2; [lia |].
      apply Z.log2_lt_pow2; [lia |].
      apply Z.lt_le_trans with (2 ^ n); [lia |].
      apply Z.pow_le_mono_r; lia. }
  rewrite <- Z.lxor_lor by exact Hdisj.
  symmetry. apply Z.add_nocarry_lxor. exact Hdisj.
Qed.

Lemma uint16_id x : is_uint16 x -> uint16 x = x.
Proof. unfold is_uint16, uint16. intros H. apply Z.mod_small. exact H. Qed.

Lemma uint16_range x : is_uint16 (uint16 x).
Proof. unfold is_uint16, uint16. apply Z.mod_pos_bound. reflexivity. Qed.

Lemma byte_range x : is_byte (byte x).
Proof. unfold is_byte, byte. apply Z.mod_pos_bound. reflexivity. Qed.

Lemma land_255 x : Z.land x 255 = x mod 256.
Proof. change 255 with (Z.ones 8). rewrite Z.land_ones by lia. reflexivity. Qed.

Lemma land_65535 x : Z.land x 65535 = x mod 65536.
Proof. change 65535 with (Z.ones 16). rewrite Z.land_ones by lia. reflexivity. Qed.

(** Reading the low bits as signed and back as unsigned changes nothing. *)
Lemma unsigned_signed w x :
  0 < w -> 0 <= x < 2 ^ w -> (signed w x) mod 2 ^ w = x.
Proof.
  intros Hw Hx. unfold signed.
  rewrite (Z.mod_small x) by exact Hx.
  destruct (x <? 2 ^ (w - 1)).
  - apply Z.mod_small. exact Hx.
  - replace (x - 2 ^ w) with (x + (-1) * 2 ^ w) by ring.
    rewrite Z.mod_add by lia. apply Z.mod_small. exact Hx.
Qed.

End IntegerFacts.

(** ** Multi-register words *)

Section Words.

Import datatypes.

Variable c : Converter.

Lemma shiftl_mul x n : 0 <= n -> Z.shiftl x n = x * 2 ^ n.
Proof. intros. apply Z.shiftl_mul_pow2. assumption. Qed.

Lemma word32_value r0 r1 :
  is_uint16 r0 -> is_uint16 r1 ->
  word32 c r0 r1 = fst (msw32 c r0 r1) * 65536 + snd (msw32 c r0 r1).
Proof.
  rewrite !is_uint16_bounds. intros H0 H1.
  unfold word32, msw32, uint32.
  destruct (wordOrder c); cbn [fst snd];
    rewrite shiftl_mul by lia;
    rewrite Z.mod_small by (change (2 ^ 16) with 65536; change (2 ^ 32) with 4294967296; lia);
    apply (lor_shifted_low _ _ 16); change (2 ^ 16) with 65536; lia.
Qed.

Lemma word32_range r0 r1 :
  is_uint16 r0 -> is_uint16 r1 -> 0 <= word32 c r0 r1 < 2 ^ 32.
Proof.
  intros H0 H1. rewrite word32_value by assumption.
  rewrite is_uint16_bounds in H0, H1.
  change (2 ^ 32) with 4294967296.
  unfold msw32. destruct (wordOrder c); cbn [fst snd]; lia.
Qed.

Lemma uint32ToRegisters_word32 r0 r1 :
  is_uint16 r0 -> is_uint16 r1 ->
  uint32ToRegisters c (word32 c r0 r1) = [r0; r1].
Proof.
  intros H0 H1. rewrite word32_value by assumption.
  rewrite is_uint16_bounds in H0, H1.
  unfold uint32ToRegisters, msw32, uint16.
  rewrite land_65535, Z.shiftr_div_pow2 by lia.
  change (2 ^ 16) with 65536.
  destruct (wordOrder c); cbn [fst snd];
    repeat f_equal;
    try (rewrite Z.div_add_l by lia; rewrite (Z.div_small _ 65536) by lia;
         rewrite Z.add_0_r; apply Z.mod_small; lia);
    try (rewrite Z.add_comm, Z.mod_add by lia; rewrite Z.mod_mod by lia; apply Z.mod_small; lia).
Qed.

Lemma lor4_sum a b d e :
  is_uint16 a -> is_uint16 b -> is_uint16 d -> is_uint16 e ->
  Z.lor (Z.lor (Z.lor (uint64 (Z.shiftl a 48)) (uint64 (Z.shiftl b 32)))
               (uint64 (Z.shiftl d 16))) e
  = a * 2 ^ 48 + b * 2 ^ 32 + d * 2 ^ 16 + e.
Proof.
  rewrite !is_uint16_bounds. intros Ha Hb Hd He.
  unfold uint64. rewrite !shiftl_mul by lia.
  rewrite !Z.mod_small by (cbn; lia).
  rewrite (lor_shifted_low a (b * 2 ^ 32) 48) by (cbn; lia).
  replace (a * 2 ^ 48 + b * 2 ^ 32) with ((a * 2 ^ 16 + b) * 2 ^ 32)
    by (cbn; ring).
  rewrite (lor_shifted_low _ (d * 2 ^ 16) 32) by (cbn; lia).
  replace ((a * 2 ^ 16 + b) * 2 ^ 32 + d * 2 ^ 16)
    with ((a * 2 ^ 32 + b * 2 ^ 16 + d) * 2 ^ 16) by (cbn; ring).
  rewrite (lor_shifted_low _ e 16) by (cbn; lia).
  cbn; ring.
Qed.

Lemma word64_value r0 r1 r2 r3 :
  is_uint16 r0 -> is_uint16 r1 -> is_uint16 r2 -> is_uint16 r3 ->
  word64 c r0 r1 r2 r3
  = let '(a, b, d, e) := msw64 c r0 r1 r2 r3 in
    a * 2 ^ 48 + b * 2 ^ 32 + d * 2 ^ 16 + e.
Proof.
  intros H0 H1 H2 H3. unfold word64, msw64.
  destruct (wordOrder c); apply lor4_sum; assumption.
Qed.

Lemma word64_range r0 r1 r2 r3 :
  is_uint16 r0 -> is_uint16 r1 -> is_uint16 r2 -> is_uint16 r3 ->
  0 <= word64 c r0 r1 r2 r3 < 2 ^ 64.
Proof.
  intros H0 H1 H2 H3. rewrite word64_value by assumption.
  rewrite is_uint16_bounds in H0, H1, H2, H3.
  unfold msw64. destruct (wordOrder c); cbn; lia.
Qed.

Lemma split64 a b d e :
  is_uint16 a -> is_uint16 b -> is_uint16 d -> is_uint16 e ->
  let v := a * 2 ^ 48 + b * 2 ^ 32 + d * 2 ^ 16 + e in
  uint16 (Z.shiftr v 48) = a /\ uint16 (Z.shiftr v 32) = b /\
  uint16 (Z.shiftr v 16) = d /\ uint16 (Z.land v 65535) = e.
Proof.
  rewrite !is_uint16_bounds. intros Ha Hb Hd He v. subst v.
  unfold uint16. rewrite land_65535, !Z.shiftr_div_pow2 by lia.
  cbn -[Z.div Z.modulo Z.mul Z.add].
  repeat split; Z.to_euclidean_division_equations; lia.
Qed.

Lemma uint64ToRegisters_word64 r0 r1 r2 r3 :
  is_uint16 r0 -> is_uint16 r1 -> is_uint16 r2 -> is_uint16 r3 ->
  uint64ToRegisters c (word64 c r0 r1 r2 r3) = [r0; r1; r2; r3].
Proof.
  intros H0 H1 H2 H3. rewrite word64_value by assumption.
  unfold uint64ToRegisters, msw64.
  destruct (wordOrder c).
  - destruct (split64 r0 r1 r2 r3 H0 H1 H2 H3) as (E0 & E1 & E2 & E3).
    cbv zeta in E0, E1, E2, E3. rewrite E0, E1, E2, E3. reflexivity.
  - destruct (split64 r3 r2 r1 r0 H3 H2 H1 H0) as (E0 & E1 & E2 & E3).
    cbv zeta in E0, E1, E2, E3. rewrite E0, E1, E2, E3. reflexivity.
Qed.

End Words.

(** ** Round trips through the converter *)

Section RoundTrip.

Import datatypes.

Variable c : Converter.

Lemma pairs32_inverse {A} (f : Z -> A) (g : A -> list Z) :
  (forall r0 r1, is_uint16 r0 -> is_uint16 r1 ->
                 g (f (word32 c r0 r1)) = [r0; r1]) ->
  forall n r, List.length r = (2 * n)%nat -> Forall is_uint16 r ->
              flat_map g (pairs32 c f r) = r.
Proof.
  intros Hgf. induction n as [| n IH]; intros r Hlen Hr.
  - destruct r; [reflexivity | discriminate].
  - destruct r as [| r0 [| r1 rest]]; try (cbn in Hlen; lia).
    pose proof (Forall_inv Hr) as H0.
    pose proof (Forall_inv (Forall_inv_tail Hr)) as H1.
    pose proof (Forall_inv_tail (Forall_inv_tail Hr)) as Hrest.
    change (flat_map g (pairs32 c f (r0 :: r1 :: rest)))
      with (g (f (word32 c r0 r1)) ++ flat_map g (pairs32 c f rest)).
    rewrite Hgf by assumption.
    rewrite IH; [reflexivity | cbn in Hlen; lia | assumption].
Qed.

Lemma quads64_inverse {A} (f : Z -> A) (g : A -> list Z) :
  (forall r0 r1 r2 r3,
      is_uint16 r0 -> is_uint16 r1 -> is_uint16 r2 -> is_uint16 r3 ->
      g (f (word64 c r0 r1 r2 r3)) = [r0; r1; r2; r3]) ->
  forall n r, List.length r = (4 * n)%nat -> Forall is_uint16 r ->
              flat_map g (quads64 c f r) = r.
Proof.
  intros Hgf. induction n as [| n IH]; intros r Hlen Hr.
  - destruct r; [reflexivity | discriminate].
  - destruct r as [| r0 [| r1 [| r2 [| r3 rest]]]]; try (cbn in Hlen; lia).
    pose proof (Forall_inv Hr) as H0.
    pose proof (Forall_inv_tail Hr) as Hr1.
    pose proof (Forall_inv Hr1) as H1.
    pose proof (Forall_inv_tail Hr1) as Hr2.
    pose proof (Forall_inv Hr2) as H2.
    pose proof (Forall_inv_tail Hr2) as Hr3.
    pose proof (Forall_inv Hr3) as H3.
    pose proof (Forall_inv_tail Hr3) as Hrest.
    change (flat_map g (quads64 c f (r0 :: r1 :: r2 :: r3 :: rest)))
      with (g (f (word64 c r0 r1 r2 r3)) ++ flat_map g (quads64 c f rest)).
    rewrite Hgf by assumption.
    rewrite IH; [reflexivity | cbn in Hlen; lia | assumption].
Qed.

Lemma int16_inverse r :
  Forall is_uint16 r -> map uint16 (convertToInt16Array r) = r.
Proof.
  unfold convertToInt16Array.
  induction 1 as [| x r Hx _ IH]; [reflexivity |].
  cbn [map]. rewrite IH. f_equal.
  unfold uint16, int16. apply unsigned_signed; [lia | exact Hx].
Qed.

Lemma int32_inverse r0 r1 :
  is_uint16 r0 -> is_uint16 r1 ->
  int32ToRegisters c (int32 (word32 c r0 r1)) = [r0; r1].
Proof.
  intros H0 H1. unfold int32ToRegisters, uint32, int32.
  rewrite unsigned_signed by (try lia; apply word32_range; assumption).
  apply uint32ToRegisters_word32; assumption.
Qed.

Lemma int64_inverse r0 r1 r2 r3 :
  is_uint16 r0 -> is_uint16 r1 -> is_uint16 r2 -> is_uint16 r3 ->
  int64ToRegisters c (int64 (word64 c r0 r1 r2 r3)) = [r0; r1; r2; r3].
Proof.
  intros H0 H1 H2 H3. unfold int64ToRegisters, uint64, int64.
  rewrite unsigned_signed by (try lia; apply word64_range; assumption).
  apply uint64ToRegisters_word64; assumption.
Qed.

Lemma multiple_of (k : nat) (r : list Z) :
  (List.length r mod k = 0)%nat -> exists n, List.length r = (k * n)%nat.
Proof.
  intros H. exists (List.length r / k)%nat.
  apply Nat.Div0.div_exact. exact H.
Qed.

End RoundTrip.

(** ** Strings as byte sequences *)

Section StringBytes.

Lemma ascii_of_byte_of_ascii a :
  ascii_of_N (Z.to_N (byte (Z.of_N (N_of_ascii a)))) = a.
Proof.
  unfold byte. pose proof (N_ascii_bounded a) as Hb.
  rewrite Z.mod_small by (change (2 ^ 8) with 256; lia).
  rewrite N2Z.id. apply ascii_N_embedding.
Qed.

Lemma byte_of_ascii_of_byte x :
  is_byte x -> Z.of_N (N_of_ascii (ascii_of_N (Z.to_N (byte x)))) = x.
Proof.
  unfold is_byte, byte. change (2 ^ 8) with 256. intros Hx.
  rewrite Z.mod_small by exact Hx.
  rewrite N_ascii_embedding by lia. lia.
Qed.

Lemma string_of_bytes_of_string s : string_of_bytes (bytes_of_string s) = s.
Proof.
  induction s as [| a s IH]; [reflexivity |].
  unfold string_of_bytes, bytes_of_string in *. cbn [list_ascii_of_string map string_of_list_ascii].
  rewrite IH, ascii_of_byte_of_ascii. reflexivity.
Qed.

Lemma bytes_of_string_of_bytes b :
  Forall is_byte b -> bytes_of_string (string_of_bytes b) = b.
Proof.
  induction 1 as [| x b Hx _ IH]; [reflexivity |].
  unfold string_of_bytes, bytes_of_string in *. cbn [list_ascii_of_string map string_of_list_ascii].
  rewrite IH, byte_of_ascii_of_byte by exact Hx. reflexivity.
Qed.

Lemma bytes_of_string_app s t :
  bytes_of_string (s ++ t) = bytes_of_string s ++ bytes_of_string t.
Proof.
  induction s as [| a s IH]; [reflexivity |].
  unfold bytes_of_string in *. cbn. rewrite IH. reflexivity.
Qed.

Lemma string_of_bytes_app b d :
  string_of_bytes (b ++ d) = (string_of_bytes b ++ string_of_bytes d)%string.
Proof.
  induction b as [| x b IH]; [reflexivity |].
  unfold string_of_bytes in *. cbn. rewrite IH. reflexivity.
Qed.

Lemma bytes_of_string_range s : Forall is_byte (bytes_of_string s).
Proof.
  induction s as [| a s IH]; constructor; [| exact IH].
  unfold is_byte. pose proof (N_ascii_bounded a). change (2 ^ 8) with 256. lia.
Qed.

Lemma bytes_of_string_length s :
  List.length (bytes_of_string s) = String.length s.
Proof.
  induction s as [| a s IH]; [reflexivity |].
  unfold bytes_of_string in *. cbn. rewrite IH. reflexivity.
Qed.

Lemma zero_byte x : is_byte x -> ascii_of_N (Z.to_N (byte x)) = zero -> x = 0.
Proof.
  intros Hx H. rewrite <- (byte_of_ascii_of_byte x Hx), H. reflexivity.
Qed.

Lemma string_app_assoc (s t u : string) : ((s ++ t) ++ u = s ++ (t ++ u))%string.
Proof. induction s as [| a s IH]; [reflexivity |]. cbn. rewrite IH. reflexivity. Qed.

Lemma string_app_empty (s : string) : (s ++ "" = s)%string.
Proof. induction s as [| a s IH]; [reflexivity |]. cbn. rewrite IH. reflexivity. Qed.

End StringBytes.

(** ** Trimming *)

Section Trimming.

Import datatypes.

(** [TrimRight] removes a run of the cut byte from the end, and nothing
    else. *)
Lemma TrimRight_splits s cut :
  exists k, s = (TrimRight s cut ++ run_of cut k)%string.
Proof.
  induction s as [| a s [k IH]].
  - exists O. reflexivity.
  - cbn [TrimRight]. destruct (TrimRight s cut) as [| b t] eqn:E.
    + destruct (Ascii.eqb_spec a cut) as [-> | Hne].
      * exists (S k). cbn in *. rewrite <- IH. reflexivity.
      * exists k. cbn in *. rewrite <- IH. reflexivity.
    + exists k. cbn in *. rewrite <- IH. reflexivity.
Qed.

(** What [TrimRight] returns does not end in the cut byte. *)
Lemma TrimRight_last s cut : lastChar (TrimRight s cut) <> Some cut.
Proof.
  induction s as [| a s IH]; [discriminate |].
  cbn [TrimRight]. destruct (TrimRight s cut) as [| b t] eqn:E.
  - destruct (Ascii.eqb_spec a cut) as [-> | Hne]; [discriminate |].
    cbn. congruence.
  - exact IH.
Qed.

Lemma TrimRight_keep s a cut :
  a <> cut -> TrimRight (s ++ String a "") cut = (s ++ String a "")%string.
Proof.
  intros Hne. induction s as [| b s IH].
  - cbn. destruct (Ascii.eqb_spec a cut); [contradiction | reflexivity].
  - cbn [append TrimRight]. rewrite IH.
    destruct (s ++ String a "")%string eqn:E; [| reflexivity].
    destruct s; discriminate.
Qed.

Lemma TrimRight_drop s cut :
  TrimRight (s ++ String cut "") cut = TrimRight s cut.
Proof.
  induction s as [| b s IH].
  - cbn. rewrite Ascii.eqb_refl. reflexivity.
  - cbn [append TrimRight]. rewrite IH. reflexivity.
Qed.

End Trimming.

(** ** ASCII registers *)

Section AsciiRegisters.

Import datatypes.

Variable c : Converter.

Lemma convertToBytes_registerBytes r :
  convertToBytes c r = flat_map (registerBytes (byteOrder c)) r.
Proof.
  unfold convertToBytes. apply flat_map_ext. intros reg.
  unfold registerBytes, byte. rewrite land_255, Z.shiftr_div_pow2 by lia.
  change (2 ^ 8) with 256. rewrite Z.mod_mod by lia.
  destruct (byteOrder c); reflexivity.
Qed.

Lemma convertToASCII_unfold r :
  convertToASCII c r = TrimRight (string_of_bytes (convertToBytes c r)) zero.
Proof. reflexivity. Qed.

Lemma registerBytes_range bo reg : Forall is_byte (registerBytes bo reg).
Proof.
  unfold is_byte. change (2 ^ 8) with 256.
  destruct bo; repeat constructor; apply Z.mod_pos_bound; lia.
Qed.

Lemma registerBytes_length bo r :
  List.length (flat_map (registerBytes bo) r) = (2 * List.length r)%nat.
Proof.
  induction r as [| x r IH]; [reflexivity |].
  cbn [flat_map]. rewrite length_app, IH. destruct bo; cbn; lia.
Qed.

Lemma flat_registerBytes_range bo r :
  Forall is_byte (flat_map (registerBytes bo) r).
Proof.
  induction r as [| x r IH]; [constructor |].
  cbn [flat_map]. apply Forall_app. split; [apply registerBytes_range | exact IH].
Qed.

(** Pairing two bytes gives the register whose bytes they are. *)
Lemma pair_value b0 b1 :
  is_byte b0 -> is_byte b1 ->
  Z.lor (uint16 (Z.shiftl b0 8)) b1 = b0 * 256 + b1.
Proof.
  unfold is_byte, uint16. change (2 ^ 8) with 256. intros H0 H1.
  rewrite shiftl_mul by lia. change (2 ^ 8) with 256.
  rewrite Z.mod_small by (change (2 ^ 16) with 65536; lia).
  apply (lor_shifted_low b0 b1 8); [lia | exact H1].
Qed.

Lemma pairBytes_registerBytes n : forall P,
  List.length P = (2 * n)%nat -> Forall is_byte P ->
  flat_map (registerBytes (byteOrder c)) (pairBytes c P) = P.
Proof.
  induction n as [| n IH]; intros P Hlen HP.
  - destruct P; [reflexivity | discriminate].
  - destruct P as [| b0 [| b1 rest]]; try (cbn in Hlen; lia).
    pose proof (Forall_inv HP) as H0.
    pose proof (Forall_inv (Forall_inv_tail HP)) as H1.
    pose proof (Forall_inv_tail (Forall_inv_tail HP)) as Hrest.
    cbn [pairBytes flat_map]. rewrite IH by (try assumption; cbn in Hlen; lia).
    unfold is_byte in H0, H1. change (2 ^ 8) with 256 in H0, H1.
    destruct (byteOrder c); rewrite pair_value by assumption;
      unfold registerBytes; cbn [app]; repeat f_equal;
      Z.to_euclidean_division_equations; lia.
Qed.

Lemma registerBytes_pairBytes r :
  Forall is_uint16 r ->
  pairBytes c (flat_map (registerBytes (byteOrder c)) r) = r.
Proof.
  induction 1 as [| x r Hx _ IH]; [reflexivity |].
  rewrite is_uint16_bounds in Hx.
  cbn [flat_map]. unfold registerBytes at 1.
  destruct (byteOrder c) eqn:Ebo; cbn [app pairBytes]; rewrite Ebo, IH;
    rewrite pair_value
      by (unfold is_byte; change (2 ^ 8) with 256; apply Z.mod_pos_bound; lia);
    f_equal; Z.to_euclidean_division_equations; lia.
Qed.

Lemma pairBytes_range P : Forall is_byte P -> Forall is_uint16 (pairBytes c P).
Proof.
  revert P. fix IH 1. intros [| b0 [| b1 rest]] HP; try constructor.
  - pose proof (Forall_inv HP) as H0.
    pose proof (Forall_inv (Forall_inv_tail HP)) as H1.
    unfold is_byte in H0, H1. change (2 ^ 8) with 256 in H0, H1.
    rewrite is_uint16_bounds.
    destruct (byteOrder c); rewrite pair_value by assumption; lia.
  - apply IH. exact (Forall_inv_tail (Forall_inv_tail HP)).
Qed.

End AsciiRegisters.

Section AsciiRoundTrip.

Import datatypes.

Variable c : Converter.

Lemma padded_pairs P n :
  Forall is_byte P -> List.length P = (2 * n)%nat ->
  forall r, pairBytes c P = r ->
  pairBytes c (if (List.length P mod 2 =? 0)%nat then P else P ++ [0]) = r.
Proof.
  intros _ Hlen r <-.
  replace (List.length P mod 2)%nat with 0%nat; [reflexivity |].
  rewrite Hlen, Nat.mul_comm. symmetry. apply Nat.Div0.mod_mul.
Qed.

(** Decoding then encoding text gives the registers back exactly when the
    last register is not zero. *)
Lemma ascii_inverse r :
  Forall is_uint16 r -> r <> [] -> last r 0 <> 0 ->
  asciiToRegisters c (convertToASCII c r) = r.
Proof.
  intros Hr Hne Hlast.
  destruct (exists_last Hne) as (r' & x & ->).
  rewrite last_last in Hlast.
  apply Forall_app in Hr. destruct Hr as [Hr' Hx].
  apply Forall_inv in Hx.
  assert (Hwhole : pairBytes c (flat_map (registerBytes (byteOrder c)) (r' ++ [x]))
                   = r' ++ [x]).
  { apply registerBytes_pairBytes. apply Forall_app. split; [exact Hr' |].
    constructor; [exact Hx | constructor]. }
  unfold asciiToRegisters.
  rewrite convertToASCII_unfold, convertToBytes_registerBytes.
  set (bo := byteOrder c) in *.
  rewrite flat_map_app in *. cbn [flat_map] in *. rewrite app_nil_r in *.
  set (B' := flat_map (registerBytes bo) r') in *.
  assert (HB' : Forall is_byte B') by apply flat_registerBytes_range.
  assert (HlenB' : List.length B' = (2 * List.length r')%nat)
    by apply registerBytes_length.
  assert (Hpair : exists b1 b2, registerBytes bo x = [b1; b2] /\
                    is_byte b1 /\ is_byte b2 /\ (b1 <> 0 \/ b2 <> 0)).
  { rewrite is_uint16_bounds in Hx. unfold is_byte. change (2 ^ 8) with 256.
    unfold registerBytes. destruct bo; eexists; eexists;
      (split; [reflexivity |]);
      repeat split; try (apply Z.mod_pos_bound; lia);
      Z.to_euclidean_division_equations; lia. }
  destruct Hpair as (b1 & b2 & Ex & H1 & H2 & Hnz). rewrite Ex in *.
  set (a1 := ascii_of_N (Z.to_N (byte b1))).
  set (a2 := ascii_of_N (Z.to_N (byte b2))).
  assert (Hstr : string_of_bytes (B' ++ [b1; b2])
                 = ((string_of_bytes B' ++ String a1 "") ++ String a2 "")%string).
  { rewrite string_of_bytes_app, string_app_assoc. reflexivity. }
  destruct (ascii_dec a2 zero) as [Ez | Hnz2].
  - (* the last byte is NUL, the one before it is not *)
    assert (b2 = 0) by (apply zero_byte; assumption). subst b2.
    assert (Hnz1 : a1 <> zero).
    { intros E. apply zero_byte in E; [| exact H1]. lia. }
    rewrite Hstr, Ez, TrimRight_drop.
    rewrite TrimRight_keep by exact Hnz1.
    replace (string_of_bytes B' ++ String a1 "")%string
      with (string_of_bytes (B' ++ [b1]))
      by (rewrite string_of_bytes_app; reflexivity).
    rewrite bytes_of_string_of_bytes
      by (apply Forall_app; split; [exact HB' | constructor; [exact H1 | constructor]]).
    replace (List.length (B' ++ [b1]) mod 2)%nat with 1%nat.
    + cbn [Nat.eqb]. rewrite <- app_assoc. exact Hwhole.
    + rewrite length_app, HlenB'. cbn [List.length].
      rewrite Nat.add_comm, Nat.mul_comm, Nat.Div0.mod_add. reflexivity.
  - (* the last byte is not NUL: nothing is trimmed *)
    rewrite Hstr, TrimRight_keep by exact Hnz2. rewrite <- Hstr.
    assert (HB : Forall is_byte (B' ++ [b1; b2])).
    { apply Forall_app. split; [exact HB' |].
      constructor; [exact H1 | constructor; [exact H2 | constructor]]. }
    rewrite bytes_of_string_of_bytes by exact HB.
    apply (padded_pairs _ (S (List.length r'))); [exact HB | | exact Hwhole].
    rewrite length_app, HlenB'. cbn [List.length]. lia.
Qed.

End AsciiRoundTrip.

(** ** The converter: round trip and 32-bit grouping *)

(** Closes [Forall is_uint16 l] and [Forall is_byte l] for a literal [l]. *)
Ltac in_range :=
  repeat (apply Forall_cons; [unfold is_uint16, is_byte; lia |]);
  apply Forall_nil.

Section ConverterTheorems.

Import datatypes.

(** C4, as stated, fails: with byte order AB and word order 1234, one
    register decoded as BYTE or as BOOL yields a value that
    [ConvertToRegisters] rejects; two registers spelling "AB" and two NULs
    decoded as ASCII come back as the single register 0x4142; and two
    registers decoded as UNIX_TIMESTAMP come back as the registers of the
    formatted date. *)
Lemma roundTrip_counterexample :
  let c := NewConverter AB WORD_1234 in
  (Forall is_uint16 [1] /\ (0 < List.length [1])%nat /\
   (List.length [1] mod RegistersPerValue BYTE = 0)%nat /\
   roundTrip c [1] BYTE
   = Err "unsupported type for conversion to registers: []uint8") /\
  ((List.length [1] mod RegistersPerValue BOOL = 0)%nat /\
   roundTrip c [1] BOOL
   = Err "unsupported type for conversion to registers: []bool") /\
  (Forall is_uint16 [0x4142; 0] /\
   Nat.modulo (List.length [0x4142; 0]) (RegistersPerValue ASCII) = 0%nat /\
   roundTrip c [0x4142; 0] ASCII = Ok [0x4142]) /\
  ((List.length [0; 0] mod RegistersPerValue UNIX_TIMESTAMP = 0)%nat /\
   roundTrip c [0; 0] UNIX_TIMESTAMP
   = Ok (asciiToRegisters c "1970-01-01 00:00:00") /\
   asciiToRegisters c "1970-01-01 00:00:00" <> [0; 0]).
Proof.
  cbv zeta. repeat split; try reflexivity; try discriminate;
    try (cbn; lia); in_range.
Qed.

(** C4, amended: for the integer and float data types, and for ASCII when
    the last register is not zero, decoding a register array whose length
    is a positive multiple of [RegistersPerValue] and encoding the value
    with the same converter gives the array back. *)
Theorem roundTrip_reversible (c : Converter) (T : DataType) (r : list Z) :
  Forall is_uint16 r ->
  (0 < List.length r)%nat ->
  (List.length r mod RegistersPerValue T = 0)%nat ->
  reversible T r ->
  roundTrip c r T = Ok r.
Proof.
  intros Hr Hpos Hmul Hrev.
  unfold roundTrip, ConvertFromRegisters.
  destruct r as [| r0 r']; [cbn in Hpos; lia |].
  set (r := r0 :: r') in *.
  destruct (multiple_of _ _ Hmul) as [n Hn].
  destruct T; cbn [reversible] in Hrev; try contradiction;
    cbn [ConvertToRegisters RegistersPerValue] in *; f_equal.
  - apply int16_inverse. exact Hr.
  - apply (pairs32_inverse c int32 (int32ToRegisters c) (int32_inverse c) n);
      assumption.
  - apply (pairs32_inverse c (fun v => v) (uint32ToRegisters c)
             (uint32ToRegisters_word32 c) n); assumption.
  - apply (quads64_inverse c int64 (int64ToRegisters c) (int64_inverse c) n);
      assumption.
  - apply (quads64_inverse c (fun v => v) (uint64ToRegisters c)
             (uint64ToRegisters_word64 c) n); assumption.
  - apply (pairs32_inverse c Float32frombits (float32ToRegisters c)
             (uint32ToRegisters_word32 c) n); assumption.
  - apply (quads64_inverse c Float64frombits (float64ToRegisters c)
             (uint64ToRegisters_word64 c) n); assumption.
  - apply ascii_inverse; [exact Hr | discriminate | exact Hrev].
Qed.

Lemma roundTrip_reversible_witness :
  roundTrip (NewConverter BA WORD_4321) [0x4142; 0x0043; 7; 0xFFFF] INT64
  = Ok [0x4142; 0x0043; 7; 0xFFFF].
Proof.
  apply roundTrip_reversible.
  - in_range.
  - simpl; lia.
  - reflexivity.
  - simpl; exact I.
Defined.

End ConverterTheorems.

(** ** 32-bit values are assembled from register pairs *)

Section Grouping.

Import datatypes modbus.

Lemma pairs32_length {A} c (f : Z -> A) : forall r,
  List.length (pairs32 c f r) = (List.length r / 2)%nat.
Proof.
  fix IH 1. intros [| r0 [| r1 rest]]; try reflexivity.
  change (List.length (pairs32 c f (r0 :: r1 :: rest)))
    with (S (List.length (pairs32 c f rest))).
  rewrite IH.
  change (List.length (r0 :: r1 :: rest)) with (2 + List.length rest)%nat.
  replace (2 + List.length rest)%nat with (List.length rest + 1 * 2)%nat by lia.
  rewrite Nat.div_add by lia. lia.
Qed.

Lemma pairs32_nth {A} c (f : Z -> A) : forall i r,
  (2 * i + 1 < List.length r)%nat ->
  nth_error (pairs32 c f r) i
  = Some (f (word32 c (nth (2 * i) r 0) (nth (2 * i + 1) r 0))).
Proof.
  induction i as [| i IH]; intros r Hi.
  - destruct r as [| r0 [| r1 rest]]; try (cbn in Hi; lia). reflexivity.
  - destruct r as [| r0 [| r1 rest]]; try (cbn in Hi; lia).
    change (nth_error (pairs32 c f (r0 :: r1 :: rest)) (S i))
      with (nth_error (pairs32 c f rest) i).
    rewrite IH by (cbn in Hi; lia).
    replace (2 * S i)%nat with (S (S (2 * i))) by lia.
    replace (S (S (2 * i)) + 1)%nat with (S (S (2 * i + 1))) by lia.
    reflexivity.
Qed.

Lemma word32_assemble32 c r0 r1 :
  is_uint16 r0 -> is_uint16 r1 ->
  word32 c r0 r1 = assemble32 (wordOrder c) r0 r1.
Proof.
  rewrite !is_uint16_bounds. intros H0 H1.
  unfold word32, assemble32, uint32.
  destruct (wordOrder c); rewrite Z.mod_small; try reflexivity;
    rewrite shiftl_mul by lia; cbn; lia.
Qed.

Lemma nth_in_range r i :
  Forall is_uint16 r -> (i < List.length r)%nat -> is_uint16 (nth i r 0).
Proof.
  intros Hr Hi. rewrite Forall_forall in Hr. apply Hr. apply nth_In. exact Hi.
Qed.

(** C5: decoding as UINT32, INT32 or FLOAT32 yields one value per whole
    register pair; value [i] is [reg[2i]<<16 | reg[2i+1]] under word order
    1234 and [reg[2i+1]<<16 | reg[2i]] under 4321 (read as signed for INT32,
    as an IEEE-754 pattern for FLOAT32).  And on a connected client whose
    word order is 1234, a successful [ReadHoldingRegisters] of unit 1,
    address 0, count 2 as UINT32 whose response carries the registers
    0x0001, 0x0002 returns the single value 65538. *)
Theorem uint32_from_register_pairs (cl : Client) (r : list Z) (i : nat) :
  Forall is_uint16 r ->
  (2 * i + 1 < List.length r)%nat ->
  let c := converter cl in
  let w := assemble32 (wordOrder c) (nth (2 * i) r 0) (nth (2 * i + 1) r 0) in
  (ConvertFromRegisters c r UINT32 = Ok (V_uint32 (convertToUint32Array c r)) /\
   ConvertFromRegisters c r INT32 = Ok (V_int32 (convertToInt32Array c r)) /\
   ConvertFromRegisters c r FLOAT32
   = Ok (V_float32 (convertToFloat32Array c r))) /\
  (List.length (convertToUint32Array c r) = (List.length r / 2)%nat /\
   List.length (convertToInt32Array c r) = (List.length r / 2)%nat /\
   List.length (convertToFloat32Array c r) = (List.length r / 2)%nat) /\
  (nth_error (convertToUint32Array c r) i = Some w /\
   nth_error (convertToInt32Array c r) i = Some (int32 w) /\
   nth_error (convertToFloat32Array c r) i = Some (Float32frombits w)) /\
  (isConnected cl = true -> client cl <> None -> wordOrder c = WORD_1234 ->
   exists cl',
     ReadHoldingRegisters cl 1 0 2 UINT32 (inl [0x00; 0x01; 0x00; 0x02])
     = Done (Ok (V_uint32 [65538])) cl').
Proof.
  intros Hr Hi c w.
  assert (Hw : word32 c (nth (2 * i) r 0) (nth (2 * i + 1) r 0) = w).
  { apply word32_assemble32; apply nth_in_range; try assumption; lia. }
  split; [| split; [| split]].
  - destruct r; [cbn in Hi; lia |]. repeat split.
  - unfold convertToUint32Array, convertToInt32Array, convertToFloat32Array.
    rewrite !pairs32_length. repeat split.
  - unfold convertToUint32Array, convertToInt32Array, convertToFloat32Array.
    rewrite !pairs32_nth by exact Hi. rewrite Hw. repeat split.
  - intros Hconn Hclient Hwo.
    unfold ReadHoldingRegisters. rewrite Hconn. cbn [negb].
    destruct (client cl) as [h |] eqn:Ecl; [| contradiction].
    eexists. f_equal.
    assert (Hc : converter (recordADU cl (readRequestPDU 3 0 2)
                                      (Some [0; 1; 0; 2]) 1) = c).
    { unfold recordADU. destruct (connectionType cl); reflexivity. }
    rewrite Hc. cbn. unfold convertToUint32Array, pairs32, word32.
    rewrite Hwo. reflexivity.
Qed.

Lemma uint32_from_register_pairs_witness :
  let cl := snd (ConnectTCP NewClient "192.168.1.10" 502 None) in
  nth_error (convertToUint32Array (converter cl) [0x0001; 0x0002; 0xFFFF; 0x8000]) 1
  = Some (Z.lor (Z.shiftl 0xFFFF 16) 0x8000) /\
  exists cl',
    ReadHoldingRegisters cl 1 0 2 UINT32 (inl [0x00; 0x01; 0x00; 0x02])
    = Done (Ok (V_uint32 [65538])) cl'.
Proof.
  cbv zeta.
  pose proof (uint32_from_register_pairs
                (snd (ConnectTCP NewClient "192.168.1.10" 502 None))
                [0x0001; 0x0002; 0xFFFF; 0x8000] 1) as H.
  destruct H as (_ & _ & (Hu & _) & Hread).
  - in_range.
  - simpl; lia.
  - split.
    + exact Hu.
    + apply Hread; [reflexivity | discriminate | reflexivity].
Defined.

End Grouping.

(** ** ASCII text *)

Section AsciiText.

Import datatypes.

(** C7: [convertToASCII] lays out the two bytes of every register in the
    configured byte order, over all registers, and returns that text
    without its trailing run of NUL bytes: the text is the result followed
    by NULs only, and the result does not end in NUL, so NULs before the
    last non-NUL byte stay.  Registers spelling "AB" and two NULs give
    "AB"; a NUL between "A" and "B" is kept.  [asciiToRegisters] produces
    registers whose bytes, in the configured order, are the bytes of the
    string followed by one zero byte exactly when the string has odd
    length. *)
Theorem ascii_decode_trims_trailing_nul_encode_pads (c : Converter) :
  (forall r,
      (exists k,
          string_of_bytes (flat_map (registerBytes (byteOrder c)) r)
          = (convertToASCII c r ++ run_of zero k)%string) /\
      lastChar (convertToASCII c r) <> Some zero) /\
  (forall wo,
      convertToASCII (NewConverter AB wo) [0x4142; 0x0000] = "AB"%string /\
      convertToASCII (NewConverter BA wo) [0x4241; 0x0000] = "AB"%string /\
      convertToASCII (NewConverter AB wo) [0x4100; 0x4200]
      = String "A" (String zero (String "B" EmptyString))) /\
  (forall s,
      flat_map (registerBytes (byteOrder c)) (asciiToRegisters c s)
      = bytes_of_string s
        ++ (if Nat.even (String.length s) then [] else [0]) /\
      Forall is_uint16 (asciiToRegisters c s)).
Proof.
  split; [| split].
  - intros r. rewrite convertToASCII_unfold, convertToBytes_registerBytes.
    split; [apply TrimRight_splits | apply TrimRight_last].
  - intros wo. repeat split.
  - intros s. unfold asciiToRegisters.
    pose proof (bytes_of_string_range s) as Hb.
    pose proof (bytes_of_string_length s) as Hl.
    set (b := bytes_of_string s) in *. rewrite <- Hl.
    destruct (Nat.even (List.length b)) eqn:Ev.
    + apply Nat.even_spec in Ev. destruct Ev as [n Hn].
      replace (List.length b mod 2)%nat with 0%nat
        by (rewrite Hn, Nat.mul_comm; symmetry; apply Nat.Div0.mod_mul).
      cbn [Nat.eqb]. rewrite app_nil_r. split.
      * apply (pairBytes_registerBytes c n); assumption.
      * apply pairBytes_range. exact Hb.
    + assert (Hodd : Nat.odd (List.length b) = true)
        by (rewrite <- Nat.negb_even, Ev; reflexivity).
      apply Nat.odd_spec in Hodd. destruct Hodd as [n Hn].
      replace (List.length b mod 2)%nat with 1%nat
        by (rewrite Hn, Nat.add_comm, Nat.mul_comm, Nat.Div0.mod_add;
            reflexivity).
      cbn [Nat.eqb].
      assert (Hb0 : Forall is_byte (b ++ [0])).
      { apply Forall_app. split; [exact Hb |]. in_range. }
      split.
      * apply (pairBytes_registerBytes c (S n)); [| exact Hb0].
        rewrite length_app, Hn. cbn [List.length]. lia.
      * apply pairBytes_range. exact Hb0.
Qed.

End AsciiText.

(** ** CRC-16 of RTU frames *)

Section CRC.

Import datatypes modbus.

Lemma lxor_range16 a b :
  0 <= a < 65536 -> 0 <= b < 65536 -> 0 <= Z.lxor a b < 65536.
Proof.
  intros Ha Hb.
  assert (Hnn : 0 <= Z.lxor a b) by (apply Z.lxor_nonneg; lia).
  split; [exact Hnn |].
  destruct (Z.eq_dec (Z.lxor a b) 0) as [-> | Hnz]; [lia |].
  change 65536 with (2 ^ 16). apply Z.log2_lt_pow2; [lia |].
  assert (Hla : Z.log2 a < 16).
  { destruct (Z.eq_dec a 0) as [-> | ?]; [cbn; lia |].
    apply Z.log2_lt_pow2; [lia |]. change (2 ^ 16) with 65536. lia. }
  assert (Hlb : Z.log2 b < 16).
  { destruct (Z.eq_dec b 0) as [-> | ?]; [cbn; lia |].
    apply Z.log2_lt_pow2; [lia |]. change (2 ^ 16) with 65536. lia. }
  pose proof (Z.log2_lxor a b ltac:(lia) ltac:(lia)). lia.
Qed.

Lemma crcShift_step crc :
  crcShift crc = if Z.odd crc then Z.lxor (crc / 2) 0xA001 else crc / 2.
Proof.
  unfold crcShift. change 1 with (Z.ones 1) at 1.
  rewrite Z.land_ones, Z.shiftr_div_pow2 by lia.
  change (2 ^ 1) with 2. rewrite Zmod_odd.
  destruct (Z.odd crc); reflexivity.
Qed.

Lemma crcShift_range crc : 0 <= crc < 65536 -> 0 <= crcShift crc < 65536.
Proof.
  intros H. rewrite crcShift_step.
  assert (0 <= crc / 2 < 65536) by (Z.to_euclidean_division_equations; lia).
  destruct (Z.odd crc); [apply lxor_range16; lia | assumption].
Qed.

Lemma crc16_bits_iter n crc : crc16_bits n crc = Nat.iter n crcShift crc.
Proof.
  revert crc. induction n as [| n IH]; intros crc; [reflexivity |].
  cbn [crc16_bits]. rewrite IH, <- crcShift_step.
  symmetry. apply Nat.iter_succ_r.
Qed.

Lemma iter_crcShift_range n crc :
  0 <= crc < 65536 -> 0 <= Nat.iter n crcShift crc < 65536.
Proof.
  intros H. induction n as [| n IH]; [exact H |].
  cbn [Nat.iter]. apply crcShift_range. exact IH.
Qed.

Lemma crcByte_reference crc b :
  is_byte b -> crcByte crc b = crc16_bits 8 (Z.lxor crc b).
Proof.
  unfold is_byte, crcByte, uint16. change (2 ^ 8) with 256. intros Hb.
  rewrite Z.mod_small by (change (2 ^ 16) with 65536; lia).
  symmetry. apply crc16_bits_iter.
Qed.

Lemma crcByte_range crc b :
  0 <= crc < 65536 -> 0 <= crcByte crc b < 65536.
Proof.
  intros H. unfold crcByte. apply iter_crcShift_range.
  apply lxor_range16; [exact H |].
  unfold uint16. change 65536 with (2 ^ 16). apply Z.mod_pos_bound. lia.
Qed.

Lemma fold_crcByte_range data : forall crc,
  0 <= crc < 65536 -> 0 <= fold_left crcByte data crc < 65536.
Proof.
  induction data as [| b data IH]; intros crc H; [exact H |].
  cbn [fold_left]. apply IH. apply crcByte_range. exact H.
Qed.

Lemma fold_crcByte_reference data : forall crc,
  Forall is_byte data -> fold_left crcByte data crc = crc16_from crc data.
Proof.
  induction data as [| b data IH]; intros crc H; [reflexivity |].
  cbn [fold_left crc16_from].
  rewrite crcByte_reference by exact (Forall_inv H).
  apply IH. exact (Forall_inv_tail H).
Qed.

(** [calculateCRC] returns the reference register with its two bytes
    exchanged. *)
Lemma calculateCRC_swapped data :
  Forall is_byte data ->
  calculateCRC data
  = (crc16_reference data mod 256) * 256 + crc16_reference data / 256.
Proof.
  intros H. unfold calculateCRC, crc16_reference.
  rewrite <- fold_crcByte_reference by exact H.
  pose proof (fold_crcByte_range data 0xFFFF ltac:(lia)) as Hr.
  set (crc := fold_left crcByte data 65535) in *.
  unfold uint16. rewrite Z.shiftr_div_pow2, shiftl_mul by lia.
  change (2 ^ 8) with 256. change (2 ^ 16) with 65536.
  replace ((crc * 256) mod 65536) with ((crc mod 256) * 256)
    by (Z.to_euclidean_division_equations; lia).
  rewrite Z.lor_comm.
  replace (Z.lor (crc mod 256 * 256) (crc / 256))
    with (crc mod 256 * 256 + crc / 256).
  2:{ symmetry. apply (lor_shifted_low (crc mod 256) (crc / 256) 8); [lia |].
      change (2 ^ 8) with 256. Z.to_euclidean_division_equations; lia. }
  apply Z.mod_small. Z.to_euclidean_division_equations; lia.
Qed.

(** Every RTU frame built by [recordADU] ends in the reference CRC with
    the high byte first. *)
Lemma rtuFrame_trailer slaveID pdu :
  Forall is_byte (slaveID :: pdu) ->
  rtuFrame slaveID pdu
  = (slaveID :: pdu) ++ rev (crc16_trailer (slaveID :: pdu)).
Proof.
  intros H. unfold rtuFrame, crc16_trailer.
  rewrite calculateCRC_swapped by exact H.
  unfold crc16_reference.
  rewrite <- fold_crcByte_reference by exact H.
  pose proof (fold_crcByte_range (slaveID :: pdu) 0xFFFF ltac:(lia)) as Hr.
  set (crc := fold_left crcByte (slaveID :: pdu) 65535) in *.
  unfold byte. rewrite land_255, Z.shiftr_div_pow2 by lia.
  change (2 ^ 8) with 256. cbn [rev app].
  do 3 f_equal; [| f_equal]; Z.to_euclidean_division_equations; lia.
Qed.

(** C3 on the code: for the frame 01 03 00 00 00 01 the reference CRC-16
    register is 0x0A84, so a conformant frame ends in 84 0A (low byte
    first).  [calculateCRC] returns the register already exchanged,
    0x840A, and [recordADU] then appends its low byte first: the recorded
    RTU frame ends in 0A 84, the high byte of the CRC first. *)
Theorem rtu_frame_crc_high_byte_first :
  let frame := [0x01; 0x03; 0x00; 0x00; 0x00; 0x01] in
  let c := snd (ConnectRTU NewClient "/dev/ttyUSB0" 9600 8 1 "None" None) in
  crc16_reference frame = 0x0A84 /\
  crc16_trailer frame = [0x84; 0x0A] /\
  calculateCRC frame = 0x840A /\
  lastSentPacket (recordADU c [0x03; 0x00; 0x00; 0x00; 0x01] None 0x01)
  = Some (frame ++ [0x0A; 0x84]).
Proof. cbv zeta. repeat split. Qed.

End CRC.

(** ** The recorded exchange *)

Section Recording.

Import datatypes modbus.

Lemma PutUint16_bytes v :
  0 <= v < 65536 -> PutUint16 v = [v / 256; v mod 256].
Proof.
  intros Hv. unfold PutUint16, byte. rewrite Z.shiftr_div_pow2 by lia.
  change (2 ^ 8) with 256.
  f_equal. Z.to_euclidean_division_equations; lia.
Qed.

Lemma uint16_bounds v : 0 <= uint16 v < 65536.
Proof. unfold uint16. change 65536 with (2 ^ 16). apply Z.mod_pos_bound. lia. Qed.

Lemma transactionIDOf_mbap tid pdu slaveID rest :
  0 <= tid < 65536 ->
  transactionIDOf (mbapHeader tid pdu slaveID ++ rest) = Some tid.
Proof.
  intros Ht. unfold mbapHeader. rewrite (PutUint16_bytes tid Ht).
  cbn [app transactionIDOf]. f_equal.
  Z.to_euclidean_division_equations; lia.
Qed.

(** C8: on a TCP client, the transaction ids in the MBAP headers recorded
    by two consecutive requests differ by exactly 1 modulo 65536, and the
    response packet recorded for a request carries the request's id. *)
Theorem tcp_transaction_id_increments
        (c : Client) (req1 req2 : list Z) (resp1 resp2 : option (list Z))
        (unit1 unit2 : Z) :
  connectionType c = TCP ->
  let c1 := recordADU c req1 resp1 unit1 in
  let c2 := recordADU c1 req2 resp2 unit2 in
  exists sent1 sent2 t1 t2,
    lastSentPacket c1 = Some sent1 /\ transactionIDOf sent1 = Some t1 /\
    lastSentPacket c2 = Some sent2 /\ transactionIDOf sent2 = Some t2 /\
    t2 = (t1 + 1) mod 65536 /\
    (forall payload, resp1 = Some payload ->
       exists received, lastReceivedPacket c1 = Some received /\
                        transactionIDOf received = Some t1) /\
    (forall payload, resp2 = Some payload ->
       exists received, lastReceivedPacket c2 = Some received /\
                        transactionIDOf received = Some t2).
Proof.
  intros Htcp c1 c2. subst c1 c2. unfold recordADU.
  rewrite Htcp. cbn [connectionType lastSentPacket lastReceivedPacket transactionID].
  set (t1 := uint16 (transactionID c + 1)).
  set (t2 := uint16 (t1 + 1)).
  pose proof (uint16_bounds (transactionID c + 1)) as H1. fold t1 in H1.
  pose proof (uint16_bounds (t1 + 1)) as H2. fold t2 in H2.
  do 2 eexists. exists t1, t2.
  repeat split.
  - apply transactionIDOf_mbap. exact H1.
  - apply transactionIDOf_mbap. exact H2.
  - intros payload ->. eexists. split; [reflexivity |].
    apply transactionIDOf_mbap. exact H1.
  - intros payload ->. eexists. split; [reflexivity |].
    apply transactionIDOf_mbap. exact H2.
Qed.

Lemma tcp_transaction_id_increments_witness :
  let c := snd (ConnectTCP NewClient "10.0.0.7" 502 None) in
  let c1 := recordADU c [3; 0; 0; 0; 1] (Some [0; 5]) 1 in
  let c2 := recordADU c1 [3; 0; 0; 0; 1] None 1 in
  exists sent1 sent2 t1 t2,
    lastSentPacket c1 = Some sent1 /\ transactionIDOf sent1 = Some t1 /\
    lastSentPacket c2 = Some sent2 /\ transactionIDOf sent2 = Some t2 /\
    t2 = (t1 + 1) mod 65536 /\
    (forall payload, Some [0; 5] = Some payload ->
       exists received, lastReceivedPacket c1 = Some received /\
                        transactionIDOf received = Some t1) /\
    (forall payload, @None (list Z) = Some payload ->
       exists received, lastReceivedPacket c2 = Some received /\
                        transactionIDOf received = Some t2).
Proof.
  cbv zeta.
  apply (tcp_transaction_id_increments
           (snd (ConnectTCP NewClient "10.0.0.7" 502 None))).
  reflexivity.
Defined.

End Recording.

(** ** Which calls record an exchange *)

Section Audit.

Import datatypes modbus.

Lemma PutUint16_be16 v : PutUint16 v = be16 v.
Proof.
  unfold PutUint16, be16, byte. rewrite Z.shiftr_div_pow2 by lia.
  reflexivity.
Qed.

Lemma be16_uint16 v : be16 (uint16 v) = be16 v.
Proof.
  unfold be16, uint16. change (2 ^ 16) with 65536.
  replace ((v mod 65536 / 256) mod 256) with ((v / 256) mod 256)
    by (Z.to_euclidean_division_equations; lia).
  replace ((v mod 65536) mod 256) with (v mod 256)
    by (Z.to_euclidean_division_equations; lia).
  reflexivity.
Qed.

Lemma mbapHeader_tcpADU tid pdu unitID :
  mbapHeader tid pdu unitID ++ pdu = tcpADU tid unitID pdu.
Proof.
  unfold mbapHeader, tcpADU. rewrite !PutUint16_be16, be16_uint16.
  rewrite <- !app_assoc. reflexivity.
Qed.

(** What [recordADU] leaves in the client, frame by frame. *)
Lemma recordADU_frames c request response unitID :
  let c' := recordADU c request response unitID in
  let tid := uint16 (transactionID c + 1) in
  match connectionType c with
  | TCP =>
      lastSentPacket c' = Some (tcpADU tid unitID request) /\
      lastReceivedPacket c'
      = option_map (fun p => tcpADU tid unitID (fullResponsePDU request p))
                   response
  | RTU =>
      (exists sent, lastSentPacket c' = Some sent /\
                    rtuADU unitID request sent) /\
      match response with
      | Some p =>
          exists received,
            lastReceivedPacket c' = Some received /\
            rtuADU unitID (fullResponsePDU request p) received
      | None => lastReceivedPacket c' = None
      end
  end.
Proof.
  cbv zeta. unfold recordADU. destruct (connectionType c).
  - cbn [lastSentPacket lastReceivedPacket]. split.
    + rewrite mbapHeader_tcpADU. reflexivity.
    + destruct response; cbn [option_map];
        [rewrite mbapHeader_tcpADU |]; reflexivity.
  - cbn [lastSentPacket lastReceivedPacket]. split.
    + eexists. split; [reflexivity |]. unfold rtuADU, rtuFrame.
      do 2 eexists. reflexivity.
    + destruct response; [| reflexivity].
      eexists. split; [reflexivity |]. unfold rtuADU, rtuFrame.
      do 2 eexists. reflexivity.
Qed.

Lemma requestOf_function_code cv call pdu :
  requestOf cv call = Some pdu ->
  exists fc rest, pdu = fc :: rest /\ In fc [1; 2; 3; 4; 5; 6; 15; 16].
Proof.
  destruct call; cbn [requestOf].
  1-4: intros [= <-]; unfold readRequestPDU; do 2 eexists;
       (split; [reflexivity | cbn; tauto]).
  - destruct (ConvertToRegisters cv values); [| discriminate].
    intros [= <-]. unfold writeRegistersPDU, writeMultiplePDU.
    destruct (_ =? 1); do 2 eexists; (split; [reflexivity | cbn; tauto]).
  - intros [= <-]. unfold writeCoilsPDU, writeMultiplePDU.
    destruct (_ =? 1); do 2 eexists; (split; [reflexivity | cbn; tauto]).
Qed.

Lemma fullResponsePDU_responseOf cv call pdu payload :
  requestOf cv call = Some pdu ->
  fullResponsePDU pdu payload = responseOf pdu payload.
Proof.
  intros H. destruct (requestOf_function_code _ _ _ H) as (fc & rest & -> & Hfc).
  cbn in Hfc.
  repeat (destruct Hfc as [<- | Hfc]; [reflexivity |]). contradiction.
Qed.

(** C6, as stated, fails.  A read on a client that never connected is
    rejected and records nothing.  And on a connected TCP client, after a
    read of eight coils from unit 1, a [WriteHoldingRegisters] to unit 2
    of a boolean list fails in the conversion and the pair still shows
    the earlier read. *)
Lemma exchange_not_recorded_counterexample :
  (ReadHoldingRegisters NewClient 1 0 1 UINT16 (inr "i/o timeout"%string)
   = Done (Err "device not connected") NewClient /\
   GetLastPackets NewClient = (None, None)) /\
  (let c := snd (ConnectTCP NewClient "10.0.0.7" 502 None) in
   let c1 := recordADU c (readRequestPDU 0x01 0 8) (Some [0x05]) 1 in
   ReadCoils c 1 0 8 (inl [0x05])
   = Done (Ok [true; false; true; false; false; false; false; false]) c1 /\
   WriteHoldingRegisters c1 2 0 (V_bool [true]) (inl [0; 1])
   = Done (Some ("unsupported data type or conversion failed: "
                 ++ "unsupported type for conversion to registers: []bool")%string)
          c1 /\
   GetLastPackets c1
   = (Some [0; 1; 0; 0; 0; 6; 1; 0x01; 0; 0; 0; 8],
      Some [0; 1; 0; 0; 0; 4; 1; 0x01; 1; 0x05])).
Proof. cbv zeta. repeat split. Qed.

(** C6, amended: a read/write call on a connected client that builds a
    request (every call but a [WriteHoldingRegisters] whose values do not
    convert to registers) records as last sent packet the request ADU
    (MBAP header with the next transaction id, unit id and PDU for TCP;
    unit id, PDU and two check bytes for RTU), and as last received packet
    the response ADU rebuilt the same way when the transport returns a
    payload, nil when it returns an error; [GetLastPackets] returns that
    pair.  A call on a client that is not connected, or whose values do
    not convert, leaves the client, and so the pair, as it was. *)
Theorem exchange_recorded_when_request_made
        (c : Client) (call : Call) (reply : Reply) :
  (isConnected c = true -> client c <> None ->
   forall pdu, requestOf (converter c) call = Some pdu ->
   exists c',
     perform c call reply = Some c' /\
     GetLastPackets c' = (lastSentPacket c', lastReceivedPacket c') /\
     let tid := (transactionID c + 1) mod 65536 in
     let u := unitOf call in
     match connectionType c with
     | TCP =>
         lastSentPacket c' = Some (tcpADU tid u pdu) /\
         lastReceivedPacket c'
         = match reply with
           | inl payload => Some (tcpADU tid u (responseOf pdu payload))
           | inr _ => None
           end
     | RTU =>
         (exists sent, lastSentPacket c' = Some sent /\ rtuADU u pdu sent) /\
         match reply with
         | inl payload =>
             exists received,
               lastReceivedPacket c' = Some received /\
               rtuADU u (responseOf pdu payload) received
         | inr _ => lastReceivedPacket c' = None
         end
     end) /\
  (isConnected c = false \/ requestOf (converter c) call = None ->
   perform c call reply = Some c).
Proof.
  split.
  - intros Hconn Hcl pdu Hreq.
    destruct (client c) as [h |] eqn:Ecl; [clear Hcl | contradiction].
    set (response := match reply with inl p => Some p | inr _ => None end).
    exists (recordADU c pdu response (unitOf call)).
    assert (Hperform : perform c call reply
                       = Some (recordADU c pdu response (unitOf call))).
    { subst response.
      destruct call; cbn [perform requestOf unitOf] in *;
        unfold ReadHoldingRegisters, ReadInputRegisters, ReadCoils,
          ReadDiscreteInputs, WriteHoldingRegisters, WriteCoils;
        rewrite Hconn, ?Ecl; cbn [negb].
      1-4: injection Hreq as <-; destruct reply; reflexivity.
      - destruct (ConvertToRegisters (converter c) values); [| discriminate].
        injection Hreq as <-. destruct reply; reflexivity.
      - injection Hreq as <-. destruct reply; reflexivity. }
    split; [exact Hperform |]. split; [reflexivity |].
    pose proof (recordADU_frames c pdu response (unitOf call)) as Hf.
    cbv zeta in *. change ((transactionID c + 1) mod 65536)
      with (uint16 (transactionID c + 1)).
    destruct (connectionType c).
    + destruct Hf as [Hs Hr]. split; [exact Hs |].
      rewrite Hr. subst response. destruct reply; cbn [option_map];
        [rewrite (fullResponsePDU_responseOf _ _ _ _ Hreq) |]; reflexivity.
    + destruct Hf as [Hs Hr]. split; [exact Hs |].
      subst response. destruct reply; [| exact Hr].
      rewrite (fullResponsePDU_responseOf _ _ _ _ Hreq) in Hr. exact Hr.
  - intros [Hdisc | Hnone].
    + destruct call; cbn [perform];
        unfold ReadHoldingRegisters, ReadInputRegisters, ReadCoils,
          ReadDiscreteInputs, WriteHoldingRegisters, WriteCoils;
        rewrite Hdisc; reflexivity.
    + destruct call; cbn [requestOf] in Hnone; try discriminate.
      cbn [perform]. unfold WriteHoldingRegisters.
      destruct (isConnected c); [| reflexivity]. cbn [negb].
      destruct (ConvertToRegisters (converter c) values);
        [discriminate | reflexivity].
Qed.

Lemma exchange_recorded_when_request_made_witness :
  let c := snd (ConnectTCP NewClient "10.0.0.7" 502 None) in
  (exists c',
      perform c (CallWriteCoils 9 0x0010 [true]) (inr "i/o timeout"%string)
      = Some c' /\
      lastSentPacket c'
      = Some [0; 1; 0; 0; 0; 6; 9; 0x05; 0x00; 0x10; 0xFF; 0x00] /\
      lastReceivedPacket c' = None) /\
  perform NewClient (CallReadCoils 1 0 8) (inl [0x05]) = Some NewClient.
Proof.
  cbv zeta. split.
  - destruct (exchange_recorded_when_request_made
                (snd (ConnectTCP NewClient "10.0.0.7" 502 None))
                (CallWriteCoils 9 0x0010 [true]) (inr "i/o timeout"%string))
      as [Hrec _].
    destruct (Hrec eq_refl ltac:(discriminate) _ eq_refl)
      as (c' & Hp & _ & Hs & Hr).
    exists c'. split; [exact Hp |]. split; [exact Hs | exact Hr].
  - apply (exchange_recorded_when_request_made NewClient).
    left. reflexivity.
Defined.

End Audit.

(** ** Reading bits *)

Section Bits.

Import datatypes modbus.

Lemma land_bit x j :
  0 <= j < 8 -> negb (Z.land x (byte (Z.shiftl 1 j)) =? 0) = Z.testbit x j.
Proof.
  intros Hj. unfold byte. rewrite Z.shiftl_1_l.
  rewrite Z.mod_small
    by (split; [apply Z.pow_nonneg; lia | apply Z.pow_lt_mono_r; lia]).
  destruct (Z.testbit x j) eqn:Eb.
  - apply negb_true_iff, Z.eqb_neq. intros H0.
    apply (f_equal (fun v => Z.testbit v j)) in H0.
    rewrite Z.land_spec, Eb, Z.pow2_bits_true, Z.bits_0 in H0 by lia.
    discriminate.
  - apply negb_false_iff, Z.eqb_eq. apply Z.bits_inj'. intros k Hk.
    rewrite Z.land_spec, Z.bits_0, Z.pow2_bits_eqb by lia.
    destruct (Z.eqb_spec j k) as [<- | Hne];
      [rewrite Eb; reflexivity | apply andb_false_r].
Qed.

Lemma unpackBits_closed_form (n : nat) (results : list Z) :
  unpackBits (Z.of_nat n) results
  = map (bitAt results) (seq 0 (Nat.min n (8 * List.length results))).
Proof.
  unfold unpackBits. rewrite Nat2Z.id.
  induction n as [| n IH]; [reflexivity |].
  rewrite seq_S, flat_map_app, IH. cbn [flat_map Nat.add]. rewrite app_nil_r.
  destruct (Nat.ltb_spec (n / 8)%nat (List.length results)) as [Hlt | Hge].
  - assert (Hn : (n < 8 * List.length results)%nat).
    { pose proof (Nat.div_mod_eq n 8). pose proof (Nat.mod_upper_bound n 8).
      lia. }
    rewrite !Nat.min_l by lia. rewrite seq_S, map_app. cbn [map Nat.add].
    do 2 f_equal. unfold bitAt. apply land_bit.
    pose proof (Nat.mod_upper_bound n 8). lia.
  - assert (Hn : (8 * List.length results <= n)%nat).
    { pose proof (Nat.Div0.mul_div_le n 8). lia. }
    rewrite !Nat.min_r by lia. apply app_nil_r.
Qed.

(** C9: a successful [ReadCoils] or [ReadDiscreteInputs] with count [n]
    returns min(n, 8 * number of payload bytes) booleans, element [8k+j]
    being bit [j] of payload byte [k]; a payload with fewer than
    ceil(n/8) bytes gives a shorter list and no error. *)
Theorem coil_bits_unpacked
        (c : Client) (slaveID address count : Z) (results : list Z) :
  isConnected c = true -> client c <> None -> 0 <= count ->
  exists bools c',
    ReadCoils c slaveID address count (inl results) = Done (Ok bools) c' /\
    ReadDiscreteInputs c slaveID address count (inl results)
    = Done (Ok bools)
           (recordADU c (readRequestPDU 0x02 address count) (Some results)
                      slaveID) /\
    Z.of_nat (List.length bools)
    = Z.min count (8 * Z.of_nat (List.length results)) /\
    forall k j, (j < 8)%nat -> (8 * k + j < List.length bools)%nat ->
      nth_error bools (8 * k + j)
      = Some (Z.testbit (nth k results 0) (Z.of_nat j)).
Proof.
  intros Hconn Hcl Hcount.
  destruct (client c) as [h |] eqn:Ecl; [clear Hcl | contradiction].
  exists (unpackBits count results). eexists.
  unfold ReadCoils, ReadDiscreteInputs. rewrite Hconn, Ecl. cbn [negb].
  split; [reflexivity |]. split; [reflexivity |].
  rewrite <- (Z2Nat.id count Hcount), unpackBits_closed_form.
  rewrite length_map, length_seq. split; [lia |].
  intros k j Hj Hkj.
  rewrite nth_error_map, nth_error_seq.
  destruct (Nat.ltb_spec (8 * k + j)%nat
              (Nat.min (Z.to_nat count) (8 * List.length results)));
    [| lia].
  cbn [option_map Nat.add]. unfold bitAt.
  replace ((8 * k + j) / 8)%nat with k
    by (rewrite Nat.mul_comm, Nat.div_add_l, Nat.div_small by lia; lia).
  replace ((8 * k + j) mod 8)%nat with j
    by (rewrite Nat.add_comm, Nat.mul_comm, Nat.Div0.mod_add,
          Nat.mod_small by lia; lia).
  reflexivity.
Qed.

Lemma coil_bits_unpacked_witness :
  let c := snd (ConnectRTU NewClient "/dev/ttyUSB0" 19200 8 1 "Even" None) in
  exists bools c',
    ReadCoils c 17 0x0013 20 (inl [0xCD; 0x6B]) = Done (Ok bools) c' /\
    ReadDiscreteInputs c 17 0x0013 20 (inl [0xCD; 0x6B])
    = Done (Ok bools)
           (recordADU c (readRequestPDU 0x02 0x0013 20) (Some [0xCD; 0x6B])
                      17) /\
    Z.of_nat (List.length bools) = Z.min 20 (8 * Z.of_nat 2) /\
    forall k j, (j < 8)%nat -> (8 * k + j < List.length bools)%nat ->
      nth_error bools (8 * k + j)
      = Some (Z.testbit (nth k [0xCD; 0x6B] 0) (Z.of_nat j)).
Proof.
  cbv zeta.
  apply (coil_bits_unpacked
           (snd (ConnectRTU NewClient "/dev/ttyUSB0" 19200 8 1 "Even" None))
           17 0x0013 20 [0xCD; 0x6B]).
  - reflexivity.
  - discriminate.
  - lia.
Defined.

End Bits.

(** ** Disconnecting *)

Section Disconnecting.

Import datatypes modbus.

(** [Disconnect] clears the handler and the transport client and nothing
    else; a second call finds no handler and returns at once. *)
Lemma Disconnect_twice c closeErr closeErr' :
  Disconnect (snd (Disconnect c closeErr)) closeErr'
  = (None, snd (Disconnect c closeErr)).
Proof.
  unfold Disconnect. destruct (handler c) eqn:E; cbn; [| rewrite E]; reflexivity.
Qed.

Lemma Disconnect_keeps_isConnected c closeErr :
  isConnected (snd (Disconnect c closeErr)) = isConnected c.
Proof. unfold Disconnect. destruct (handler c); reflexivity. Qed.

(** C2 on the code: after a successful [ConnectTCP] (or [ConnectRTU]) and
    a [Disconnect], [IsConnected] still answers true - no statement of the
    package ever resets the flag - so the "device not connected" guard of
    the six operations lets the call through, and the call on the nil
    transport client panics instead of returning that error.  Calling
    [Disconnect] again changes nothing and returns nil. *)
Theorem operations_after_Disconnect_panic
        (viaRTU : bool) (closeErr closeErr' : option string)
        (slaveID address count : Z) (dataType : DataType)
        (registers : list Z) (coils : list bool) (reply : Reply) :
  let c := if viaRTU
           then snd (ConnectRTU NewClient "/dev/ttyUSB0" 9600 8 1 "None" None)
           else snd (ConnectTCP NewClient "10.0.0.7" 502 None) in
  let d := snd (Disconnect c closeErr) in
  IsConnected d = true /\
  IsClientReady d = false /\
  Disconnect d closeErr' = (None, d) /\
  ReadHoldingRegisters d slaveID address count dataType reply
  = Panic nilDereference d /\
  ReadInputRegisters d slaveID address count dataType reply
  = Panic nilDereference d /\
  ReadCoils d slaveID address count reply = Panic nilDereference d /\
  ReadDiscreteInputs d slaveID address count reply
  = Panic nilDereference d /\
  WriteHoldingRegisters d slaveID address (V_uint16 registers) reply
  = Panic nilDereference d /\
  WriteCoils d slaveID address coils reply = Panic nilDereference d.
Proof. destruct viaRTU; cbv zeta; repeat split. Qed.

End Disconnecting.

(** ** Polling *)

Section Polling.

Import gui.

(** [stopPolling] does nothing at all while [pollingStop] holds a
    channel. *)
Lemma stopPolling_with_channel a :
  pollingStop a <> None -> stopPolling a = a.
Proof.
  unfold stopPolling. destruct (pollingStop a); [reflexivity | contradiction].
Qed.

Lemma receiveStop_unsignalled a i : signalled a = [] -> receiveStop a i = None.
Proof.
  intros H. unfold receiveStop, stopReady. rewrite H.
  destruct (pollingStop a); reflexivity.
Qed.

(** No statement sends on a channel or closes one, and [pollingStop] is
    never nil. *)
Lemma reachable_invariant a :
  reachable a -> pollingStop a <> None /\ signalled a = [].
Proof.
  induction 1 as [| a message _ [Hp Hs] | a b _ [Hp Hs] | a _ [Hp Hs]
                  | a text _ [Hp Hs] | a slaveID _ [Hp Hs] | a _ [Hp Hs]
                  | a i _ [Hp Hs] | a i a' _ [Hp Hs] Hexit].
  - split; [discriminate | reflexivity].
  - split; assumption.
  - split; assumption.
  - split; assumption.
  - split; assumption.
  - unfold startPolling.
    destruct (isConnected a); cbn [negb]; [| split; assumption].
    destruct (Atoi (pollingIntervalInput a)); [| split; assumption].
    destruct (_ <=? 0); [split; assumption |].
    destruct (pollingStop a) eqn:Ech; [| contradiction].
    rewrite (stopPolling_with_channel a) by (rewrite Ech; discriminate).
    split; [discriminate | exact Hs].
  - rewrite stopPolling_with_channel by exact Hp. split; assumption.
  - unfold tick. destruct (nth_error (goroutines a) i); split; assumption.
  - rewrite (receiveStop_unsignalled a i Hs) in Hexit. discriminate.
Qed.

(** C1 on the code: in every state the application can reach,
    [stopPolling] returns the application unchanged - it sends nothing on
    [pollingStop] and, the channel never being nil, does not touch the
    buttons either - so no polling goroutine can take the stop case of its
    [select], and after [stopPolling], called once or twice, the next tick
    of every goroutine started earlier still calls [readRegister]. *)
Theorem stopPolling_leaves_loop_running (a : AppRefined) :
  reachable a ->
  stopPolling a = a /\
  (forall i, receiveStop (stopPolling a) i = None) /\
  (forall i p,
      nth_error (goroutines a) i = Some p ->
      let a' := tick (stopPolling (stopPolling a)) i in
      polls a' = S (polls a) /\ goroutines a' = goroutines a).
Proof.
  intros Hr. destruct (reachable_invariant a Hr) as [Hp Hs].
  rewrite !(stopPolling_with_channel a Hp).
  split; [reflexivity |]. split.
  - intros i. apply receiveStop_unsignalled. exact Hs.
  - intros i p Hi. cbv zeta. unfold tick. rewrite Hi. split; reflexivity.
Qed.

Lemma stopPolling_leaves_loop_running_witness :
  let a0 := setInterval (connected NewAppRefined) "100" in
  let a1 := startPolling a0 1 in
  goroutines a1 = [mkPoller 1 100] /\
  stopPollingButton a1 = true /\
  stopPolling a1 = a1 /\
  receiveStop (stopPolling a1) 0 = None /\
  polls (tick (stopPolling (stopPolling a1)) 0) = 1%nat /\
  goroutines (tick (stopPolling (stopPolling a1)) 0) = [mkPoller 1 100].
Proof.
  cbv zeta.
  destruct (stopPolling_leaves_loop_running
              (startPolling (setInterval (connected NewAppRefined) "100") 1))
    as (Hstop & Hexit & Htick).
  - apply reach_start, reach_interval, reach_ui, reach_flag, reach_log,
      reach_new.
  - destruct (Htick 0%nat (mkPoller 1 100) eq_refl) as [Hpolls Hloops].
    split; [reflexivity |]. split; [reflexivity |].
    split; [exact Hstop |]. split; [exact (Hexit 0%nat) |].
    split; [exact Hpolls | exact Hloops].
Defined.

End Polling.

(** ** Parsing text *)

Section ParsingText.

Import datatypes.

Lemma Split_nonempty s sep : Split s sep <> [].
Proof.
  destruct s as [| a s]; cbn [Split]; [discriminate |].
  destruct (Ascii.eqb a sep); [discriminate |].
  destruct (Split s sep); discriminate.
Qed.

Lemma occurs_app a s t : occurs a (s ++ t) = occurs a s || occurs a t.
Proof.
  induction s as [| b s IH]; [reflexivity |].
  cbn. rewrite IH. apply orb_assoc.
Qed.

Lemma Split_without_separator s sep : occurs sep s = false -> Split s sep = [s].
Proof.
  induction s as [| a s IH]; [reflexivity |].
  cbn [occurs Split]. intros H. apply orb_false_iff in H. destruct H as [Ha Hs].
  rewrite Ha, (IH Hs). reflexivity.
Qed.

Lemma whiteSpace_facts w :
  In w whiteSpace ->
  (forall rest, dropOne whiteSpace (w ++ rest) = Some rest) /\
  occurs "," w = false /\ (1 <= String.length w)%nat.
Proof.
  intros H. cbv in H.
  repeat (destruct H as [<- | H]; [repeat split; cbn; lia |]).
  contradiction.
Qed.

Lemma string_length_app (s t : string) :
  String.length (s ++ t) = (String.length s + String.length t)%nat.
Proof. induction s as [| a s IH]; [reflexivity |]. cbn. rewrite IH. reflexivity. Qed.

Lemma joined_length ws :
  Forall (fun w => In w whiteSpace) ws ->
  (List.length ws <= String.length (joined ws))%nat.
Proof.
  induction 1 as [| w ws Hw _ IH]; [cbn; lia |].
  cbn [joined fold_right List.length]. fold (joined ws).
  rewrite string_length_app.
  destruct (whiteSpace_facts w Hw) as (_ & _ & Hl). lia.
Qed.

Lemma joined_without_comma ws :
  Forall (fun w => In w whiteSpace) ws -> occurs "," (joined ws) = false.
Proof.
  induction 1 as [| w ws Hw _ IH]; [reflexivity |].
  cbn [joined fold_right]. fold (joined ws). rewrite occurs_app, IH.
  destruct (whiteSpace_facts w Hw) as (_ & -> & _). reflexivity.
Qed.

Lemma trimLeft_joined ws :
  Forall (fun w => In w whiteSpace) ws ->
  forall fuel, (List.length ws <= fuel)%nat ->
  trimLeftFuel fuel whiteSpace (joined ws) = EmptyString.
Proof.
  induction 1 as [| w ws Hw _ IH]; intros fuel Hfuel.
  - destruct fuel; reflexivity.
  - destruct fuel as [| fuel]; [cbn in Hfuel; lia |].
    cbn [joined fold_right trimLeftFuel]. fold (joined ws).
    destruct (whiteSpace_facts w Hw) as (-> & _ & _).
    apply IH. cbn in Hfuel. lia.
Qed.

Lemma TrimSpace_allSpace s : allSpace s -> TrimSpace s = EmptyString.
Proof.
  intros (ws & Hws & ->). unfold TrimSpace, trimLeftSet.
  rewrite trimLeft_joined by (try exact Hws; apply joined_length; exact Hws).
  reflexivity.
Qed.

Lemma parseParts_error {A} (parse : string -> option A) prefix parts e :
  parseParts parse prefix parts = Err e -> exists p, e = (prefix ++ p)%string.
Proof.
  revert e. induction parts as [| p ps IH]; intros e; cbn [parseParts].
  - discriminate.
  - destruct (parse (TrimSpace p)).
    + destruct (parseParts parse prefix ps); [discriminate |].
      intros [= <-]. apply IH. reflexivity.
    + intros [= <-]. exists p. reflexivity.
Qed.

Lemma mapResult_error {A B} (f : A -> B) r e :
  mapResult f r = Err e -> r = Err e.
Proof. destruct r; cbn; [discriminate | intros [= ->]; reflexivity]. Qed.

Variable ParseFloat : string -> Z -> option float64.
Variable float32_of_float64 : float64 -> float32.

(** C10: splitting any text on commas yields at least one part, so
    [ParseStringToType] never returns its "value string is empty" error;
    and for a numeric or boolean target an input that is empty or all
    white space is a single part that trims to the empty token, which does
    not parse, so the result is the per-token error naming that part.
    ([strconv.ParseFloat], like the integer and boolean parsers, rejects
    the empty string.) *)
Theorem ParseStringToType_never_reports_empty :
  (forall bitSize, ParseFloat EmptyString bitSize = None) ->
  (forall s, Split s "," <> []) /\
  (forall s T,
      ParseStringToType ParseFloat float32_of_float64 s T
      <> Err "value string is empty") /\
  (forall s T,
      allSpace s -> numericOrBool T ->
      ParseStringToType ParseFloat float32_of_float64 s T
      = Err ("invalid " ++ DataType_String T ++ " value: " ++ s)).
Proof.
  intros Hfloat. split; [| split].
  - intros s. apply Split_nonempty.
  - intros s T H. unfold ParseStringToType in H.
    destruct (Split s ",") as [| p ps] eqn:Es;
      [exact (Split_nonempty _ _ Es) |].
    destruct T;
      try (apply mapResult_error, parseParts_error in H;
           destruct H as [q Hq]; discriminate Hq);
      discriminate H.
  - intros s T Hs HT. unfold ParseStringToType.
    assert (Hsplit : Split s "," = [s]).
    { apply Split_without_separator. destruct Hs as (ws & Hws & ->).
      apply joined_without_comma. exact Hws. }
    rewrite Hsplit. cbn [parseParts]. rewrite (TrimSpace_allSpace s Hs).
    destruct T; cbn [numericOrBool] in HT; try contradiction;
      try rewrite Hfloat; reflexivity.
Qed.

End ParsingText.

Lemma ParseStringToType_never_reports_empty_witness :
  let ParseFloat := fun (s : string) (bitSize : Z) =>
                      if String.eqb s "0" then Some (datatypes.Float64frombits 0)
                      else None in
  let float32_of_float64 := fun _ : datatypes.float64 =>
                              datatypes.Float32frombits 0 in
  datatypes.ParseStringToType ParseFloat float32_of_float64 "" datatypes.UINT16
  = Err "invalid UINT16 value: " /\
  datatypes.ParseStringToType ParseFloat float32_of_float64
    (String " " (String "009" " ")) datatypes.FLOAT32
  = Err ("invalid FLOAT32 value: " ++ String " " (String "009" " ")).
Proof.
  cbv zeta.
  pose proof (ParseStringToType_never_reports_empty
                (fun (s : string) (bitSize : Z) =>
                   if String.eqb s "0" then Some (datatypes.Float64frombits 0)
                   else None)
                (fun _ => datatypes.Float32frombits 0)
                (fun _ => eq_refl)) as (_ & _ & H).
  split.
  - apply (H ""%string datatypes.UINT16); [| exact I].
    exists []. split; [constructor | reflexivity].
  - apply (H (String " " (String "009" " ")) datatypes.FLOAT32); [| exact I].
    exists [" "; String "009" ""; " "]%string.
    split; [| reflexivity].
    repeat (apply Forall_cons; [vm_compute; tauto |]). apply Forall_nil.
Defined.

(** * Further properties of the converter *)

Section DecodedCounts.

Import datatypes.

Lemma flat_map_length_const {A B} (g : A -> list B) (m : nat) (l : list A) :
  (forall x, List.length (g x) = m) ->
  List.length (flat_map g l) = (m * List.length l)%nat.
Proof.
  intros Hg. induction l as [| x l IH]; [cbn; lia |].
  cbn [flat_map List.length]. rewrite length_app, Hg, IH. lia.
Qed.

(** Element [m*k + i] of a flat map of chunks of length [m] is element [i]
    of chunk [k]. *)
Lemma flat_map_nth_const {A B} (g : A -> list B) (m : nat) (d : A) :
  (forall x, List.length (g x) = m) ->
  forall l k i, (k < List.length l)%nat -> (i < m)%nat ->
  nth_error (flat_map g l) (m * k + i) = nth_error (g (nth k l d)) i.
Proof.
  intros Hg. induction l as [| x l IH]; intros k i Hk Hi; [cbn in Hk; lia |].
  cbn [flat_map]. destruct k as [| k].
  - rewrite Nat.mul_0_r, Nat.add_0_l.
    rewrite nth_error_app1 by (rewrite Hg; exact Hi). reflexivity.
  - rewrite nth_error_app2 by (rewrite Hg; lia). rewrite Hg.
    replace (m * S k + i - m)%nat with (m * k + i)%nat by lia.
    cbn [nth]. apply IH; [cbn in Hk; lia | exact Hi].
Qed.

Lemma quads64_length {A} c (f : Z -> A) : forall r,
  List.length (quads64 c f r) = (List.length r / 4)%nat.
Proof.
  fix IH 1. intros [| r0 [| r1 [| r2 [| r3 rest]]]]; try reflexivity.
  change (List.length (quads64 c f (r0 :: r1 :: r2 :: r3 :: rest)))
    with (S (List.length (quads64 c f rest))).
  rewrite IH.
  change (List.length (r0 :: r1 :: r2 :: r3 :: rest))
    with (4 + List.length rest)%nat.
  replace (4 + List.length rest)%nat with (List.length rest + 1 * 4)%nat
    by lia.
  rewrite Nat.div_add by lia. lia.
Qed.

(** X1. [ConvertFromRegisters] fails on the empty register array and on
    nothing else; on [n >= 1] registers it yields [2n] bytes for BYTE,
    [16n] booleans for BOOL, [n] values for INT16/UINT16, [n / 2] values
    for the 32-bit types and [n / 4] for the 64-bit types, so registers
    past the last whole group are dropped without an error. *)
Theorem ConvertFromRegisters_count
        (c : Converter) (r : list Z) (T : DataType) :
  ConvertFromRegisters c [] T = Err "寄存器数据为空" /\
  (r <> [] ->
   exists v, ConvertFromRegisters c r T = Ok v /\
             (T <> ASCII -> T <> UNIX_TIMESTAMP ->
              valueCount v = decodedCount T (List.length r))).
Proof.
  split; [reflexivity |]. intros Hne.
  destruct r as [| r0 r']; [contradiction |]. set (r := r0 :: r') in *.
  unfold ConvertFromRegisters. fold r.
  destruct T; eexists; (split; [reflexivity |]); intros HA HT;
    try contradiction; cbn [valueCount decodedCount RegistersPerValue].
  - unfold convertToBytes. apply flat_map_length_const.
    intros x. destruct (byteOrder c); reflexivity.
  - unfold convertToInt16Array. rewrite length_map, Nat.div_1_r. reflexivity.
  - unfold convertToUint16Array. rewrite Nat.div_1_r. reflexivity.
  - apply pairs32_length.
  - apply pairs32_length.
  - apply quads64_length.
  - apply quads64_length.
  - apply pairs32_length.
  - apply quads64_length.
  - unfold convertToBoolArray. apply flat_map_length_const.
    intros x. reflexivity.
Qed.

Lemma ConvertFromRegisters_count_witness :
  exists v,
    ConvertFromRegisters (NewConverter AB WORD_1234) [1; 2; 3; 4; 5] INT64
    = Ok v /\ valueCount v = 1%nat.
Proof.
  destruct (ConvertFromRegisters_count (NewConverter AB WORD_1234)
              [1; 2; 3; 4; 5] INT64) as [_ H].
  destruct (H ltac:(discriminate)) as (v & Hv & Hc).
  exists v. split; [exact Hv |].
  apply Hc; discriminate.
Defined.

End DecodedCounts.

Section Grouping64.

Import datatypes.

Lemma quads64_nth {A} c (f : Z -> A) : forall i r,
  (4 * i + 3 < List.length r)%nat ->
  nth_error (quads64 c f r) i
  = Some (f (word64 c (nth (4 * i) r 0) (nth (4 * i + 1) r 0)
                      (nth (4 * i + 2) r 0) (nth (4 * i + 3) r 0))).
Proof.
  induction i as [| i IH]; intros r Hi.
  - destruct r as [| r0 [| r1 [| r2 [| r3 rest]]]]; try (cbn in Hi; lia).
    reflexivity.
  - destruct r as [| r0 [| r1 [| r2 [| r3 rest]]]]; try (cbn in Hi; lia).
    change (nth_error (quads64 c f (r0 :: r1 :: r2 :: r3 :: rest)) (S i))
      with (nth_error (quads64 c f rest) i).
    rewrite IH by (cbn in Hi; lia).
    replace (4 * S i)%nat with (S (S (S (S (4 * i))))) by lia.
    replace (S (S (S (S (4 * i)))) + 1)%nat
      with (S (S (S (S (4 * i + 1))))) by lia.
    replace (S (S (S (S (4 * i)))) + 2)%nat
      with (S (S (S (S (4 * i + 2))))) by lia.
    replace (S (S (S (S (4 * i)))) + 3)%nat
      with (S (S (S (S (4 * i + 3))))) by lia.
    reflexivity.
Qed.

Lemma word64_assemble64 c r0 r1 r2 r3 :
  is_uint16 r0 -> is_uint16 r1 -> is_uint16 r2 -> is_uint16 r3 ->
  word64 c r0 r1 r2 r3 = assemble64 (wordOrder c) r0 r1 r2 r3.
Proof.
  rewrite !is_uint16_bounds. intros H0 H1 H2 H3.
  unfold word64, assemble64, uint64.
  destruct (wordOrder c);
    rewrite !Z.mod_small by (rewrite shiftl_mul by lia; cbn; lia);
    reflexivity.
Qed.

(** X2. Decoding as UINT64, INT64 or FLOAT64 takes the registers four at a
    time: value [i] is
    [reg[4i]<<48 | reg[4i+1]<<32 | reg[4i+2]<<16 | reg[4i+3]] under word
    order 1234 and the same with the four registers in reverse under
    4321, read as signed for INT64 and as an IEEE-754 pattern for
    FLOAT64. *)
Theorem uint64_from_register_quads (c : Converter) (r : list Z) (i : nat) :
  Forall is_uint16 r ->
  (4 * i + 3 < List.length r)%nat ->
  let w := assemble64 (wordOrder c)
             (nth (4 * i) r 0) (nth (4 * i + 1) r 0)
             (nth (4 * i + 2) r 0) (nth (4 * i + 3) r 0) in
  nth_error (convertToUint64Array c r) i = Some w /\
  nth_error (convertToInt64Array c r) i = Some (int64 w) /\
  nth_error (convertToFloat64Array c r) i = Some (Float64frombits w) /\
  0 <= w < 2 ^ 64.
Proof.
  intros Hr Hi w.
  assert (Hw : word64 c (nth (4 * i) r 0) (nth (4 * i + 1) r 0)
                      (nth (4 * i + 2) r 0) (nth (4 * i + 3) r 0) = w).
  { apply word64_assemble64; apply nth_in_range; try assumption; lia. }
  unfold convertToUint64Array, convertToInt64Array, convertToFloat64Array.
  rewrite !quads64_nth by exact Hi. rewrite Hw.
  repeat split; try (rewrite <- Hw; apply word64_range;
                     apply nth_in_range; try assumption; lia).
Qed.

Lemma uint64_from_register_quads_witness :
  nth_error (convertToInt64Array (NewConverter AB WORD_4321)
               [0xFFFE; 0xFFFF; 0xFFFF; 0xFFFF; 7]) 0
  = Some (-2).
Proof.
  destruct (uint64_from_register_quads (NewConverter AB WORD_4321)
              [0xFFFE; 0xFFFF; 0xFFFF; 0xFFFF; 7] 0) as (_ & H & _).
  - in_range.
  - simpl; lia.
  - exact H.
Defined.

(** Registers after the last whole group do not matter. *)
Lemma pairs32_app_short {A} c (f : Z -> A) : forall n r t,
  List.length r = (2 * n)%nat -> (List.length t < 2)%nat ->
  pairs32 c f (r ++ t) = pairs32 c f r.
Proof.
  induction n as [| n IH]; intros r t Hr Ht.
  - destruct r; [| discriminate]. destruct t as [| t0 [| t1 t]];
      try reflexivity. cbn in Ht. lia.
  - destruct r as [| r0 [| r1 rest]]; try (cbn in Hr; lia).
    change (pairs32 c f ((r0 :: r1 :: rest) ++ t))
      with (f (word32 c r0 r1) :: pairs32 c f (rest ++ t)).
    rewrite IH by (try exact Ht; cbn in Hr; lia). reflexivity.
Qed.

Lemma quads64_app_short {A} c (f : Z -> A) : forall n r t,
  List.length r = (4 * n)%nat -> (List.length t < 4)%nat ->
  quads64 c f (r ++ t) = quads64 c f r.
Proof.
  induction n as [| n IH]; intros r t Hr Ht.
  - destruct r; [| discriminate].
    destruct t as [| t0 [| t1 [| t2 [| t3 t]]]]; try reflexivity.
    cbn in Ht. lia.
  - destruct r as [| r0 [| r1 [| r2 [| r3 rest]]]]; try (cbn in Hr; lia).
    change (quads64 c f ((r0 :: r1 :: r2 :: r3 :: rest) ++ t))
      with (f (word64 c r0 r1 r2 r3) :: quads64 c f (rest ++ t)).
    rewrite IH by (try exact Ht; cbn in Hr; lia). reflexivity.
Qed.

Lemma aligned_prefix (k : nat) (r : list Z) :
  (0 < k)%nat ->
  let m := (k * (List.length r / k))%nat in
  List.length (firstn m r) = m /\ (List.length (skipn m r) < k)%nat /\
  r = firstn m r ++ skipn m r.
Proof.
  intros Hk m.
  assert (Hm : (m <= List.length r)%nat)
    by (subst m; apply Nat.Div0.mul_div_le).
  split; [apply firstn_length_le; exact Hm |].
  split; [| symmetry; apply firstn_skipn].
  rewrite length_skipn. subst m.
  pose proof (Nat.div_mod_eq (List.length r) k).
  pose proof (Nat.mod_upper_bound (List.length r) k). lia.
Qed.

(** X3. A register array that is not a whole number of groups decodes to
    the same values as its longest prefix that is: the one trailing
    register (32-bit types) or the up to three trailing registers (64-bit
    types) are ignored. *)
Theorem misaligned_registers_truncated (c : Converter) (r : list Z) :
  let r2 := firstn (2 * (List.length r / 2)) r in
  let r4 := firstn (4 * (List.length r / 4)) r in
  (convertToUint32Array c r = convertToUint32Array c r2 /\
   convertToInt32Array c r = convertToInt32Array c r2 /\
   convertToFloat32Array c r = convertToFloat32Array c r2) /\
  (convertToUint64Array c r = convertToUint64Array c r4 /\
   convertToInt64Array c r = convertToInt64Array c r4 /\
   convertToFloat64Array c r = convertToFloat64Array c r4).
Proof.
  cbv zeta.
  destruct (aligned_prefix 2 r ltac:(lia)) as (L2 & S2 & E2).
  destruct (aligned_prefix 4 r ltac:(lia)) as (L4 & S4 & E4).
  cbv zeta in *.
  unfold convertToUint32Array, convertToInt32Array, convertToFloat32Array,
    convertToUint64Array, convertToInt64Array, convertToFloat64Array.
  split; repeat split.
  1-3: rewrite E2 at 1; apply (pairs32_app_short c _ (List.length r / 2));
       assumption.
  all: rewrite E4 at 1; apply (quads64_app_short c _ (List.length r / 4));
       assumption.
Qed.

End Grouping64.

Section BitsAndBytes.

Import datatypes.

Lemma land_pow2_testbit x j :
  0 <= j -> negb (Z.land x (2 ^ j) =? 0) = Z.testbit x j.
Proof.
  intros Hj. destruct (Z.testbit x j) eqn:Eb.
  - apply negb_true_iff, Z.eqb_neq. intros H0.
    apply (f_equal (fun v => Z.testbit v j)) in H0.
    rewrite Z.land_spec, Eb, Z.pow2_bits_true, Z.bits_0 in H0 by lia.
    discriminate.
  - apply negb_false_iff, Z.eqb_eq. apply Z.bits_inj'. intros k Hk.
    rewrite Z.land_spec, Z.bits_0, Z.pow2_bits_eqb by lia.
    destruct (Z.eqb_spec j k) as [<- | Hne];
      [rewrite Eb; reflexivity | apply andb_false_r].
Qed.

(** X4. Decoding as BOOL gives sixteen booleans per register, least
    significant bit first: element [16k + i] is bit [i] of register [k],
    whatever the byte and word order. *)
Theorem bool_decode_bits (r : list Z) (k i : nat) :
  (k < List.length r)%nat -> (i < 16)%nat ->
  List.length (convertToBoolArray r) = (16 * List.length r)%nat /\
  nth_error (convertToBoolArray r) (16 * k + i)
  = Some (Z.testbit (nth k r 0) (Z.of_nat i)).
Proof.
  intros Hk Hi. unfold convertToBoolArray. split.
  - apply flat_map_length_const. intros x. reflexivity.
  - rewrite (flat_map_nth_const _ 16 0) by (try assumption; reflexivity).
    rewrite nth_error_map, nth_error_map, nth_error_seq.
    destruct (Nat.ltb_spec i 16); [| lia].
    cbn [option_map Nat.add]. f_equal.
    unfold uint16. rewrite Z.shiftl_1_l.
    rewrite Z.mod_small
      by (split; [apply Z.pow_nonneg; lia | apply Z.pow_lt_mono_r; lia]).
    apply land_pow2_testbit. lia.
Qed.

Lemma bool_decode_bits_witness :
  nth_error (convertToBoolArray [0; 0x0005])
            (16 * 1 + 2)
  = Some (Z.testbit 0x0005 2).
Proof.
  apply (bool_decode_bits [0; 0x0005] 1 2);
    simpl; lia.
Defined.

(** X5. Decoding as BYTE gives two bytes per register, the high byte first
    under byte order AB and the low byte first under BA; word order plays
    no part. *)
Theorem byte_decode_order (c : Converter) (r : list Z) (k : nat) :
  (k < List.length r)%nat ->
  let reg := nth k r 0 in
  let hi := (reg / 256) mod 256 in
  let lo := reg mod 256 in
  List.length (convertToBytes c r) = (2 * List.length r)%nat /\
  Forall is_byte (convertToBytes c r) /\
  nth_error (convertToBytes c r) (2 * k)
  = Some (match byteOrder c with AB => hi | BA => lo end) /\
  nth_error (convertToBytes c r) (2 * k + 1)
  = Some (match byteOrder c with AB => lo | BA => hi end) /\
  convertToBytes (NewConverter (byteOrder c) WORD_1234) r
  = convertToBytes (NewConverter (byteOrder c) WORD_4321) r.
Proof.
  intros Hk reg hi lo. rewrite convertToBytes_registerBytes.
  split; [apply registerBytes_length |].
  split; [apply flat_registerBytes_range |].
  assert (Hlen : forall x, List.length (registerBytes (byteOrder c) x) = 2%nat)
    by (intros x; destruct (byteOrder c); reflexivity).
  split; [| split].
  - replace (2 * k)%nat with (2 * k + 0)%nat by lia.
    rewrite (flat_map_nth_const _ 2 0 Hlen) by (try exact Hk; lia).
    fold reg. destruct (byteOrder c); reflexivity.
  - rewrite (flat_map_nth_const _ 2 0 Hlen) by (try exact Hk; lia).
    fold reg. destruct (byteOrder c); reflexivity.
  - reflexivity.
Qed.

Lemma byte_decode_order_witness :
  nth_error (convertToBytes (NewConverter BA WORD_1234) [0x1234; 0xABCD])
            (2 * 1)
  = Some 0xCD.
Proof.
  destruct (byte_decode_order (NewConverter BA WORD_1234) [0x1234; 0xABCD] 1)
    as (_ & _ & H & _).
  - simpl; lia.
  - exact H.
Defined.

End BitsAndBytes.

Section EncodeDecode.

Import datatypes.

Variable c : Converter.

Lemma signed_unsigned w x :
  0 < w -> - 2 ^ (w - 1) <= x < 2 ^ (w - 1) -> signed w (x mod 2 ^ w) = x.
Proof.
  intros Hw Hx. unfold signed.
  assert (Hp : 2 ^ w = 2 * 2 ^ (w - 1)).
  { replace w with (1 + (w - 1)) at 1 by lia.
    rewrite Z.pow_add_r by lia. reflexivity. }
  assert (Hpos : 0 < 2 ^ (w - 1)) by (apply Z.pow_pos_nonneg; lia).
  rewrite Z.mod_mod by lia.
  destruct (Z.lt_ge_cases x 0) as [Hneg | Hnn].
  - assert (E : x mod 2 ^ w = x + 2 ^ w)
      by (symmetry; apply (Z.mod_unique x (2 ^ w) (-1)); lia).
    rewrite E. destruct (Z.ltb_spec (x + 2 ^ w) (2 ^ (w - 1))); lia.
  - rewrite Z.mod_small by lia.
    destruct (Z.ltb_spec x (2 ^ (w - 1))); lia.
Qed.

Lemma uint32ToRegisters_length v : List.length (uint32ToRegisters c v) = 2%nat.
Proof. unfold uint32ToRegisters. destruct (wordOrder c); reflexivity. Qed.

Lemma uint64ToRegisters_length v : List.length (uint64ToRegisters c v) = 4%nat.
Proof. unfold uint64ToRegisters. destruct (wordOrder c); reflexivity. Qed.

Lemma uint32ToRegisters_range v : Forall is_uint16 (uint32ToRegisters c v).
Proof.
  unfold uint32ToRegisters.
  destruct (wordOrder c); repeat (apply Forall_cons; [apply uint16_range |]);
    apply Forall_nil.
Qed.

Lemma uint64ToRegisters_range v : Forall is_uint16 (uint64ToRegisters c v).
Proof.
  unfold uint64ToRegisters.
  destruct (wordOrder c); repeat (apply Forall_cons; [apply uint16_range |]);
    apply Forall_nil.
Qed.

(** The registers of a 32-bit word decode to that word. *)
Lemma pairs32_uint32ToRegisters {A} (f : Z -> A) v rest :
  0 <= v < 2 ^ 32 ->
  pairs32 c f (uint32ToRegisters c v ++ rest) = f v :: pairs32 c f rest.
Proof.
  intros Hv. pose proof (uint32ToRegisters_range v) as Hr.
  unfold uint32ToRegisters in *. rewrite land_65535 in *.
  rewrite Z.shiftr_div_pow2 in * by lia. unfold uint16 in *.
  change (2 ^ 16) with 65536 in *. change (2 ^ 32) with 4294967296 in Hv.
  destruct (wordOrder c) eqn:Ewo; cbn [app pairs32];
    (rewrite word32_value
       by (first [exact (Forall_inv Hr)
                 | exact (Forall_inv (Forall_inv_tail Hr))]));
    unfold msw32; rewrite Ewo; cbn [fst snd]; do 2 f_equal;
    Z.to_euclidean_division_equations; lia.
Qed.

Lemma pairs32_encoded {A B} (f : Z -> A) (g : B -> Z) (vs : list B) :
  Forall (fun x => 0 <= g x < 2 ^ 32) vs ->
  pairs32 c f (flat_map (fun x => uint32ToRegisters c (g x)) vs)
  = map (fun x => f (g x)) vs.
Proof.
  induction 1 as [| x vs Hx _ IH]; [reflexivity |].
  cbn [flat_map map]. rewrite pairs32_uint32ToRegisters by exact Hx.
  rewrite IH. reflexivity.
Qed.

Lemma quads64_uint64ToRegisters {A} (f : Z -> A) v rest :
  0 <= v < 2 ^ 64 ->
  quads64 c f (uint64ToRegisters c v ++ rest) = f v :: quads64 c f rest.
Proof.
  intros Hv. pose proof (uint64ToRegisters_range v) as Hr.
  unfold uint64ToRegisters in *. rewrite land_65535 in *.
  rewrite !Z.shiftr_div_pow2 in * by lia. unfold uint16 in *.
  destruct (wordOrder c) eqn:Ewo;
    pose proof (Forall_inv Hr) as H0;
    pose proof (Forall_inv (Forall_inv_tail Hr)) as H1;
    pose proof (Forall_inv (Forall_inv_tail (Forall_inv_tail Hr))) as H2;
    pose proof (Forall_inv (Forall_inv_tail (Forall_inv_tail
                                              (Forall_inv_tail Hr)))) as H3;
    clear Hr; cbn [app quads64];
    rewrite word64_value by assumption;
    unfold msw64; rewrite Ewo; do 2 f_equal;
    cbn -[Z.div Z.modulo Z.mul Z.add] in *;
    Z.to_euclidean_division_equations; lia.
Qed.

Lemma quads64_encoded {A B} (f : Z -> A) (g : B -> Z) (vs : list B) :
  Forall (fun x => 0 <= g x < 2 ^ 64) vs ->
  quads64 c f (flat_map (fun x => uint64ToRegisters c (g x)) vs)
  = map (fun x => f (g x)) vs.
Proof.
  induction 1 as [| x vs Hx _ IH]; [reflexivity |].
  cbn [flat_map map]. rewrite quads64_uint64ToRegisters by exact Hx.
  rewrite IH. reflexivity.
Qed.

Lemma map_id_on {A} (h : A -> A) (P : A -> Prop) (l : list A) :
  (forall x, P x -> h x = x) -> Forall P l -> map h l = l.
Proof.
  intros Hh. induction 1 as [| x l Hx _ IH]; [reflexivity |].
  cbn [map]. rewrite (Hh x Hx), IH. reflexivity.
Qed.

Lemma Forall_weaken {A} (P Q : A -> Prop) (l : list A) :
  (forall x, P x -> Q x) -> Forall P l -> Forall Q l.
Proof. intros H HP. eapply Forall_impl; eauto. Qed.

End EncodeDecode.

Section EncodeDecodeTheorems.

Import datatypes.

Lemma decode_nonempty c r T :
  (0 < List.length r)%nat ->
  ConvertFromRegisters c r T
  = match T with
    | BYTE => Ok (V_bytes (convertToBytes c r))
    | INT16 => Ok (V_int16 (convertToInt16Array r))
    | UINT16 => Ok (V_uint16 (convertToUint16Array r))
    | INT32 => Ok (V_int32 (convertToInt32Array c r))
    | UINT32 => Ok (V_uint32 (convertToUint32Array c r))
    | INT64 => Ok (V_int64 (convertToInt64Array c r))
    | UINT64 => Ok (V_uint64 (convertToUint64Array c r))
    | FLOAT32 => Ok (V_float32 (convertToFloat32Array c r))
    | FLOAT64 => Ok (V_float64 (convertToFloat64Array c r))
    | BOOL => Ok (V_bool (convertToBoolArray r))
    | ASCII => Ok (V_string (convertToASCII c r))
    | UNIX_TIMESTAMP => Ok (V_string (convertToTimestamp c r))
    end.
Proof. destruct r; [cbn; lia | reflexivity]. Qed.

(** X6. A numeric value whose elements fit their Go type survives the
    trip through the registers: [ConvertToRegisters] accepts it, and
    decoding the registers as the value's own data type with the same
    converter gives the value back. *)
Theorem encode_then_decode (c : Converter) (v : Value) (T : DataType) :
  numericType v = Some T -> inRange v -> (0 < valueCount v)%nat ->
  exists regs,
    ConvertToRegisters c v = Ok regs /\
    ConvertFromRegisters c regs T = Ok v.
Proof.
  intros HT Hin Hpos.
  destruct v as [l | l | l | l | l | l | l | l | l | l | s];
    cbn [numericType] in HT; try discriminate;
    injection HT as <-; cbn [inRange valueCount] in *;
    eexists; (split; [reflexivity |]); rewrite decode_nonempty.
  - f_equal. f_equal. unfold convertToInt16Array. rewrite map_map.
    apply (map_id_on _ _ _ (fun x => signed_unsigned 16 x ltac:(lia)) Hin).
  - rewrite length_map. exact Hpos.
  - reflexivity.
  - exact Hpos.
  - f_equal. f_equal. unfold convertToInt32Array.
    change (flat_map (int32ToRegisters c) l)
      with (flat_map (fun x => uint32ToRegisters c (uint32 x)) l).
    rewrite pairs32_encoded.
    + apply (map_id_on _ _ _ (fun x => signed_unsigned 32 x ltac:(lia)) Hin).
    + apply Forall_forall. intros x _. unfold uint32.
      apply Z.mod_pos_bound. lia.
  - rewrite (flat_map_length_const _ 2)
      by (intros x; apply (uint32ToRegisters_length c (uint32 x))).
    lia.
  - f_equal. f_equal. unfold convertToUint32Array.
    rewrite (pairs32_encoded c (fun x => x) (fun x => x)) by exact Hin.
    apply map_id.
  - rewrite (flat_map_length_const _ 2) by apply uint32ToRegisters_length.
    lia.
  - f_equal. f_equal. unfold convertToInt64Array.
    change (flat_map (int64ToRegisters c) l)
      with (flat_map (fun x => uint64ToRegisters c (uint64 x)) l).
    rewrite quads64_encoded.
    + apply (map_id_on _ _ _ (fun x => signed_unsigned 64 x ltac:(lia)) Hin).
    + apply Forall_forall. intros x _. unfold uint64.
      apply Z.mod_pos_bound. lia.
  - rewrite (flat_map_length_const _ 4)
      by (intros x; apply (uint64ToRegisters_length c (uint64 x))).
    lia.
  - f_equal. f_equal. unfold convertToUint64Array.
    rewrite (quads64_encoded c (fun x => x) (fun x => x)) by exact Hin.
    apply map_id.
  - rewrite (flat_map_length_const _ 4) by apply uint64ToRegisters_length.
    lia.
  - f_equal. f_equal. unfold convertToFloat32Array.
    change (flat_map (float32ToRegisters c) l)
      with (flat_map (fun x => uint32ToRegisters c (Float32bits x)) l).
    rewrite pairs32_encoded by exact Hin.
    apply (map_id_on _ (fun _ => True)); [intros [b] _; reflexivity |].
    apply Forall_forall. intros; exact I.
  - rewrite (flat_map_length_const _ 2)
      by (intros x; apply (uint32ToRegisters_length c (Float32bits x))).
    lia.
  - f_equal. f_equal. unfold convertToFloat64Array.
    change (flat_map (float64ToRegisters c) l)
      with (flat_map (fun x => uint64ToRegisters c (Float64bits x)) l).
    rewrite quads64_encoded by exact Hin.
    apply (map_id_on _ (fun _ => True)); [intros [b] _; reflexivity |].
    apply Forall_forall. intros; exact I.
  - rewrite (flat_map_length_const _ 4)
      by (intros x; apply (uint64ToRegisters_length c (Float64bits x))).
    lia.
Qed.

Lemma encode_then_decode_witness :
  exists regs,
    ConvertToRegisters (NewConverter AB WORD_4321)
                       (V_int32 [-2; 70000]) = Ok regs /\
    ConvertFromRegisters (NewConverter AB WORD_4321) regs INT32
    = Ok (V_int32 [-2; 70000]).
Proof.
  apply (encode_then_decode (NewConverter AB WORD_4321)
                            (V_int32 [-2; 70000]) INT32).
  - reflexivity.
  - simpl. repeat (apply Forall_cons; [lia |]). apply Forall_nil.
  - simpl; lia.
Defined.

(** X7. The word order matters: a 32-bit value encoded under one word
    order and decoded under the other comes back with its two 16-bit
    halves exchanged, which is the value itself only when the halves are
    equal. *)
Theorem opposite_word_order_swaps_halves (c1 c2 : Converter) (v : Z) :
  wordOrder c1 <> wordOrder c2 -> 0 <= v < 2 ^ 32 ->
  let swapped := (v mod 65536) * 65536 + v / 65536 in
  convertToUint32Array c2 (uint32ToRegisters c1 v) = [swapped] /\
  (swapped = v <-> v / 65536 = v mod 65536).
Proof.
  intros Hwo Hv swapped. subst swapped.
  change (2 ^ 32) with 4294967296 in Hv. split.
  - pose proof (uint32ToRegisters_range c1 v) as Hr.
    unfold convertToUint32Array, uint32ToRegisters in *.
    rewrite land_65535 in *. rewrite Z.shiftr_div_pow2 in * by lia.
    unfold uint16 in *. change (2 ^ 16) with 65536 in *.
    destruct (wordOrder c1) eqn:E1, (wordOrder c2) eqn:E2;
      try contradiction; cbn [pairs32];
      (rewrite word32_value
         by (first [exact (Forall_inv Hr)
                   | exact (Forall_inv (Forall_inv_tail Hr))]));
      unfold msw32; rewrite E2; cbn [fst snd]; f_equal;
      Z.to_euclidean_division_equations; lia.
  - Z.to_euclidean_division_equations; lia.
Qed.

Lemma opposite_word_order_swaps_halves_witness :
  convertToUint32Array (NewConverter AB WORD_1234)
    (uint32ToRegisters (NewConverter AB WORD_4321) 0x00010002)
  = [0x00020001].
Proof.
  destruct (opposite_word_order_swaps_halves
              (NewConverter AB WORD_4321) (NewConverter AB WORD_1234)
              0x00010002) as [H _].
  - discriminate.
  - lia.
  - exact H.
Defined.

End EncodeDecodeTheorems.

Section TextEncodeDecode.

Import datatypes.

Variable c : Converter.

Lemma TrimRight_id s cut : lastChar s <> Some cut -> TrimRight s cut = s.
Proof.
  induction s as [| a s IH]; [reflexivity |].
  cbn [TrimRight]. destruct s as [| b t].
  - cbn. intros H. destruct (Ascii.eqb_spec a cut); congruence.
  - intros H. rewrite IH by exact H. reflexivity.
Qed.

Lemma pairBytes_length : forall P,
  List.length (pairBytes c P) = (List.length P / 2)%nat.
Proof.
  fix IH 1. intros [| b0 [| b1 rest]]; try reflexivity.
  change (List.length (pairBytes c (b0 :: b1 :: rest)))
    with (S (List.length (pairBytes c rest))).
  rewrite IH.
  change (List.length (b0 :: b1 :: rest)) with (2 + List.length rest)%nat.
  replace (2 + List.length rest)%nat with (List.length rest + 1 * 2)%nat
    by lia.
  rewrite Nat.div_add by lia. lia.
Qed.

(** The bytes of the registers of a text are the bytes of the text, with
    one zero byte after them when there is an odd number of them. *)
Lemma asciiToRegisters_bytes s :
  convertToBytes c (asciiToRegisters c s)
  = bytes_of_string s
    ++ (if (String.length s mod 2 =? 0)%nat then [] else [0]) /\
  Forall is_uint16 (asciiToRegisters c s) /\
  List.length (asciiToRegisters c s) = ((String.length s + 1) / 2)%nat.
Proof.
  rewrite convertToBytes_registerBytes. unfold asciiToRegisters.
  pose proof (bytes_of_string_range s) as Hb.
  pose proof (bytes_of_string_length s) as Hl.
  set (b := bytes_of_string s) in *. rewrite <- Hl.
  pose proof (Nat.div_mod_eq (List.length b) 2) as Hdm.
  pose proof (Nat.mod_upper_bound (List.length b) 2 ltac:(lia)) as Hm.
  destruct (List.length b mod 2 =? 0)%nat eqn:Ev.
  - apply Nat.eqb_eq in Ev. rewrite app_nil_r. split; [| split].
    + apply (pairBytes_registerBytes c (List.length b / 2)); [lia | exact Hb].
    + apply pairBytes_range. exact Hb.
    + rewrite pairBytes_length.
      replace (List.length b + 1)%nat
        with (1 + (List.length b / 2) * 2)%nat by lia.
      rewrite Nat.div_add by lia. replace (List.length b)
        with (0 + (List.length b / 2) * 2)%nat at 1 by lia.
      rewrite Nat.div_add by lia. reflexivity.
  - apply Nat.eqb_neq in Ev.
    assert (Hb0 : Forall is_byte (b ++ [0])).
    { apply Forall_app. split; [exact Hb |]. in_range. }
    split; [| split].
    + apply (pairBytes_registerBytes c (S (List.length b / 2)));
        [| exact Hb0].
      rewrite length_app. cbn [List.length]. lia.
    + apply pairBytes_range. exact Hb0.
    + rewrite pairBytes_length, length_app. reflexivity.
Qed.

(** X8. Text survives the trip through the registers up to its trailing
    NULs: decoding the registers of a string with the same converter
    gives the string without its trailing run of NUL bytes, hence the
    string itself when it does not end in NUL. *)
Theorem text_encode_then_decode (s : string) :
  convertToASCII c (asciiToRegisters c s) = TrimRight s zero /\
  (lastChar s <> Some zero ->
   convertToASCII c (asciiToRegisters c s) = s).
Proof.
  assert (H : convertToASCII c (asciiToRegisters c s) = TrimRight s zero).
  { rewrite convertToASCII_unfold.
    destruct (asciiToRegisters_bytes s) as (-> & _ & _).
    rewrite string_of_bytes_app, string_of_bytes_of_string.
    destruct (String.length s mod 2 =? 0)%nat.
    - cbn. rewrite string_app_empty. reflexivity.
    - change (string_of_bytes [0]) with (String zero EmptyString).
      apply TrimRight_drop. }
  split; [exact H |]. intros Hlast. rewrite H. apply TrimRight_id. exact Hlast.
Qed.

(** X9. [ConvertToRegisters] accepts the integer, float and text values
    and rejects byte and boolean lists.  A list of [k] numeric values
    gives [k] times [RegistersPerValue] registers, a text of [n] bytes
    gives [(n + 1) / 2] registers, and every register produced by a
    conversion fits in 16 bits even when a value does not fit its type. *)
Theorem ConvertToRegisters_shape (v : Value) :
  match v with
  | V_bytes _ | V_bool _ => exists e, ConvertToRegisters c v = Err e
  | V_uint16 l => ConvertToRegisters c v = Ok l
  | V_string s =>
      exists regs,
        ConvertToRegisters c v = Ok regs /\
        List.length regs = ((String.length s + 1) / 2)%nat /\
        Forall is_uint16 regs
  | _ =>
      exists regs T,
        ConvertToRegisters c v = Ok regs /\ numericType v = Some T /\
        List.length regs = (RegistersPerValue T * valueCount v)%nat /\
        Forall is_uint16 regs
  end.
Proof.
  destruct v as [l | l | l | l | l | l | l | l | l | l | s];
    cbn [ConvertToRegisters numericType valueCount].
  - eexists. reflexivity.
  - exists (map uint16 l), INT16. repeat split.
    + rewrite length_map. cbn. lia.
    + apply Forall_forall. intros x Hx. apply in_map_iff in Hx.
      destruct Hx as (y & <- & _). apply uint16_range.
  - reflexivity.
  - exists (flat_map (int32ToRegisters c) l), INT32. repeat split.
    + apply flat_map_length_const.
      intros x. apply (uint32ToRegisters_length c (uint32 x)).
    + apply Forall_flat_map, Forall_forall. intros x _.
      apply (uint32ToRegisters_range c (uint32 x)).
  - exists (flat_map (uint32ToRegisters c) l), UINT32. repeat split.
    + apply flat_map_length_const. apply uint32ToRegisters_length.
    + apply Forall_flat_map, Forall_forall. intros x _.
      apply uint32ToRegisters_range.
  - exists (flat_map (int64ToRegisters c) l), INT64. repeat split.
    + apply flat_map_length_const.
      intros x. apply (uint64ToRegisters_length c (uint64 x)).
    + apply Forall_flat_map, Forall_forall. intros x _.
      apply (uint64ToRegisters_range c (uint64 x)).
  - exists (flat_map (uint64ToRegisters c) l), UINT64. repeat split.
    + apply flat_map_length_const. apply uint64ToRegisters_length.
    + apply Forall_flat_map, Forall_forall. intros x _.
      apply uint64ToRegisters_range.
  - exists (flat_map (float32ToRegisters c) l), FLOAT32. repeat split.
    + apply flat_map_length_const.
      intros x. apply (uint32ToRegisters_length c (Float32bits x)).
    + apply Forall_flat_map, Forall_forall. intros x _.
      apply (uint32ToRegisters_range c (Float32bits x)).
  - exists (flat_map (float64ToRegisters c) l), FLOAT64. repeat split.
    + apply flat_map_length_const.
      intros x. apply (uint64ToRegisters_length c (Float64bits x)).
    + apply Forall_flat_map, Forall_forall. intros x _.
      apply (uint64ToRegisters_range c (Float64bits x)).
  - eexists. reflexivity.
  - exists (asciiToRegisters c s).
    destruct (asciiToRegisters_bytes s) as (_ & Hr & Hl).
    repeat split; assumption.
Qed.

End TextEncodeDecode.

Lemma text_encode_then_decode_witness :
  datatypes.convertToASCII (datatypes.NewConverter datatypes.BA datatypes.WORD_1234)
    (datatypes.asciiToRegisters
       (datatypes.NewConverter datatypes.BA datatypes.WORD_1234) "PLC")
  = "PLC"%string.
Proof.
  destruct (text_encode_then_decode
              (datatypes.NewConverter datatypes.BA datatypes.WORD_1234) "PLC")
    as [_ H].
  apply H. simpl. discriminate.
Defined.

Section ParsingParts.

Import datatypes.

Lemma parseParts_all {A} (parse : string -> option A) prefix parts :
  forallb (fun p => isSome (parse (TrimSpace p))) parts = true ->
  exists vs, parseParts parse prefix parts = Ok vs /\
             List.length vs = List.length parts.
Proof.
  induction parts as [| p ps IH]; intros H.
  - exists []. split; reflexivity.
  - cbn [forallb] in H. apply andb_true_iff in H. destruct H as [Hp Hps].
    destruct (IH Hps) as (vs & Hvs & Hl).
    cbn [parseParts]. destruct (parse (TrimSpace p)) as [val |];
      [| discriminate].
    rewrite Hvs. exists (val :: vs). split; [reflexivity | cbn; lia].
Qed.

Lemma parseParts_first_failure {A} (parse : string -> option A) prefix
      before p after :
  forallb (fun q => isSome (parse (TrimSpace q))) before = true ->
  isSome (parse (TrimSpace p)) = false ->
  parseParts parse prefix (before ++ p :: after) = Err (prefix ++ p).
Proof.
  induction before as [| q qs IH]; intros Hb Hp.
  - cbn [app parseParts]. destruct (parse (TrimSpace p)); [discriminate |].
    reflexivity.
  - cbn [forallb] in Hb. apply andb_true_iff in Hb. destruct Hb as [Hq Hqs].
    cbn [app parseParts]. destruct (parse (TrimSpace q)); [| discriminate].
    rewrite (IH Hqs Hp). reflexivity.
Qed.

Lemma isSome_option_map {A B} (f : A -> B) (o : option A) :
  isSome (option_map f o) = isSome o.
Proof. destruct o; reflexivity. Qed.

Lemma forallb_ext_eq {A} (f g : A -> bool) l :
  (forall x, f x = g x) -> forallb f l = forallb g l.
Proof.
  intros H. induction l as [| x l IH]; [reflexivity |].
  cbn. rewrite H, IH. reflexivity.
Qed.

Variable ParseFloat : string -> Z -> option float64.
Variable float32_of_float64 : float64 -> float32.

(** X10. For a numeric or boolean target type [ParseStringToType] accepts
    a text exactly when every comma-separated part, trimmed, parses: it
    then returns one value per part.  Otherwise the error is the per-type
    message followed by the first part that does not parse, untrimmed;
    later parts are not looked at. *)
Theorem ParseStringToType_parts (s : string) (T : DataType) :
  numericOrBool T ->
  let parts := Split s "," in
  let Parse := ParseStringToType ParseFloat float32_of_float64 in
  (forallb (partParses ParseFloat T) parts = true ->
   exists v, Parse s T = Ok v /\ valueCount v = List.length parts) /\
  (forall before p after,
      parts = before ++ p :: after ->
      forallb (partParses ParseFloat T) before = true ->
      partParses ParseFloat T p = false ->
      Parse s T = Err ("invalid " ++ DataType_String T ++ " value: " ++ p)).
Proof.
  intros HT parts Parse. subst Parse. unfold ParseStringToType. fold parts.
  assert (Hne : parts <> []) by apply Split_nonempty.
  destruct parts as [| p0 ps] eqn:Eparts; [contradiction |].
  rewrite <- Eparts. clear Hne.
  split.
  - intros Hall.
    destruct T; cbn [numericOrBool] in HT; try contradiction;
      unfold partParses in Hall;
      match goal with
      | |- context [parseParts ?parse ?prefix parts] =>
          destruct (parseParts_all parse prefix parts) as (vs & -> & Hl);
            [erewrite forallb_ext_eq; [exact Hall |];
             intros x; cbv beta; rewrite ?isSome_option_map; reflexivity |]
      end;
      eexists; (split; [reflexivity | exact Hl]).
  - intros before p after Hsplit Hbefore Hp.
    destruct T; cbn [numericOrBool] in HT; try contradiction;
      unfold partParses in Hbefore, Hp; rewrite Hsplit;
      match goal with
      | |- context [parseParts ?parse ?prefix (before ++ p :: after)] =>
          rewrite (parseParts_first_failure parse prefix before p after);
            [reflexivity
            | erewrite forallb_ext_eq; [exact Hbefore |];
              intros x; cbv beta; rewrite ?isSome_option_map; reflexivity
            | cbv beta; rewrite ?isSome_option_map; exact Hp]
      end.
Qed.

End ParsingParts.

Lemma ParseStringToType_parts_witness :
  let ParseFloat := fun (s : string) (bitSize : Z) =>
                      @None datatypes.float64 in
  let float32_of_float64 := fun _ : datatypes.float64 =>
                              datatypes.Float32frombits 0 in
  (exists v,
      datatypes.ParseStringToType ParseFloat float32_of_float64
        "10, 20 ,30" datatypes.UINT16 = Ok v /\
      valueCount v = 3%nat) /\
  datatypes.ParseStringToType ParseFloat float32_of_float64
    "10, -1 ,x" datatypes.UINT16
  = Err "invalid UINT16 value:  -1 ".
Proof.
  cbv zeta. split.
  - destruct (ParseStringToType_parts
                (fun _ _ => None) (fun _ => datatypes.Float32frombits 0)
                "10, 20 ,30" datatypes.UINT16 I) as [H _].
    apply H. reflexivity.
  - destruct (ParseStringToType_parts
                (fun _ _ => None) (fun _ => datatypes.Float32frombits 0)
                "10, -1 ,x" datatypes.UINT16 I) as [_ H].
    apply (H ["10"%string] " -1 "%string ["x"%string]); reflexivity.
Defined.

(** * Further properties of the client *)

Section RegisterBytes.

Import datatypes modbus.

Lemma Uint16_PutUint16 v : is_uint16 v -> PutUint16 v = [v / 256; v mod 256].
Proof. intros H. apply PutUint16_bytes. apply is_uint16_bounds. exact H. Qed.

Lemma bytesToUint16Array_encoded regs :
  Forall is_uint16 regs -> bytesToUint16Array (uint16ArrayToBytes regs) = regs.
Proof.
  unfold uint16ArrayToBytes.
  induction 1 as [| v regs Hv _ IH]; [reflexivity |].
  cbn [flat_map]. rewrite (Uint16_PutUint16 v Hv). cbn [app bytesToUint16Array].
  rewrite IH. f_equal. unfold Uint16.
  rewrite is_uint16_bounds in Hv.
  rewrite shiftl_mul by lia.
  rewrite (lor_shifted_low (v / 256) (v mod 256) 8)
    by (change (2 ^ 8) with 256; Z.to_euclidean_division_equations; lia).
  change (2 ^ 8) with 256. Z.to_euclidean_division_equations; lia.
Qed.

Lemma uint16ArrayToBytes_decoded n : forall data,
  List.length data = (2 * n)%nat -> Forall is_byte data ->
  uint16ArrayToBytes (bytesToUint16Array data) = data.
Proof.
  unfold uint16ArrayToBytes.
  induction n as [| n IH]; intros data Hlen Hd.
  - destruct data; [reflexivity | discriminate].
  - destruct data as [| b0 [| b1 rest]]; try (cbn in Hlen; lia).
    pose proof (Forall_inv Hd) as H0.
    pose proof (Forall_inv (Forall_inv_tail Hd)) as H1.
    cbn [bytesToUint16Array flat_map].
    rewrite IH by (try exact (Forall_inv_tail (Forall_inv_tail Hd));
                   cbn in Hlen; lia).
    unfold is_byte in H0, H1. change (2 ^ 8) with 256 in H0, H1.
    unfold Uint16. rewrite shiftl_mul by lia.
    rewrite (lor_shifted_low b0 b1 8) by (change (2 ^ 8) with 256; lia).
    change (2 ^ 8) with 256.
    rewrite PutUint16_bytes by lia. cbn [app]. do 2 f_equal;
      Z.to_euclidean_division_equations; lia.
Qed.

Lemma bytesToUint16Array_app_short n : forall data t,
  List.length data = (2 * n)%nat -> (List.length t < 2)%nat ->
  bytesToUint16Array (data ++ t) = bytesToUint16Array data.
Proof.
  induction n as [| n IH]; intros data t Hlen Ht.
  - destruct data; [| discriminate].
    destruct t as [| t0 [| t1 t]]; try reflexivity. cbn in Ht. lia.
  - destruct data as [| b0 [| b1 rest]]; try (cbn in Hlen; lia).
    cbn [app bytesToUint16Array].
    rewrite IH by (try exact Ht; cbn in Hlen; lia). reflexivity.
Qed.

(** X11. Registers and their big-endian bytes: the bytes of a register
    array read back as the same registers, and the registers of a byte
    payload written out again give the payload without its last byte when
    its length is odd - a dangling byte is dropped when a response is
    turned into registers. *)
Theorem register_bytes_round_trip (regs data : list Z) :
  Forall is_uint16 regs -> Forall is_byte data ->
  bytesToUint16Array (uint16ArrayToBytes regs) = regs /\
  List.length (uint16ArrayToBytes regs) = (2 * List.length regs)%nat /\
  uint16ArrayToBytes (bytesToUint16Array data)
  = firstn (2 * (List.length data / 2)) data.
Proof.
  intros Hr Hd. split; [apply bytesToUint16Array_encoded; exact Hr |].
  split.
  - unfold uint16ArrayToBytes. apply flat_map_length_const. reflexivity.
  - destruct (aligned_prefix 2 data ltac:(lia)) as (Hl & Hs & E).
    cbv zeta in *. rewrite E at 1.
    rewrite (bytesToUint16Array_app_short (List.length data / 2))
      by assumption.
    apply (uint16ArrayToBytes_decoded (List.length data / 2)); [exact Hl |].
    rewrite E in Hd. apply Forall_app in Hd. apply Hd.
Qed.

Lemma register_bytes_round_trip_witness :
  uint16ArrayToBytes (bytesToUint16Array [0x12; 0x34; 0x56])
  = [0x12; 0x34].
Proof.
  destruct (register_bytes_round_trip [] [0x12; 0x34; 0x56]) as (_ & _ & H).
  - in_range.
  - in_range.
  - exact H.
Defined.

(** X12. What a register read returns is decided by the response alone:
    on a connected client, a successful [ReadHoldingRegisters] or
    [ReadInputRegisters] whose response carries the registers [regs]
    returns [ConvertFromRegisters] of those registers with the converter
    in force - the one last set by [SetDataConverter] - whatever count was
    asked for. *)
Theorem register_read_decodes_response
        (c : Client) (slaveID address count : Z) (T : DataType)
        (regs : list Z) :
  isConnected c = true -> client c <> None -> Forall is_uint16 regs ->
  let payload := uint16ArrayToBytes regs in
  (exists c',
      ReadHoldingRegisters c slaveID address count T (inl payload)
      = Done (ConvertFromRegisters (converter c) regs T) c') /\
  (exists c',
      ReadInputRegisters c slaveID address count T (inl payload)
      = Done (ConvertFromRegisters (converter c) regs T) c') /\
  (forall bo wo, exists c',
      ReadHoldingRegisters (SetDataConverter c bo wo) slaveID address count T
                           (inl payload)
      = Done (ConvertFromRegisters (NewConverter bo wo) regs T) c').
Proof.
  intros Hconn Hcl Hr payload.
  destruct (client c) as [h |] eqn:Ecl; [clear Hcl | contradiction].
  assert (Hconv : forall cl req resp u,
             converter (recordADU cl req resp u) = converter cl).
  { intros cl req resp u. unfold recordADU.
    destruct (connectionType cl); reflexivity. }
  subst payload.
  split; [| split].
  - unfold ReadHoldingRegisters. rewrite Hconn, Ecl. cbn [negb].
    eexists. rewrite Hconv, bytesToUint16Array_encoded by exact Hr.
    reflexivity.
  - unfold ReadInputRegisters. rewrite Hconn, Ecl. cbn [negb].
    eexists. rewrite Hconv, bytesToUint16Array_encoded by exact Hr.
    reflexivity.
  - intros bo wo. unfold ReadHoldingRegisters, SetDataConverter.
    cbn [isConnected client]. rewrite Hconn, Ecl. cbn [negb].
    eexists. rewrite Hconv, bytesToUint16Array_encoded by exact Hr.
    reflexivity.
Qed.

Lemma register_read_decodes_response_witness :
  let c := snd (ConnectTCP NewClient "10.0.0.7" 502 None) in
  exists c',
    ReadHoldingRegisters (SetDataConverter c BA WORD_4321) 1 0 1 UINT32
                         (inl (uint16ArrayToBytes [2; 1]))
    = Done (Ok (V_uint32 [65538])) c'.
Proof.
  cbv zeta.
  destruct (register_read_decodes_response
              (snd (ConnectTCP NewClient "10.0.0.7" 502 None))
              1 0 1 UINT32 [2; 1]) as (_ & _ & H).
  - reflexivity.
  - discriminate.
  - in_range.
  - exact (H BA WORD_4321).
Defined.

End RegisterBytes.

Section WriteRequests.

Import datatypes modbus.

Lemma uint16_small n : 0 <= n < 65536 -> uint16 n = n.
Proof. intros H. apply uint16_id. apply is_uint16_bounds. exact H. Qed.

Lemma uint16ArrayToBytes_be16 regs :
  uint16ArrayToBytes regs = flat_map be16 regs.
Proof.
  unfold uint16ArrayToBytes. apply flat_map_ext. intros v.
  apply PutUint16_be16.
Qed.

(** X13. [WriteHoldingRegisters] picks the function code by the number of
    registers the values convert to: exactly one register is sent with
    function 0x06 as address and value; any other number [n] (below
    65536) with function 0x10 as address, quantity [n], a byte count
    [2n mod 256] and the registers in big-endian bytes.  On a transport
    error the call reports the single or the multiple write
    accordingly. *)
Theorem write_registers_request
        (c : Client) (slaveID address : Z) (regs : list Z) (err : string) :
  Z.of_nat (List.length regs) < 65536 ->
  let n := Z.of_nat (List.length regs) in
  let pdu := writeRegistersPDU address regs in
  (List.length regs = 1%nat ->
   pdu = 0x06 :: be16 address ++ be16 (hd 0 regs)) /\
  (List.length regs <> 1%nat ->
   pdu = 0x10 :: be16 address ++ be16 n ++ [(2 * n) mod 256]
              ++ flat_map be16 regs) /\
  (isConnected c = true -> client c <> None ->
   WriteHoldingRegisters c slaveID address (V_uint16 regs) (inr err)
   = Done (Some ((if (List.length regs =? 1)%nat
                  then "failed to write single holding register: "
                  else "failed to write multiple holding registers: ")
                 ++ err)%string)
          (recordADU c pdu None slaveID)).
Proof.
  intros Hn n pdu. subst pdu. unfold writeRegistersPDU.
  rewrite uint16_small by lia. fold n.
  split; [| split].
  - intros H1. destruct regs as [| r0 [| r1 rest]]; try discriminate.
    destruct (Z.eqb_spec n 1) as [_ | Ne]; [| subst n; cbn in Ne; lia].
    unfold uint16ArrayToBytes. cbn [flat_map hd].
    rewrite !PutUint16_be16. reflexivity.
  - intros Hne.
    destruct (Z.eqb_spec n 1) as [E | _]; [subst n; lia |].
    unfold writeMultiplePDU. rewrite !PutUint16_be16.
    rewrite uint16ArrayToBytes_be16. do 3 f_equal.
    rewrite (flat_map_length_const be16 2) by reflexivity.
    unfold byte. change (2 ^ 8) with 256. do 2 f_equal. subst n. lia.
  - intros Hconn Hcl.
    destruct (client c) as [h |] eqn:Ecl; [clear Hcl | contradiction].
    unfold WriteHoldingRegisters. rewrite Hconn. cbn [negb ConvertToRegisters].
    rewrite Ecl, uint16_small by lia. fold n.
    unfold writeRegistersPDU. rewrite uint16_small by lia. fold n.
    destruct (Z.eqb_spec n 1) as [E | Ne];
      destruct (Nat.eqb_spec (List.length regs) 1) as [E' | Ne'];
      try reflexivity; subst n; lia.
Qed.

Lemma write_registers_request_witness :
  writeRegistersPDU 0x0010 [0x0102; 0x0304]
  = [0x10; 0x00; 0x10; 0x00; 0x02; 0x04; 0x01; 0x02; 0x03; 0x04].
Proof.
  destruct (write_registers_request NewClient 1 0x0010 [0x0102; 0x0304] "")
    as (_ & H & _).
  - simpl; lia.
  - apply H. simpl; lia.
Defined.

(** Bit [j] of the packed byte [k] is coil [8k + j]. *)
Lemma coilByte_fold values k j : forall l acc,
  Forall (fun j' => (j' < 8)%nat) l ->
  Z.testbit (fold_left (fun acc j' =>
                          if nth (8 * k + j') values false
                          then Z.lor acc (byte (Z.shiftl 1 (Z.of_nat j')))
                          else acc) l acc) (Z.of_nat j)
  = Z.testbit acc (Z.of_nat j)
    || existsb (fun j' => Nat.eqb j' j && nth (8 * k + j') values false) l.
Proof.
  induction l as [| j' l IH]; intros acc Hl.
  - cbn. rewrite orb_false_r. reflexivity.
  - pose proof (Forall_inv Hl) as Hj'. cbv beta in Hj'.
    cbn [fold_left existsb]. rewrite IH by exact (Forall_inv_tail Hl).
    destruct (nth (8 * k + j') values false).
    + rewrite Z.lor_spec. unfold byte. rewrite Z.shiftl_1_l.
      rewrite Z.mod_small
        by (split; [apply Z.pow_nonneg; lia | apply Z.pow_lt_mono_r; lia]).
      rewrite Z.pow2_bits_eqb by lia.
      rewrite andb_true_r, <- orb_assoc. do 2 f_equal.
      destruct (Nat.eqb_spec j' j) as [-> | Hne];
        [apply Z.eqb_refl | apply Z.eqb_neq; lia].
    + rewrite andb_false_r. reflexivity.
Qed.

Lemma coilByte_bit values k j :
  (j < 8)%nat ->
  Z.testbit (coilByte values k) (Z.of_nat j) = nth (8 * k + j) values false.
Proof.
  intros Hj. unfold coilByte. rewrite coilByte_fold.
  - rewrite Z.bits_0. cbn [orb].
    do 8 (destruct j as [| j]; [cbn; rewrite ?orb_false_r; reflexivity |]).
    lia.
  - repeat (apply Forall_cons; [lia |]). apply Forall_nil.
Qed.

Lemma lor_range8 a b :
  0 <= a < 256 -> 0 <= b < 256 -> 0 <= Z.lor a b < 256.
Proof.
  intros Ha Hb.
  assert (Hnn : 0 <= Z.lor a b) by (apply Z.lor_nonneg; lia).
  split; [exact Hnn |].
  destruct (Z.eq_dec (Z.lor a b) 0) as [-> | Hnz]; [lia |].
  change 256 with (2 ^ 8). apply Z.log2_lt_pow2; [lia |].
  rewrite Z.log2_lor by lia.
  assert (Hla : Z.log2 a < 8).
  { destruct (Z.eq_dec a 0) as [-> | ?]; [cbn; lia |].
    apply Z.log2_lt_pow2; [lia |]. change (2 ^ 8) with 256. lia. }
  assert (Hlb : Z.log2 b < 8).
  { destruct (Z.eq_dec b 0) as [-> | ?]; [cbn; lia |].
    apply Z.log2_lt_pow2; [lia |]. change (2 ^ 8) with 256. lia. }
  lia.
Qed.

Lemma coilByte_range values k : is_byte (coilByte values k).
Proof.
  unfold is_byte, coilByte. change (2 ^ 8) with 256.
  assert (H : forall l acc, 0 <= acc < 256 ->
            0 <= fold_left (fun acc j' =>
                   if nth (8 * k + j') values false
                   then Z.lor acc (byte (Z.shiftl 1 (Z.of_nat j')))
                   else acc) l acc < 256).
  { induction l as [| j' l IH]; intros acc Hacc; [exact Hacc |].
    cbn [fold_left]. apply IH.
    destruct (nth (8 * k + j') values false); [| exact Hacc].
    apply lor_range8; [exact Hacc |].
    unfold byte. change (2 ^ 8) with 256. apply Z.mod_pos_bound. lia. }
  apply H. lia.
Qed.

Lemma map_seq_nth {A} (l : list A) (d : A) :
  map (fun i => nth i l d) (seq 0 (List.length l)) = l.
Proof.
  induction l as [| x l IH]; [reflexivity |].
  cbn [List.length seq map nth]. f_equal.
  rewrite <- seq_shift, map_map. exact IH.
Qed.

Lemma packed_length (values : list bool) :
  let byteCount := ((List.length values + 7) / 8)%nat in
  (List.length values <= 8 * byteCount)%nat.
Proof.
  cbv zeta. pose proof (Nat.div_mod_eq (List.length values + 7) 8).
  pose proof (Nat.mod_upper_bound (List.length values + 7) 8). lia.
Qed.

(** X14. [WriteCoils] picks the function code by the number of values: a
    single value is sent with function 0x05 as address and 0xFF00 for on,
    0x0000 for off; any other number [n] (below 65536) with function 0x0F
    as address, quantity [n], byte count and [ceil(n/8)] data bytes, in
    which bit [j] of byte [k] is value [8k + j] and the bits past the last
    value are zero. *)
Theorem write_coils_request (address : Z) (values : list bool) :
  Z.of_nat (List.length values) < 65536 ->
  let n := List.length values in
  let byteCount := ((n + 7) / 8)%nat in
  let data := map (coilByte values) (seq 0 byteCount) in
  (n = 1%nat ->
   writeCoilsPDU address values
   = 0x05 :: be16 address
          ++ (if hd false values then [0xFF; 0x00] else [0x00; 0x00])) /\
  (n <> 1%nat ->
   writeCoilsPDU address values
   = 0x0F :: be16 address ++ be16 (Z.of_nat n)
          ++ [Z.of_nat byteCount mod 256] ++ data) /\
  Forall is_byte data /\
  (forall k j, (k < byteCount)%nat -> (j < 8)%nat ->
     Z.testbit (nth k data 0) (Z.of_nat j) = nth (8 * k + j) values false).
Proof.
  intros Hn n byteCount data. unfold writeCoilsPDU.
  rewrite uint16_small by lia. fold n.
  split; [| split; [| split]].
  - intros H1. destruct (Z.eqb_spec (Z.of_nat n) 1); [| lia].
    rewrite !PutUint16_be16. destruct (hd false values); reflexivity.
  - intros Hne. destruct (Z.eqb_spec (Z.of_nat n) 1); [lia |].
    unfold writeMultiplePDU. fold byteCount. fold data.
    rewrite !PutUint16_be16. do 3 f_equal.
    subst data. rewrite length_map, length_seq. reflexivity.
  - subst data. apply Forall_forall. intros x Hx.
    apply in_map_iff in Hx. destruct Hx as (k & <- & _).
    apply coilByte_range.
  - intros k j Hk Hj. subst data.
    rewrite (nth_indep _ 0 (coilByte values 0))
      by (rewrite length_map, length_seq; exact Hk).
    rewrite map_nth, seq_nth by exact Hk. cbn [Nat.add].
    apply coilByte_bit. exact Hj.
Qed.

Lemma write_coils_request_witness :
  writeCoilsPDU 0x0013
    [true; false; true; true; false; false; true; true; true; false]
  = [0x0F; 0x00; 0x13; 0x00; 0x0A; 0x02; 0xCD; 0x01].
Proof.
  destruct (write_coils_request 0x0013
              [true; false; true; true; false; false; true; true; true; false])
    as (_ & H & _).
  - simpl; lia.
  - apply H. simpl; lia.
Defined.

(** X15. Packing and unpacking coils are inverse: reading [n] coils from
    the data bytes that [WriteCoils] packs for [n] values gives the values
    back. *)
Theorem coils_pack_then_unpack
        (c : Client) (slaveID address : Z) (values : list bool) :
  isConnected c = true -> client c <> None ->
  let n := List.length values in
  let data := map (coilByte values) (seq 0 ((n + 7) / 8)) in
  unpackBits (Z.of_nat n) data = values /\
  exists c',
    ReadCoils c slaveID address (Z.of_nat n) (inl data)
    = Done (Ok values) c'.
Proof.
  intros Hconn Hcl n data.
  assert (Hu : unpackBits (Z.of_nat n) data = values).
  { rewrite unpackBits_closed_form.
    assert (Hlen : List.length data = ((n + 7) / 8)%nat)
      by (subst data; rewrite length_map, length_seq; reflexivity).
    pose proof (packed_length values) as Hp. cbv zeta in Hp. fold n in Hp.
    rewrite Hlen, Nat.min_l by exact Hp.
    etransitivity; [| apply (map_seq_nth values false)]. fold n.
    apply map_ext_in. intros i Hi. apply in_seq in Hi.
    unfold bitAt.
    assert (Hk : (i / 8 < (n + 7) / 8)%nat).
    { pose proof (Nat.div_mod_eq i 8). pose proof (Nat.mod_upper_bound i 8).
      lia. }
    subst data.
    rewrite (nth_indep _ 0 (coilByte values 0))
      by (rewrite length_map, length_seq; exact Hk).
    rewrite map_nth, seq_nth by exact Hk. cbn [Nat.add].
    rewrite coilByte_bit by (apply Nat.mod_upper_bound; lia).
    f_equal. symmetry. apply Nat.div_mod_eq. }
  split; [exact Hu |].
  destruct (client c) as [h |] eqn:Ecl; [clear Hcl | contradiction].
  unfold ReadCoils. rewrite Hconn, Ecl. cbn [negb]. rewrite Hu.
  eexists. reflexivity.
Qed.

Lemma coils_pack_then_unpack_witness :
  let values := [true; false; true; true; false; false; true; true; true] in
  unpackBits 9 (map (coilByte values) (seq 0 2)) = values.
Proof.
  cbv zeta.
  destruct (coils_pack_then_unpack
              (snd (ConnectTCP NewClient "10.0.0.7" 502 None)) 1 0
              [true; false; true; true; false; false; true; true; true])
    as [H _].
  - reflexivity.
  - discriminate.
  - exact H.
Defined.

End WriteRequests.

Section CRCResidue.

Import datatypes modbus.

Lemma crc16_from_app data1 : forall crc data2,
  crc16_from crc (data1 ++ data2) = crc16_from (crc16_from crc data1) data2.
Proof.
  induction data1 as [| b data1 IH]; intros crc data2; [reflexivity |].
  cbn [app crc16_from]. apply IH.
Qed.

(** Shifting out [n] zero bits never meets the polynomial. *)
Lemma crc16_bits_shift n : forall h, crc16_bits n (h * 2 ^ Z.of_nat n) = h.
Proof.
  induction n as [| n IH]; intros h.
  - cbn. lia.
  - cbn [crc16_bits].
    replace (h * 2 ^ Z.of_nat (S n)) with (2 * (h * 2 ^ Z.of_nat n))
      by (rewrite Nat2Z.inj_succ, Z.pow_succ_r by lia; ring).
    rewrite Z.odd_mul. cbn [Z.odd andb].
    rewrite Z.mul_comm, Z.div_mul by lia. apply IH.
Qed.

Lemma lxor_low_byte c : Z.lxor c (c mod 256) = (c / 256) * 2 ^ 8.
Proof.
  apply Z.bits_inj'. intros k Hk. rewrite Z.lxor_spec.
  change 256 with (2 ^ 8).
  destruct (Z.lt_ge_cases k 8) as [Hlt | Hge].
  - rewrite Z.mod_pow2_bits_low, Z.mul_pow2_bits_low by lia.
    apply xorb_nilpotent.
  - rewrite Z.mod_pow2_bits_high, Z.mul_pow2_bits by lia.
    rewrite Z.div_pow2_bits by lia. rewrite xorb_false_r.
    f_equal. lia.
Qed.

(** X16. [calculateCRC] is a CRC in the usual sense: it returns a 16-bit
    value, and a frame followed by the two bytes of that value, the high
    byte of the returned value first, checks to zero. *)
Theorem crc_of_frame_with_crc_is_zero (data : list Z) :
  Forall is_byte data ->
  let crc := calculateCRC data in
  0 <= crc < 65536 /\
  calculateCRC (data ++ [Z.shiftr crc 8; Z.land crc 255]) = 0.
Proof.
  intros Hd crc. subst crc.
  rewrite calculateCRC_swapped by exact Hd.
  pose proof (fold_crcByte_range data 0xFFFF ltac:(lia)) as Hc.
  rewrite fold_crcByte_reference in Hc by exact Hd.
  fold (crc16_reference data) in Hc.
  set (c := crc16_reference data) in *.
  rewrite land_255, Z.shiftr_div_pow2 by lia. change (2 ^ 8) with 256.
  replace ((c mod 256 * 256 + c / 256) / 256) with (c mod 256)
    by (Z.to_euclidean_division_equations; lia).
  replace ((c mod 256 * 256 + c / 256) mod 256) with (c / 256)
    by (Z.to_euclidean_division_equations; lia).
  split; [Z.to_euclidean_division_equations; lia |].
  assert (Hb : Forall is_byte (data ++ [c mod 256; c / 256])).
  { apply Forall_app. split; [exact Hd |].
    repeat (apply Forall_cons;
            [unfold is_byte; change (2 ^ 8) with 256;
             Z.to_euclidean_division_equations; lia |]).
    apply Forall_nil. }
  rewrite calculateCRC_swapped by exact Hb.
  unfold crc16_reference. rewrite crc16_from_app.
  fold (crc16_reference data). fold c.
  cbn [crc16_from]. rewrite lxor_low_byte.
  change (2 ^ 8) with (2 ^ Z.of_nat 8).
  rewrite (crc16_bits_shift 8 (c / 256)).
  rewrite Z.lxor_nilpotent. reflexivity.
Qed.

Lemma crc_of_frame_with_crc_is_zero_witness :
  calculateCRC [0x01; 0x03; 0x00; 0x00; 0x00; 0x01; 0x84; 0x0A] = 0.
Proof.
  destruct (crc_of_frame_with_crc_is_zero
              [0x01; 0x03; 0x00; 0x00; 0x00; 0x01]) as [_ H].
  - in_range.
  - exact H.
Defined.

End CRCResidue.

Section TransactionCounter.

Import datatypes modbus.

Lemma recordADU_keeps_session c request response unitID :
  let c' := recordADU c request response unitID in
  client c' = client c /\ handler c' = handler c /\
  connectionType c' = connectionType c /\ isConnected c' = isConnected c /\
  converter c' = converter c.
Proof.
  cbv zeta. unfold recordADU. destruct (connectionType c) eqn:E;
    cbn; rewrite ?E; repeat split.
Qed.

Lemma recordAll_cons c e exchanges :
  recordAll c (e :: exchanges)
  = recordAll (let '(request, response, unitID) := e in
               recordADU c request response unitID) exchanges.
Proof. reflexivity. Qed.

Lemma uint16_succ x : uint16 (uint16 x + 1) = uint16 (x + 1).
Proof. unfold uint16. apply Z.add_mod_idemp_l. cbn; lia. Qed.

Lemma uint16_add x y : uint16 (uint16 x + y) = uint16 (x + y).
Proof. unfold uint16. apply Z.add_mod_idemp_l. cbn; lia. Qed.

(** X17. Over any run of [k >= 1] recorded exchanges on a TCP client the
    transaction counter advances by [k] modulo 65536 - 65536 exchanges
    bring it back to where it was - and the last recorded request carries
    that id; on an RTU client the counter does not move. *)
Theorem transaction_counter_after_run
        (c : Client) (exchanges : list (list Z * option (list Z) * Z)) :
  exchanges <> [] ->
  let c' := recordAll c exchanges in
  let k := Z.of_nat (List.length exchanges) in
  (connectionType c = TCP ->
   transactionID c' = (transactionID c + k) mod 65536 /\
   (exists sent, lastSentPacket c' = Some sent /\
                 transactionIDOf sent
                 = Some ((transactionID c + k) mod 65536)) /\
   (0 <= transactionID c < 65536 -> k mod 65536 = 0 ->
    transactionID c' = transactionID c)) /\
  (connectionType c = RTU -> transactionID c' = transactionID c).
Proof.
  intros Hne. cbv zeta. split.
  - intros Htcp.
    assert (H : transactionID (recordAll c exchanges)
                = uint16 (transactionID c + Z.of_nat (List.length exchanges))
                /\ exists sent,
                  lastSentPacket (recordAll c exchanges) = Some sent /\
                  transactionIDOf sent
                  = Some (uint16 (transactionID c
                                  + Z.of_nat (List.length exchanges)))).
    { revert c Htcp. induction exchanges as [| e ex IH]; intros c Htcp;
        [contradiction |].
      destruct e as [[request response] unitID].
      rewrite recordAll_cons.
      set (c1 := recordADU c request response unitID).
      assert (Htcp1 : connectionType c1 = TCP)
        by (subst c1; unfold recordADU; rewrite Htcp; reflexivity).
      assert (Ht1 : transactionID c1 = uint16 (transactionID c + 1))
        by (subst c1; unfold recordADU; rewrite Htcp; reflexivity).
      destruct ex as [| e' ex'].
      - cbn [recordAll fold_left List.length]. split; [exact Ht1 |].
        subst c1. unfold recordADU. rewrite Htcp. cbn [lastSentPacket].
        eexists. split; [reflexivity |].
        apply transactionIDOf_mbap. apply uint16_bounds.
      - destruct (IH ltac:(discriminate) c1 Htcp1) as [Ht (sent & Hs & Hid)].
        rewrite Ht1, uint16_add in Ht, Hid.
        replace (transactionID c + 1 + Z.of_nat (List.length (e' :: ex')))
          with (transactionID c
                + Z.of_nat (List.length
                              ((request, response, unitID) :: e' :: ex')))
          in Ht, Hid by (cbn [List.length]; lia).
        split; [exact Ht |]. exists sent. split; assumption. }
    destruct H as [Ht Hs]. change (2 ^ 16) with 65536 in *.
    unfold uint16 in *. change (2 ^ 16) with 65536 in *.
    split; [exact Ht |]. split; [exact Hs |].
    intros Hrange Hk. rewrite Ht.
    rewrite <- Z.add_mod_idemp_r, Hk, Z.add_0_r by lia.
    apply Z.mod_small. exact Hrange.
  - intros Hrtu. clear Hne. revert c Hrtu.
    induction exchanges as [| e ex IH]; intros c Hrtu; [reflexivity |].
    destruct e as [[request response] unitID].
    rewrite recordAll_cons.
    rewrite IH by (unfold recordADU; rewrite Hrtu; reflexivity).
    unfold recordADU. rewrite Hrtu. reflexivity.
Qed.

Lemma transaction_counter_after_run_witness :
  let c := snd (ConnectTCP NewClient "10.0.0.7" 502 None) in
  transactionID
    (recordAll c [([3; 0; 0; 0; 1], Some [0; 5], 1);
                  ([3; 0; 0; 0; 1], None, 1);
                  ([6; 0; 0; 0; 9], Some [0; 9], 2)])
  = 3.
Proof.
  cbv zeta.
  destruct (transaction_counter_after_run
              (snd (ConnectTCP NewClient "10.0.0.7" 502 None))
              [([3; 0; 0; 0; 1], Some [0; 5], 1);
               ([3; 0; 0; 0; 1], None, 1);
               ([6; 0; 0; 0; 9], Some [0; 9], 2)]) as [H _].
  - discriminate.
  - destruct (H eq_refl) as [Ht _]. exact Ht.
Defined.

(** X18. Closing and reopening the connection keeps the client's memory:
    after [Disconnect] and a successful [ConnectTCP] or [ConnectRTU] the
    transaction counter, the last recorded packet pair and the byte and
    word order are what they were, so the first TCP request of the new
    session carries the next id of the old one; a failed connect changes
    nothing at all. *)
Theorem reconnect_keeps_counter_and_packets
        (c : Client) (closeErr : option string) (host port : string)
        (tcpPort baudRate dataBits stopBits : Z) (parity err : string)
        (request : list Z) (response : option (list Z)) (unitID : Z) :
  let d := snd (Disconnect c closeErr) in
  let t := snd (ConnectTCP d host tcpPort None) in
  let r := snd (ConnectRTU d port baudRate dataBits stopBits parity None) in
  (transactionID t = transactionID c /\
   GetLastPackets t = GetLastPackets c /\ converter t = converter c /\
   IsConnected t = true /\ IsClientReady t = true) /\
  (transactionID r = transactionID c /\
   GetLastPackets r = GetLastPackets c /\ converter r = converter c /\
   IsConnected r = true /\ IsClientReady r = true) /\
  (exists sent,
      lastSentPacket (recordADU t request response unitID) = Some sent /\
      transactionIDOf sent = Some ((transactionID c + 1) mod 65536)) /\
  ConnectTCP c host tcpPort (Some err) = (Some err, c) /\
  ConnectRTU c port baudRate dataBits stopBits parity (Some err)
  = (Some err, c).
Proof.
  cbv zeta. unfold Disconnect, GetLastPackets.
  destruct (handler c); cbn; repeat split;
    (eexists; split; [reflexivity |];
     apply transactionIDOf_mbap; apply uint16_bounds).
Qed.

End TransactionCounter.

(** * Further properties of the window *)

Section Labels.

Import datatypes gui.

(** X19. The labels of the selection boxes name the enumerations
    faithfully: the label of every data type, byte order and word order
    is read back as that same constant, and any other text is read as the
    default - UINT16, AB and 1234. *)
Theorem labels_round_trip :
  (forall T, stringToDataType (DataType_String T) = T) /\
  (forall bo, stringToByteOrder (ByteOrder_String bo) = bo) /\
  (forall wo, stringToWordOrder (WordOrder_String wo) = wo) /\
  (forall s, (forall T, DataType_String T <> s) ->
             stringToDataType s = UINT16) /\
  (forall s, (forall bo, ByteOrder_String bo <> s) ->
             stringToByteOrder s = AB) /\
  (forall s, (forall wo, WordOrder_String wo <> s) ->
             stringToWordOrder s = WORD_1234).
Proof.
  split; [intros []; reflexivity |].
  split; [intros []; reflexivity |].
  split; [intros []; reflexivity |].
  split; [| split]; intros s H.
  - unfold stringToDataType.
    repeat match goal with
           | |- context [String.eqb s ?l] =>
               destruct (String.eqb_spec s l) as [E | _];
               [exfalso; subst s;
                first [exact (H BYTE eq_refl) | exact (H INT16 eq_refl)
                      | exact (H UINT16 eq_refl) | exact (H INT32 eq_refl)
                      | exact (H UINT32 eq_refl) | exact (H INT64 eq_refl)
                      | exact (H UINT64 eq_refl) | exact (H FLOAT32 eq_refl)
                      | exact (H FLOAT64 eq_refl) | exact (H BOOL eq_refl)
                      | exact (H ASCII eq_refl)
                      | exact (H UNIX_TIMESTAMP eq_refl)] |]
           end.
    reflexivity.
  - unfold stringToByteOrder.
    destruct (String.eqb_spec s "AB"); [reflexivity |].
    destruct (String.eqb_spec s "BA") as [E | _]; [| reflexivity].
    exfalso. subst s. exact (H BA eq_refl).
  - unfold stringToWordOrder.
    destruct (String.eqb_spec s "1234"); [reflexivity |].
    destruct (String.eqb_spec s "4321") as [E | _]; [| reflexivity].
    exfalso. subst s. exact (H WORD_4321 eq_refl).
Qed.

Lemma labels_round_trip_witness :
  stringToDataType "uint32" = UINT16 /\ stringToDataType "UINT32" = UINT32.
Proof.
  destruct labels_round_trip as (HT & _ & _ & Hd & _).
  split.
  - apply Hd. intros []; discriminate.
  - exact (HT UINT32).
Defined.

End Labels.

Section PollingLoops.

Import gui.

Lemma startPolling_goroutines a slaveID :
  pollingStop a <> None ->
  goroutines (startPolling a slaveID)
  = goroutines a
    ++ (if isConnected a && validInterval a
        then match Atoi (pollingIntervalInput a) with
             | Some interval => [mkPoller slaveID interval]
             | None => []
             end
        else []).
Proof.
  intros Hp. unfold startPolling, validInterval.
  destruct (isConnected a); cbn [negb andb];
    [| cbn; rewrite app_nil_r; reflexivity].
  destruct (Atoi (pollingIntervalInput a)) as [interval |];
    [| rewrite app_nil_r; reflexivity].
  destruct (Z.leb_spec interval 0), (Z.ltb_spec 0 interval); try lia;
    [rewrite app_nil_r; reflexivity |].
  destruct (pollingStop a) eqn:Ech; [| contradiction].
  rewrite (stopPolling_with_channel a) by (rewrite Ech; discriminate).
  reflexivity.
Qed.

(** X20. Polling loops only accumulate.  In every state the application
    can reach, no step removes or replaces a polling goroutine or takes
    back a poll: the goroutines before a step are still there after it,
    in place.  [startPolling] adds exactly one goroutine, with the unit id
    given and the interval entered, when the application is connected and
    the interval text is a positive integer, and none otherwise - also
    when a loop is already running. *)
Theorem polling_loops_accumulate (a a' : AppRefined) :
  reachable a -> step a a' ->
  (exists added, goroutines a' = goroutines a ++ added /\
                 (List.length added <= 1)%nat) /\
  (polls a <= polls a')%nat /\
  (forall slaveID,
      List.length (goroutines (startPolling a slaveID))
      = (List.length (goroutines a)
         + (if isConnected a && validInterval a then 1 else 0))%nat).
Proof.
  intros Hr Hstep. destruct (reachable_invariant a Hr) as [Hp Hs].
  split; [| split].
  - destruct Hstep as [a m | a b | a | a text | a u | a | a i | a i a' Hex].
    + exists []. rewrite app_nil_r. split; [reflexivity | cbn; lia].
    + exists []. rewrite app_nil_r. split; [reflexivity | cbn; lia].
    + exists []. rewrite app_nil_r. split; [reflexivity | cbn; lia].
    + exists []. rewrite app_nil_r. split; [reflexivity | cbn; lia].
    + rewrite (startPolling_goroutines a u Hp). eexists.
      split; [reflexivity |].
      destruct (isConnected a && validInterval a); [| cbn; lia].
      destruct (Atoi (pollingIntervalInput a)); cbn; lia.
    + rewrite (stopPolling_with_channel a Hp).
      exists []. rewrite app_nil_r. split; [reflexivity | cbn; lia].
    + exists []. rewrite app_nil_r. split; [| cbn; lia].
      unfold tick. destruct (nth_error (goroutines a) i); reflexivity.
    + rewrite (receiveStop_unsignalled a i Hs) in Hex. discriminate.
  - destruct Hstep as [a m | a b | a | a text | a u | a | a i | a i a' Hex];
      try (cbn; lia).
    + unfold startPolling.
      destruct (isConnected a); cbn [negb]; [| cbn; lia].
      destruct (Atoi (pollingIntervalInput a)); [| lia].
      destruct (_ <=? 0); [lia |].
      destruct (pollingStop a) eqn:Ech; [| contradiction].
      rewrite (stopPolling_with_channel a) by (rewrite Ech; discriminate).
      cbn. lia.
    + rewrite (stopPolling_with_channel a Hp). lia.
    + unfold tick. destruct (nth_error (goroutines a) i); cbn; lia.
    + rewrite (receiveStop_unsignalled a i Hs) in Hex. discriminate.
  - intros u. rewrite (startPolling_goroutines a u Hp), length_app.
    unfold validInterval.
    destruct (isConnected a); cbn [andb]; [| cbn; lia].
    destruct (Atoi (pollingIntervalInput a)); [| cbn; lia].
    destruct (0 <? z); cbn; lia.
Qed.

Lemma polling_loops_accumulate_witness :
  let a := startPolling (setInterval (connected NewAppRefined) "250") 1 in
  List.length (goroutines (startPolling a 2)) = 2%nat.
Proof.
  cbv zeta.
  destruct (polling_loops_accumulate
              (startPolling (setInterval (connected NewAppRefined) "250") 1)
              (startPolling
                 (startPolling (setInterval (connected NewAppRefined) "250") 1)
                 2)) as (_ & _ & Hcount).
  - apply reach_start, reach_interval, reach_ui, reach_flag, reach_log,
      reach_new.
  - apply step_start.
  - exact (Hcount 2).
Defined.

End PollingLoops.

Section SerialPorts.

Import gui.

Lemma find_first {A} (f : A -> bool) (l : list A) (x : A) :
  find f l = Some x ->
  exists before after,
    l = before ++ x :: after /\ f x = true /\
    Forall (fun y => f y = false) before.
Proof.
  induction l as [| y l IH]; [discriminate |].
  cbn [find]. destruct (f y) eqn:Ey.
  - intros [= <-]. exists [], l. repeat split; [exact Ey | constructor].
  - intros H. destruct (IH H) as (before & after & -> & Hx & Hb).
    exists (y :: before), after. repeat split; [exact Hx |].
    constructor; assumption.
Qed.

Lemma find_nothing {A} (f : A -> bool) (l : list A) :
  find f l = None -> Forall (fun y => f y = false) l.
Proof.
  intros H. apply Forall_forall. intros y Hy. exact (find_none f l H y Hy).
Qed.

(** X21. What [populateSerialPorts] offers: the ports reported by the
    system that do not start with "/dev/tty.", in the order reported; the
    port it selects is one of them - the first that mentions "usbmodem" or
    "usbserial", or the very first when none does.  When nothing is left
    to offer, the box holds the single placeholder entry and one line is
    logged; when the system cannot list its ports, the box is left as it
    was and the error is logged. *)
Theorem serial_port_choice (allPorts : list string) (box : PortSelect)
        (err : string) :
  let offered :=
    filter (fun port => negb (HasPrefix port "/dev/tty.")) allPorts in
  let '(box', logged) := populateSerialPorts (Ok allPorts) box in
  (offered = [] ->
   box' = mkPortSelect ["无可用串口"%string] "无可用串口" /\
   logged = ["未找到可用串口。"%string]) /\
  (offered <> [] ->
   portOptions box' = offered /\ logged = [] /\
   (forall port, In port (portOptions box') <->
                 In port allPorts /\ HasPrefix port "/dev/tty." = false) /\
   exists before after,
     offered = before ++ portSelected box' :: after /\
     Forall (fun port => mentionsUSB port = false) before /\
     (mentionsUSB (portSelected box') = true \/
      before = [] /\ Forall (fun port => mentionsUSB port = false) after)) /\
  In (portSelected box') (portOptions box') /\
  populateSerialPorts (Err err) box
  = (box, ["获取串口列表失败: " ++ err]%string).
Proof.
  cbv zeta. unfold populateSerialPorts.
  set (offered := filter _ allPorts).
  assert (Hmem : forall port, In port offered <->
                   In port allPorts /\ HasPrefix port "/dev/tty." = false).
  { intros port. subst offered. rewrite filter_In, negb_true_iff. tauto. }
  destruct offered as [| first rest] eqn:Eo.
  - split; [intros _; split; reflexivity |].
    split; [intros Habs; contradiction |].
    split; [cbn; left; reflexivity | reflexivity].
  - fold (mentionsUSB). change (fun port : string =>
                                  Contains port "usbmodem"
                                  || Contains port "usbserial")
      with mentionsUSB.
    destruct (find mentionsUSB (first :: rest)) as [port |] eqn:Ef.
    + destruct (find_first _ _ _ Ef) as (before & after & E & Hp & Hb).
      split; [intros Habs; discriminate Habs |].
      split; [| split; [| reflexivity]].
      * intros _. split; [reflexivity |]. split; [reflexivity |].
        split; [exact Hmem |].
        exists before, after. cbn [portSelected].
        split; [exact E |]. split; [exact Hb |]. left. exact Hp.
      * cbn [portSelected portOptions]. rewrite E.
        apply in_or_app. right. left. reflexivity.
    + pose proof (find_nothing _ _ Ef) as Hn.
      split; [intros Habs; discriminate Habs |].
      split; [| split; [| reflexivity]].
      * intros _. split; [reflexivity |]. split; [reflexivity |].
        split; [exact Hmem |].
        exists [], rest. cbn [portSelected app].
        split; [reflexivity |]. split; [constructor |]. right.
        split; [reflexivity | exact (Forall_inv_tail Hn)].
      * cbn. left. reflexivity.
Qed.

Lemma serial_port_choice_witness :
  let ports := ["/dev/tty.usbserial-1410"; "/dev/cu.Bluetooth";
                "/dev/cu.usbserial-1410"]%string in
  populateSerialPorts (Ok ports) (mkPortSelect [] "")
  = (mkPortSelect ["/dev/cu.Bluetooth"; "/dev/cu.usbserial-1410"]%string
                  "/dev/cu.usbserial-1410", []).
Proof.
  cbv zeta.
  pose proof (serial_port_choice
                ["/dev/tty.usbserial-1410"; "/dev/cu.Bluetooth";
                 "/dev/cu.usbserial-1410"]%string
                (mkPortSelect [] "") "") as H.
  cbv zeta in H.
  destruct (populateSerialPorts _ _) as [box' logged] eqn:E in H |- *.
  destruct H as (_ & Hoffer & _).
  destruct (Hoffer ltac:(discriminate)) as (Hopts & Hlog & _).
  rewrite <- E. reflexivity.
Defined.

End SerialPorts.

(** ** The value entry *)

Section Tokens.

Import datatypes gui.

Lemma token_app s t : token (s ++ t) = token s && token t.
Proof.
  induction s as [| a s IH]; [reflexivity |].
  cbn. rewrite IH. apply andb_assoc.
Qed.

Lemma token_revString acc s :
  token (revString acc s) = token acc && token s.
Proof.
  revert acc. induction s as [| a s IH]; intros acc; cbn.
  - symmetry. apply andb_true_r.
  - rewrite IH. cbn. destruct (tokenByte a), (token acc), (token s); reflexivity.
Qed.

Lemma revString_app acc s :
  revString acc s = (revString EmptyString s ++ acc)%string.
Proof.
  revert acc. induction s as [| a s IH]; intros acc; [reflexivity |].
  cbn. rewrite (IH (String a acc)), (IH (String a EmptyString)).
  rewrite string_app_assoc. reflexivity.
Qed.

Lemma revString_involutive s :
  revString EmptyString (revString EmptyString s) = s.
Proof.
  induction s as [| a s IH]; [reflexivity |].
  cbn. rewrite (revString_app (String a EmptyString) s).
  assert (H : forall u v, revString EmptyString (u ++ v)
                          = (revString EmptyString v ++ revString EmptyString u)%string).
  { induction u as [| b u IHu]; intros v; cbn.
    - symmetry. apply string_app_empty.
    - rewrite (revString_app (String b EmptyString) (u ++ v)), IHu.
      rewrite (revString_app (String b EmptyString) u).
      apply string_app_assoc. }
  rewrite H, IH. reflexivity.
Qed.

Lemma token_no_comma s : token s = true -> occurs "," s = false.
Proof.
  induction s as [| a s IH]; [reflexivity |].
  cbn [token occurs]. intros H. apply andb_true_iff in H. destruct H as [Ha Hs].
  rewrite (IH Hs), orb_false_r.
  destruct a as [[] [] [] [] [] [] [] []]; try reflexivity; discriminate.
Qed.

Lemma token_not_space a s set :
  set = whiteSpace \/ set = map (revString EmptyString) whiteSpace ->
  tokenByte a = true -> dropOne set (String a s) = None.
Proof.
  intros Hset Ha.
  destruct a as [[] [] [] [] [] [] [] []]; try discriminate Ha;
    destruct Hset as [-> | ->]; reflexivity.
Qed.

Lemma trimLeftSet_token s set :
  set = whiteSpace \/ set = map (revString EmptyString) whiteSpace ->
  token s = true -> trimLeftSet set s = s.
Proof.
  intros Hset Hs. unfold trimLeftSet.
  destruct s as [| a s]; [reflexivity |].
  cbn [token] in Hs. apply andb_true_iff in Hs. destruct Hs as [Ha _].
  cbn [String.length trimLeftFuel].
  rewrite (token_not_space a s set Hset Ha). reflexivity.
Qed.

Lemma TrimSpace_token s : token s = true -> TrimSpace s = s.
Proof.
  intros Hs. unfold TrimSpace.
  rewrite (trimLeftSet_token s whiteSpace) by (auto).
  rewrite trimLeftSet_token.
  - apply revString_involutive.
  - right. reflexivity.
  - rewrite token_revString. exact Hs.
Qed.

End Tokens.

Section Decimals.

Import datatypes gui.

Lemma parseDigits_acc d acc :
  parseDigits (Z.pos acc) (NilEmpty.string_of_uint d)
  = Some (Z.pos (Pos.of_uint_acc d acc)).
Proof.
  revert acc. induction d as [| d IH | d IH | d IH | d IH | d IH | d IH
                              | d IH | d IH | d IH | d IH]; intros acc;
    [reflexivity | ..];
    cbn [NilEmpty.string_of_uint parseDigits Pos.of_uint_acc];
    match goal with
    | |- context [digitVal ?a] =>
        let v := eval vm_compute in (digitVal a) in
        change (digitVal a) with v; cbv iota beta
    end;
    rewrite <- IH; f_equal; lia.
Qed.

Lemma parseDigits_uint d :
  parseDigits 0 (NilEmpty.string_of_uint d) = Some (Z.of_N (Pos.of_uint d)).
Proof.
  induction d as [| d IH | d IH | d IH | d IH | d IH | d IH
                  | d IH | d IH | d IH | d IH];
    [reflexivity | exact IH | ..];
    cbn [NilEmpty.string_of_uint parseDigits Pos.of_uint];
    match goal with
    | |- context [digitVal ?a] =>
        let v := eval vm_compute in (digitVal a) in
        change (digitVal a) with v; cbv iota beta
    end;
    cbn [Z.of_N]; rewrite <- parseDigits_acc; reflexivity.
Qed.

Lemma digits_token d : token (NilEmpty.string_of_uint d) = true.
Proof.
  induction d; [reflexivity | ..]; cbn [NilEmpty.string_of_uint token];
    rewrite IHd; reflexivity.
Qed.

(** The decimal digits of a positive number: a non-empty token that starts
    with a digit and reads as the number. *)
Lemma digits_of_positive p :
  exists a s,
    NilZero.string_of_uint (Pos.to_uint p) = String a s
    /\ Ascii.eqb a "+" = false /\ Ascii.eqb a "-" = false
    /\ token (String a s) = true
    /\ parseDigits 0 (String a s) = Some (Z.pos p).
Proof.
  pose proof (DecimalPos.Unsigned.to_uint_nonnil p) as Hnil.
  pose proof (DecimalPos.Unsigned.of_to p) as Hof.
  pose proof (parseDigits_uint (Pos.to_uint p)) as Hparse.
  pose proof (digits_token (Pos.to_uint p)) as Htok.
  rewrite Hof in Hparse. cbn [Z.of_N] in Hparse.
  destruct (Pos.to_uint p) as [| d | d | d | d | d | d | d | d | d | d];
    [contradiction | ..];
    cbn [NilZero.string_of_uint NilEmpty.string_of_uint] in *;
    eexists; eexists; (split; [reflexivity |]);
    repeat split; try reflexivity; assumption.
Qed.

Lemma FormatUint_spec n :
  0 <= n ->
  token (FormatUint n) = true
  /\ forall w, ParseUint (FormatUint n) w
               = if n <=? 2 ^ w - 1 then Some n else None.
Proof.
  intros Hn. unfold FormatUint.
  destruct n as [| p | p]; [| | lia].
  - split; reflexivity.
  - cbn [Z.to_N N.to_uint].
    destruct (digits_of_positive p) as (a & s & -> & _ & _ & Htok & Hparse).
    split; [exact Htok |]. intros w. unfold ParseUint. rewrite Hparse.
    reflexivity.
Qed.

Lemma FormatInt_spec n :
  token (FormatInt n) = true
  /\ forall w, 0 < w ->
       ParseInt (FormatInt n) w
       = if (- 2 ^ (w - 1) <=? n) && (n <? 2 ^ (w - 1)) then Some n else None.
Proof.
  unfold FormatInt. destruct n as [| p | p]; cbn [Z.to_int NilZero.string_of_int].
  - split; [reflexivity |]. intros w Hw.
    assert (H : 0 < 2 ^ (w - 1)) by (apply Z.pow_pos_nonneg; lia).
    change (ParseInt (NilZero.string_of_uint (Decimal.D0 Decimal.Nil)) w)
      with (if negb false && (2 ^ (w - 1) <=? 0) then None
            else if false && (2 ^ (w - 1) <? 0) then None else Some 0).
    cbn [negb andb].
    destruct (Z.leb_spec (2 ^ (w - 1)) 0); [lia |].
    destruct (Z.leb_spec (- 2 ^ (w - 1)) 0); [| lia].
    destruct (Z.ltb_spec 0 (2 ^ (w - 1))); [reflexivity | lia].
  - destruct (digits_of_positive p) as (a & s & -> & Hplus & Hminus & Htok & Hparse).
    split; [exact Htok |]. intros w Hw.
    assert (H : 0 < 2 ^ (w - 1)) by (apply Z.pow_pos_nonneg; lia).
    unfold ParseInt. rewrite Hplus, Hminus, Hparse. cbn [negb andb].
    destruct (Z.leb_spec (2 ^ (w - 1)) (Z.pos p));
      destruct (Z.leb_spec (- 2 ^ (w - 1)) (Z.pos p));
      destruct (Z.ltb_spec (Z.pos p) (2 ^ (w - 1))); try lia; reflexivity.
  - destruct (digits_of_positive p) as (a & s & -> & Hplus & Hminus & Htok & Hparse).
    split.
    { change (token (String "-" (String a s)))
        with (tokenByte "-" && token (String a s)).
      rewrite Htok. reflexivity. }
    intros w Hw.
    assert (H : 0 < 2 ^ (w - 1)) by (apply Z.pow_pos_nonneg; lia).
    unfold ParseInt.
    change (Ascii.eqb "-" "+") with false. change (Ascii.eqb "-" "-") with true.
    cbv iota beta. rewrite Hparse. cbn [negb andb].
    change (- Z.pos p) with (Z.neg p).
    destruct (Z.ltb_spec (2 ^ (w - 1)) (Z.pos p));
      destruct (Z.leb_spec (- 2 ^ (w - 1)) (Z.neg p));
      destruct (Z.ltb_spec (Z.neg p) (2 ^ (w - 1))); try lia; reflexivity.
Qed.

End Decimals.

Section ValueEntry.

Import datatypes gui.

Variable FormatFloat : float64 -> Z -> string.
Variable float64_of_float32 : float32 -> float64.
Variable ParseFloat : string -> Z -> option float64.
Variable float32_of_float64 : float64 -> float32.

Let Parse := ParseStringToType ParseFloat float32_of_float64.
Let display := displayValue FormatFloat float64_of_float32.

Lemma Split_app_separator p t sep :
  occurs sep p = false ->
  Split (p ++ String sep t) sep = p :: Split t sep.
Proof.
  induction p as [| a p IH]; intros H.
  - cbn [append Split]. rewrite Ascii.eqb_refl. reflexivity.
  - cbn [occurs] in H. apply orb_false_iff in H. destruct H as [Ha Hp].
    cbn [append Split]. rewrite Ha, (IH Hp). reflexivity.
Qed.

Lemma Split_Join parts :
  parts <> [] -> Forall (fun p => token p = true) parts ->
  Split (Join parts ",") "," = parts.
Proof.
  induction parts as [| p rest IH]; [congruence |].
  intros _ H. pose proof (Forall_inv H) as Hp. cbv beta in Hp.
  pose proof (Forall_inv_tail H) as Hrest.
  destruct rest as [| q rest].
  - apply Split_without_separator, token_no_comma, Hp.
  - change (Join (p :: q :: rest) ",")
      with (p ++ String "," (Join (q :: rest) ","))%string.
    rewrite Split_app_separator by (apply token_no_comma, Hp).
    rewrite IH; [reflexivity | discriminate | exact Hrest].
Qed.

Lemma parseParts_formatted {A} (parse : string -> option A)
      (format : A -> string) (P : A -> Prop) prefix l :
  (forall x, P x -> token (format x) = true /\ parse (format x) = Some x) ->
  Forall P l ->
  Forall (fun p => token p = true) (map format l)
  /\ parseParts parse prefix (map format l) = Ok l.
Proof.
  intros Hfmt. induction 1 as [| x l Hx _ [IHt IHp]]; [split; constructor |].
  destruct (Hfmt x Hx) as [Htok Hparse].
  split; [constructor; assumption |].
  cbn [map parseParts]. rewrite (TrimSpace_token _ Htok), Hparse, IHp.
  reflexivity.
Qed.

Lemma signed_id w x :
  0 < w -> - 2 ^ (w - 1) <= x < 2 ^ (w - 1) -> signed w x = x.
Proof.
  intros Hw Hx. rewrite <- (signed_unsigned w x Hw Hx) at 2.
  unfold signed. rewrite Z.mod_mod by (apply Z.pow_nonzero; lia). reflexivity.
Qed.

Lemma parse_signed w x :
  0 < w -> - 2 ^ (w - 1) <= x < 2 ^ (w - 1) ->
  token (FormatInt x) = true
  /\ option_map (signed w) (ParseInt (FormatInt x) w) = Some x.
Proof.
  intros Hw Hx. destruct (FormatInt_spec x) as [Htok Hparse].
  split; [exact Htok |]. rewrite (Hparse w Hw).
  destruct (Z.leb_spec (- 2 ^ (w - 1)) x); [| lia].
  destruct (Z.ltb_spec x (2 ^ (w - 1))); [| lia].
  cbn [andb option_map]. rewrite (signed_id w x Hw Hx). reflexivity.
Qed.

Lemma parse_unsigned w x :
  0 < w -> 0 <= x < 2 ^ w ->
  token (FormatUint x) = true
  /\ option_map (fun u => u mod 2 ^ w) (ParseUint (FormatUint x) w) = Some x.
Proof.
  intros Hw Hx. destruct (FormatUint_spec x) as [Htok Hparse]; [lia |].
  split; [exact Htok |]. rewrite (Hparse w).
  destruct (Z.leb_spec x (2 ^ w - 1)); [| lia].
  cbn [option_map]. rewrite Z.mod_small by exact Hx. reflexivity.
Qed.

Lemma parse_bool b :
  token (FormatBool b) = true /\ ParseBool (FormatBool b) = Some b.
Proof. destruct b; split; reflexivity. Qed.

(** A non-empty list of integers or booleans, shown and read again. *)
Lemma display_parse v T :
  wholeType v = Some T -> inRange v -> (0 < valueCount v)%nat ->
  Parse (display v) T = Ok v.
Proof.
  intros HT Hr Hn. unfold Parse, display, ParseStringToType.
  destruct v as [l | l | l | l | l | l | l | l | l | l | s];
    try discriminate HT; injection HT as <-;
    cbn [displayValue inRange valueCount] in *.
  - destruct (parseParts_formatted
                (fun s => option_map int16 (ParseInt s 16)) FormatInt _
                "invalid INT16 value: " l
                (fun x Hx => parse_signed 16 x eq_refl Hx) Hr) as [Ht Hp].
    rewrite Split_Join by (first [exact Ht | destruct l; [cbn in Hn; lia | discriminate]]).
    rewrite Hp. destruct l; [cbn in Hn; lia | reflexivity].
  - destruct (parseParts_formatted
                (fun s => option_map uint16 (ParseUint s 16)) FormatUint _
                "invalid UINT16 value: " l
                (fun x Hx => parse_unsigned 16 x eq_refl Hx) Hr) as [Ht Hp].
    rewrite Split_Join by (first [exact Ht | destruct l; [cbn in Hn; lia | discriminate]]).
    rewrite Hp. destruct l; [cbn in Hn; lia | reflexivity].
  - destruct (parseParts_formatted
                (fun s => option_map int32 (ParseInt s 32)) FormatInt _
                "invalid INT32 value: " l
                (fun x Hx => parse_signed 32 x eq_refl Hx) Hr) as [Ht Hp].
    rewrite Split_Join by (first [exact Ht | destruct l; [cbn in Hn; lia | discriminate]]).
    rewrite Hp. destruct l; [cbn in Hn; lia | reflexivity].
  - destruct (parseParts_formatted
                (fun s => option_map uint32 (ParseUint s 32)) FormatUint _
                "invalid UINT32 value: " l
                (fun x Hx => parse_unsigned 32 x eq_refl Hx) Hr) as [Ht Hp].
    rewrite Split_Join by (first [exact Ht | destruct l; [cbn in Hn; lia | discriminate]]).
    rewrite Hp. destruct l; [cbn in Hn; lia | reflexivity].
  - assert (H64 : forall x, - 2 ^ 63 <= x < 2 ^ 63 ->
              token (FormatInt x) = true /\ ParseInt (FormatInt x) 64 = Some x).
    { intros x Hx. destruct (FormatInt_spec x) as [Htok Hparse].
      split; [exact Htok |]. rewrite (Hparse 64 eq_refl).
      change (64 - 1) with 63.
      destruct (Z.leb_spec (- 2 ^ 63) x); [| lia].
      destruct (Z.ltb_spec x (2 ^ 63)); [reflexivity | lia]. }
    destruct (parseParts_formatted
                (fun s => ParseInt s 64) FormatInt _
                "invalid INT64 value: " l H64 Hr) as [Ht Hp].
    rewrite Split_Join by (first [exact Ht | destruct l; [cbn in Hn; lia | discriminate]]).
    rewrite Hp. destruct l; [cbn in Hn; lia | reflexivity].
  - assert (H64 : forall x, 0 <= x < 2 ^ 64 ->
              token (FormatUint x) = true /\ ParseUint (FormatUint x) 64 = Some x).
    { intros x Hx. destruct (FormatUint_spec x) as [Htok Hparse]; [lia |].
      split; [exact Htok |]. rewrite (Hparse 64).
      destruct (Z.leb_spec x (2 ^ 64 - 1)); [reflexivity | lia]. }
    destruct (parseParts_formatted
                (fun s => ParseUint s 64) FormatUint _
                "invalid UINT64 value: " l H64 Hr) as [Ht Hp].
    rewrite Split_Join by (first [exact Ht | destruct l; [cbn in Hn; lia | discriminate]]).
    rewrite Hp. destruct l; [cbn in Hn; lia | reflexivity].
  - assert (Hall : Forall (fun _ : bool => True) l)
      by (apply Forall_forall; intros; exact I).
    destruct (parseParts_formatted ParseBool FormatBool _
                "invalid BOOL value: " l
                (fun b _ => parse_bool b) Hall) as [Ht Hp].
    rewrite Split_Join by (first [exact Ht | destruct l; [cbn in Hn; lia | discriminate]]).
    rewrite Hp. destruct l; [cbn in Hn; lia | reflexivity].
Qed.

(** X22.  What a read shows can be written back as it stands, for whole
    numbers and booleans: the text [readRegister] puts in the value entry
    for a non-empty list of integers (of any of the six integer types, each
    element in the range of its type) or of booleans is read by
    [ParseStringToType], at that data type, as the very same list.  The
    text shown for an empty list is the empty text, which is refused with
    the message for an invalid value and nothing after it. *)
Theorem displayed_value_parses_back (v : Value) (T : DataType) :
  wholeType v = Some T -> inRange v ->
  Parse (display v) T
  = if (valueCount v =? 0)%nat
    then Err ("invalid " ++ DataType_String T ++ " value: ")%string
    else Ok v.
Proof.
  intros HT Hr.
  destruct (Nat.eqb_spec (valueCount v) 0) as [Hz | Hnz].
  - destruct v as [l | l | l | l | l | l | l | l | l | l | s];
      try discriminate HT; injection HT as <-;
      cbn [valueCount] in Hz; apply length_zero_iff_nil in Hz; subst l;
      reflexivity.
  - apply display_parse; [exact HT | exact Hr | lia].
Qed.

End ValueEntry.

Section ValueEntryExample.

Import datatypes gui.

Lemma displayed_value_parses_back_witness :
  ParseStringToType (fun _ _ => None) (fun _ => Float32frombits 0)
    (displayValue (fun _ _ => EmptyString) (fun _ => Float64frombits 0)
       (V_int16 [-32768; 0; 7; 32767]))
    INT16
  = Ok (V_int16 [-32768; 0; 7; 32767]).
Proof.
  apply (displayed_value_parses_back
           (fun _ _ => EmptyString) (fun _ => Float64frombits 0)
           (fun _ _ => None) (fun _ => Float32frombits 0)
           (V_int16 [-32768; 0; 7; 32767]) INT16).
  - reflexivity.
  - simpl. repeat (apply Forall_cons; [lia |]). apply Forall_nil.
Defined.

End ValueEntryExample.

(** ** Reading and writing through the form *)

Section FormHelpers.

Import datatypes modbus gui.

Lemma digitVal_range a d : digitVal a = Some d -> 0 <= d <= 9.
Proof.
  unfold digitVal.
  destruct (Z.leb_spec 48 (Z.of_N (N_of_ascii a)));
    destruct (Z.leb_spec (Z.of_N (N_of_ascii a)) 57);
    cbn [andb]; intros Heq; inversion Heq; lia.
Qed.

Lemma parseDigits_nonneg s : forall acc n,
  parseDigits acc s = Some n -> 0 <= acc -> 0 <= n.
Proof.
  induction s as [| a s IH]; intros acc n H Hacc; cbn [parseDigits] in H.
  - inversion H. lia.
  - destruct (digitVal a) as [d |] eqn:E; [| discriminate].
    apply digitVal_range in E. apply (IH _ _ H). lia.
Qed.

Lemma ParseUint_bounds s w n :
  ParseUint s w = Some n -> 0 <= n <= 2 ^ w - 1.
Proof.
  unfold ParseUint. intros H.
  assert (H' : match parseDigits 0 s with
               | Some n0 => if n0 <=? 2 ^ w - 1 then Some n0 else None
               | None => None
               end = Some n) by (destruct s; [discriminate | exact H]).
  destruct (parseDigits 0 s) as [m |] eqn:E; [| discriminate].
  apply parseDigits_nonneg in E; [| lia].
  destruct (Z.leb_spec m (2 ^ w - 1)); inversion H'. subst. lia.
Qed.

Lemma signed_range w x : 0 < w -> - 2 ^ (w - 1) <= signed w x < 2 ^ (w - 1).
Proof.
  intros Hw. unfold signed.
  assert (Hp : 2 ^ w = 2 * 2 ^ (w - 1)).
  { replace w with (1 + (w - 1)) at 1 by lia.
    rewrite Z.pow_add_r by lia. reflexivity. }
  assert (H : 0 <= x mod 2 ^ w < 2 ^ w)
    by (apply Z.mod_pos_bound, Z.pow_pos_nonneg; lia).
  destruct (Z.ltb_spec (x mod 2 ^ w) (2 ^ (w - 1))); lia.
Qed.

Lemma pairs32_Forall {A} c (f : Z -> A) (P : A -> Prop) :
  (forall r0 r1, is_uint16 r0 -> is_uint16 r1 -> P (f (word32 c r0 r1))) ->
  forall r, Forall is_uint16 r -> Forall P (pairs32 c f r).
Proof.
  intros Hf. fix IH 1. intros [| r0 [| r1 rest]] Hr; try constructor.
  - apply Hf; [exact (Forall_inv Hr) | exact (Forall_inv (Forall_inv_tail Hr))].
  - apply IH. exact (Forall_inv_tail (Forall_inv_tail Hr)).
Qed.

Lemma quads64_Forall {A} c (f : Z -> A) (P : A -> Prop) :
  (forall r0 r1 r2 r3,
      is_uint16 r0 -> is_uint16 r1 -> is_uint16 r2 -> is_uint16 r3 ->
      P (f (word64 c r0 r1 r2 r3))) ->
  forall r, Forall is_uint16 r -> Forall P (quads64 c f r).
Proof.
  intros Hf. fix IH 1. intros [| r0 [| r1 [| r2 [| r3 rest]]]] Hr;
    try constructor.
  - pose proof (Forall_inv_tail Hr) as H1.
    pose proof (Forall_inv_tail H1) as H2.
    pose proof (Forall_inv_tail H2) as H3.
    apply Hf; [exact (Forall_inv Hr) | exact (Forall_inv H1)
               | exact (Forall_inv H2) | exact (Forall_inv H3)].
  - apply IH.
    exact (Forall_inv_tail (Forall_inv_tail (Forall_inv_tail (Forall_inv_tail Hr)))).
Qed.

(** Decoding whole groups of registers as integers: the value is a
    non-empty list of integers in range, and encodes back to the
    registers. *)
Lemma decode_integers c T regs :
  integerType T -> Forall is_uint16 regs -> (0 < List.length regs)%nat ->
  (List.length regs mod RegistersPerValue T = 0)%nat ->
  exists v,
    ConvertFromRegisters c regs T = Ok v /\ wholeType v = Some T /\
    inRange v /\ (0 < valueCount v)%nat /\ ConvertToRegisters c v = Ok regs.
Proof.
  intros HT Hr Hpos Hmul. rewrite (decode_nonempty c regs T Hpos).
  destruct (multiple_of _ _ Hmul) as [n Hn].
  destruct T; cbn [integerType] in HT; try contradiction;
    cbn [RegistersPerValue] in Hn;
    eexists; (split; [reflexivity |]); (split; [reflexivity |]);
    cbn [inRange valueCount ConvertToRegisters].
  - repeat split.
    + unfold convertToInt16Array. apply Forall_forall. intros x Hx.
      apply in_map_iff in Hx. destruct Hx as (y & <- & _).
      apply (signed_range 16). lia.
    + unfold convertToInt16Array. rewrite length_map. exact Hpos.
    + f_equal. apply int16_inverse. exact Hr.
  - repeat split; [exact Hr | exact Hpos].
  - repeat split.
    + apply pairs32_Forall; [| exact Hr]. intros. apply (signed_range 32). lia.
    + unfold convertToInt32Array. rewrite pairs32_length, Hn.
      rewrite Nat.mul_comm, Nat.div_mul by lia. lia.
    + f_equal.
      apply (pairs32_inverse c int32 (int32ToRegisters c) (int32_inverse c) n);
        assumption.
  - repeat split.
    + apply pairs32_Forall; [| exact Hr]. intros. apply word32_range; assumption.
    + unfold convertToUint32Array. rewrite pairs32_length, Hn.
      rewrite Nat.mul_comm, Nat.div_mul by lia. lia.
    + f_equal.
      apply (pairs32_inverse c (fun v => v) (uint32ToRegisters c)
               (uint32ToRegisters_word32 c) n); assumption.
  - repeat split.
    + apply quads64_Forall; [| exact Hr]. intros. apply (signed_range 64). lia.
    + unfold convertToInt64Array. rewrite quads64_length, Hn.
      rewrite Nat.mul_comm, Nat.div_mul by lia. lia.
    + f_equal.
      apply (quads64_inverse c int64 (int64ToRegisters c) (int64_inverse c) n);
        assumption.
  - repeat split.
    + apply quads64_Forall; [| exact Hr]. intros. apply word64_range; assumption.
    + unfold convertToUint64Array. rewrite quads64_length, Hn.
      rewrite Nat.mul_comm, Nat.div_mul by lia. lia.
    + f_equal.
      apply (quads64_inverse c (fun v => v) (uint64ToRegisters c)
               (uint64ToRegisters_word64 c) n); assumption.
Qed.

End FormHelpers.

Section Form.

Import datatypes modbus gui.

Variable FormatFloat : float64 -> Z -> string.
Variable float64_of_float32 : float32 -> float64.
Variable ParseFloat : string -> Z -> option float64.
Variable float32_of_float64 : float64 -> float32.

Let read := readRegister FormatFloat float64_of_float32.
Let write := writeRegister ParseFloat float32_of_float64.

(** X23.  Reading holding registers and writing the value entry back
    sends the registers that were read.  On a connected client, with the
    register type on "Holding Register", an integer data type selected and
    valid addresses: when the response carries a non-empty, whole number of
    register groups [regs], [readRegister] fills the value entry, and
    [writeRegister] on the form as it then stands does exactly what
    [WriteHoldingRegisters] does with the raw registers [regs] at the start
    address - whatever the byte and word order in force. *)
Theorem read_then_write_back (f : RegisterForm) (c : Client)
        (slaveID startAddr endAddr : Z) (T : DataType) (regs : list Z)
        (reply : Reply) :
  modbus.isConnected c = true -> IsClientReady c = true ->
  registerTypeCombo f = "Holding Register"%string ->
  stringToDataType (dataTypeCombo f) = T -> integerType T ->
  ParseUint (startAddressInput f) 16 = Some startAddr ->
  ParseUint (endAddressInput f) 16 = Some endAddr ->
  startAddr <= endAddr ->
  Forall is_uint16 regs -> (0 < List.length regs)%nat ->
  (List.length regs mod RegistersPerValue T = 0)%nat ->
  exists f' c',
    read f c slaveID (inl (uint16ArrayToBytes regs)) = Done f' c' /\
    write f' c' slaveID reply
    = reported (WriteHoldingRegisters c' slaveID startAddr (V_uint16 regs)
                                      reply).
Proof.
  intros Hconn Hready Hreg HT Hint Hs He Hle Hr Hpos Hmul.
  unfold read, readRegister, IsConnected.
  rewrite Hconn, Hs, He. cbn [negb].
  destruct (Z.ltb_spec endAddr startAddr) as [Hlt | _]; [lia |].
  cbv zeta. rewrite Hreg, HT. cbn [String.eqb Ascii.eqb Bool.eqb].
  unfold ReadHoldingRegisters. rewrite Hconn. cbn [negb].
  unfold IsClientReady in Hready.
  destruct (client c) as [h |] eqn:Hclient; [| discriminate].
  cbv zeta. rewrite (bytesToUint16Array_encoded regs Hr).
  set (c' := recordADU c _ _ slaveID).
  destruct (recordADU_keeps_session c
              (readRequestPDU 3 (uint16 startAddr)
                 (uint16 (endAddr - startAddr + 1)))
              (Some (uint16ArrayToBytes regs)) slaveID)
    as (Hcl & _ & _ & Hco & Hcv).
  fold c' in Hcl, Hco, Hcv.
  destruct (decode_integers (converter c') T regs Hint Hr Hpos Hmul)
    as (v & Hdec & Hwhole & Hrange & Hcount & Henc).
  rewrite Hdec. eexists; eexists. split; [reflexivity |].
  unfold write, writeRegister, IsConnected. rewrite Hco, Hconn. cbn [negb].
  cbv zeta. cbn [SetText startAddressInput registerTypeCombo dataTypeCombo
                 valueInput].
  rewrite Hs, Hreg, HT. cbn [String.eqb Ascii.eqb Bool.eqb].
  rewrite (display_parse FormatFloat float64_of_float32 ParseFloat
             float32_of_float64 v T Hwhole Hrange Hcount).
  pose proof (ParseUint_bounds _ _ _ Hs) as Hb.
  rewrite (uint16_small startAddr) by (change (2 ^ 16 - 1) with 65535 in Hb; lia).
  unfold WriteHoldingRegisters. rewrite Henc. reflexivity.
Qed.

End Form.

Section FormExample.

Import datatypes modbus gui.

Lemma read_then_write_back_witness :
  let f := mkRegisterForm "10" "11" "Holding Register" "INT32" "" in
  let c := mkClient (Some TCPClientHandler) (Some TCPClientHandler) TCP true
                    (NewConverter BA WORD_4321) None None 7 in
  exists f' c',
    readRegister (fun _ _ => EmptyString) (fun _ => Float64frombits 0)
                 f c 1 (inl (uint16ArrayToBytes [0xFFFE; 0xFFFF])) = Done f' c' /\
    writeRegister (fun _ _ => None) (fun _ => Float32frombits 0)
                  f' c' 1 (inr "timeout"%string)
    = reported (WriteHoldingRegisters c' 1 10 (V_uint16 [0xFFFE; 0xFFFF])
                                      (inr "timeout"%string)).
Proof.
  intros f c.
  apply (read_then_write_back
           (fun _ _ => EmptyString) (fun _ => Float64frombits 0)
           (fun _ _ => None) (fun _ => Float32frombits 0)
           f c 1 10 11 INT32 [0xFFFE; 0xFFFF] (inr "timeout"%string));
    try reflexivity; try exact I; try lia; try (simpl; lia); in_range.
Defined.

End FormExample.

Section FormRequests.

Import datatypes modbus gui.

Variable FormatFloat : float64 -> Z -> string.
Variable float64_of_float32 : float32 -> float64.
Variable ParseFloat : string -> Z -> option float64.
Variable float32_of_float64 : float64 -> float32.

Let read := readRegister FormatFloat float64_of_float32.
Let write := writeRegister ParseFloat float32_of_float64.
Let Parse := ParseStringToType ParseFloat float32_of_float64.

Lemma uint16_quantity s e :
  0 <= s -> s <= e -> e <= 65535 -> uint16 (e - s + 1) = quantity s e.
Proof.
  intros Hs Hle He. unfold quantity, uint16. change (2 ^ 16) with 65536.
  destruct (Z.eqb_spec s 0) as [-> | Hs0];
    destruct (Z.eqb_spec e 65535) as [-> | He0]; cbn [andb];
    try reflexivity; apply Z.mod_small; lia.
Qed.

Lemma readRequestPDU_be16 fc s e :
  0 <= s -> s <= e -> e <= 65535 ->
  readRequestPDU fc (uint16 s) (uint16 (e - s + 1))
  = fc :: be16 s ++ be16 (quantity s e).
Proof.
  intros Hs Hle He. unfold readRequestPDU.
  rewrite (uint16_quantity s e Hs Hle He), (uint16_small s) by lia.
  rewrite !PutUint16_be16. reflexivity.
Qed.

(** X24.  The request behind a read.  On a connected client, with both
    address entries holding 16-bit decimal numbers: when the end address is
    below the start address, or the register type is none of the four
    known ones, [readRegister] leaves form and client untouched; otherwise
    it records one exchange whose request is the function code of the
    register type, the start address and the quantity, both as big-endian
    16-bit fields.  The quantity is the number of addresses from start to
    end - except for the whole range 0..65535, whose 65536 addresses wrap
    to a quantity of 0. *)
Theorem read_request (f : RegisterForm) (c : Client) (slaveID s e : Z)
        (reply : Reply) :
  modbus.isConnected c = true -> IsClientReady c = true ->
  ParseUint (startAddressInput f) 16 = Some s ->
  ParseUint (endAddressInput f) 16 = Some e ->
  0 <= s <= 65535 /\ 0 <= e <= 65535 /\
  if e <? s then read f c slaveID reply = Done f c
  else match readFunctionCode (registerTypeCombo f) with
       | None => read f c slaveID reply = Done f c
       | Some fc =>
           exists f',
             read f c slaveID reply
             = Done f' (recordADU c (fc :: be16 s ++ be16 (quantity s e))
                                  (payload reply) slaveID)
       end.
Proof.
  intros Hconn Hready Hs He.
  pose proof (ParseUint_bounds _ _ _ Hs) as Hbs.
  pose proof (ParseUint_bounds _ _ _ He) as Hbe.
  change (2 ^ 16 - 1) with 65535 in Hbs, Hbe.
  split; [exact Hbs |]. split; [exact Hbe |].
  unfold read, readRegister, IsConnected. rewrite Hconn, Hs, He. cbn [negb].
  destruct (Z.ltb_spec e s) as [Hlt | Hle]; [reflexivity |].
  cbv zeta. unfold readFunctionCode.
  unfold IsClientReady in Hready.
  destruct (client c) as [h |] eqn:Hclient; [| discriminate].
  destruct (String.eqb (registerTypeCombo f) "Holding Register").
  { unfold ReadHoldingRegisters. rewrite Hconn, Hclient. cbn [negb].
    rewrite readRequestPDU_be16 by lia.
    destruct reply as [results | err]; cbn [payload].
    - cbv zeta. destruct (ConvertFromRegisters _ _ _); eexists; reflexivity.
    - eexists; reflexivity. }
  destruct (String.eqb (registerTypeCombo f) "Input Register").
  { unfold ReadInputRegisters. rewrite Hconn, Hclient. cbn [negb].
    rewrite readRequestPDU_be16 by lia.
    destruct reply as [results | err]; cbn [payload].
    - cbv zeta. destruct (ConvertFromRegisters _ _ _); eexists; reflexivity.
    - eexists; reflexivity. }
  destruct (String.eqb (registerTypeCombo f) "Coil").
  { unfold ReadCoils. rewrite Hconn, Hclient. cbn [negb].
    rewrite readRequestPDU_be16 by lia.
    destruct reply as [results | err]; cbn [payload boxed];
      eexists; reflexivity. }
  destruct (String.eqb (registerTypeCombo f) "Discrete Input").
  { unfold ReadDiscreteInputs. rewrite Hconn, Hclient. cbn [negb].
    rewrite readRequestPDU_be16 by lia.
    destruct reply as [results | err]; cbn [payload boxed];
      eexists; reflexivity. }
  reflexivity.
Qed.

Lemma Parse_type s T v :
  Parse s T = Ok v ->
  match v with
  | V_bool _ => T = BOOL
  | V_string _ => T = ASCII
  | V_bytes _ => False
  | _ => numericType v = Some T
  end.
Proof.
  unfold Parse, ParseStringToType.
  destruct (Split s ",") as [| p ps]; [discriminate |].
  destruct T; try discriminate;
    try (intros [= <-]; reflexivity);
    match goal with
    | |- mapResult _ ?r = _ -> _ =>
        destruct r; cbn [mapResult]; [intros [= <-]; reflexivity | discriminate]
    end.
Qed.

(** X25.  Writes that never reach the device.  Unless the register type
    is "Holding Register" with a numeric or text data type, or "Coil" with
    the data type BOOL, [writeRegister] does not succeed and leaves the
    client exactly as it was - no request is built, none recorded -
    whatever the value entry holds and whatever the transport would
    answer.  So bytes, booleans and timestamps read from holding
    registers cannot be written back, and coils can only be written with
    the data type box on BOOL. *)
Theorem unwritable_sends_nothing (f : RegisterForm) (c : Client)
        (slaveID : Z) (reply : Reply) :
  writable (registerTypeCombo f) (stringToDataType (dataTypeCombo f)) = false ->
  exists outcome,
    write f c slaveID reply = Done outcome c /\ outcome <> Succeeded.
Proof.
  intros Hw. unfold write, writeRegister, writable in *.
  destruct (negb (IsConnected c)) eqn:Hconn;
    [exists Abandoned; split; [reflexivity | discriminate] |].
  cbv zeta.
  destruct (ParseUint (startAddressInput f) 16) as [startAddr |];
    [| exists Abandoned; split; [reflexivity | discriminate]].
  fold Parse.
  destruct (String.eqb (registerTypeCombo f) "Holding Register").
  { destruct (Parse (valueInput f) (stringToDataType (dataTypeCombo f)))
      as [v | msg] eqn:Hp;
      [| exists Abandoned; split; [reflexivity | discriminate]].
    apply Parse_type in Hp.
    destruct v; try contradiction;
      try (rewrite Hp in Hw; discriminate Hw);
      try (cbn [numericType] in Hp; injection Hp as Hp;
           rewrite <- Hp in Hw; discriminate Hw).
    unfold WriteHoldingRegisters.
    unfold IsConnected in Hconn. apply negb_false_iff in Hconn.
    rewrite Hconn. cbn [negb ConvertToRegisters reported].
    eexists. split; [reflexivity | discriminate]. }
  destruct (String.eqb (registerTypeCombo f) "Coil").
  { destruct (Parse (valueInput f) (stringToDataType (dataTypeCombo f)))
      as [v | msg] eqn:Hp;
      [| exists Abandoned; split; [reflexivity | discriminate]].
    apply Parse_type in Hp.
    destruct v; try contradiction;
      try (exists Abandoned; split; [reflexivity | discriminate]).
    rewrite Hp in Hw. discriminate Hw. }
  eexists. split; [reflexivity | discriminate].
Qed.

(** X26.  Reading coils and writing the value entry back sends the coils
    that were read, provided the data type box is on BOOL: on a connected
    client, with the register type on "Coil" and valid addresses, when
    the response yields at least one coil, [readRegister] fills the value
    entry and [writeRegister] on the form as it then stands does exactly
    what [WriteCoils] does with the coils read, at the start address. *)
Theorem coils_read_then_write_back (f : RegisterForm) (c : Client)
        (slaveID s e : Z) (results : list Z) (reply : Reply) :
  modbus.isConnected c = true -> IsClientReady c = true ->
  registerTypeCombo f = "Coil"%string ->
  stringToDataType (dataTypeCombo f) = BOOL ->
  ParseUint (startAddressInput f) 16 = Some s ->
  ParseUint (endAddressInput f) 16 = Some e ->
  s <= e ->
  unpackBits (quantity s e) results <> [] ->
  exists f' c',
    read f c slaveID (inl results) = Done f' c' /\
    write f' c' slaveID reply
    = reported (WriteCoils c' slaveID s (unpackBits (quantity s e) results)
                           reply).
Proof.
  intros Hconn Hready Hreg HT Hs He Hle Hne.
  pose proof (ParseUint_bounds _ _ _ Hs) as Hbs.
  pose proof (ParseUint_bounds _ _ _ He) as Hbe.
  change (2 ^ 16 - 1) with 65535 in Hbs, Hbe.
  unfold read, readRegister, IsConnected. rewrite Hconn, Hs, He. cbn [negb].
  destruct (Z.ltb_spec e s) as [Hlt | _]; [lia |].
  cbv zeta. rewrite Hreg. cbn [String.eqb Ascii.eqb Bool.eqb].
  unfold ReadCoils. rewrite Hconn. cbn [negb].
  unfold IsClientReady in Hready.
  destruct (client c) as [h |] eqn:Hclient; [| discriminate].
  cbn [boxed]. rewrite (uint16_quantity s e) by lia.
  set (c' := recordADU c _ _ slaveID).
  destruct (recordADU_keeps_session c
              (readRequestPDU 1 (uint16 s) (quantity s e))
              (Some results) slaveID) as (_ & _ & _ & Hco & _).
  fold c' in Hco.
  eexists; eexists. split; [reflexivity |].
  unfold write, writeRegister, IsConnected. rewrite Hco, Hconn. cbn [negb].
  cbv zeta. cbn [SetText startAddressInput registerTypeCombo dataTypeCombo
                 valueInput].
  rewrite Hs, Hreg, HT. cbn [String.eqb Ascii.eqb Bool.eqb].
  rewrite (display_parse FormatFloat float64_of_float32 ParseFloat
             float32_of_float64 (V_bool (unpackBits (quantity s e) results))
             BOOL eq_refl I).
  - rewrite (uint16_small s) by lia. reflexivity.
  - cbn [valueCount]. destruct (unpackBits (quantity s e) results);
      [congruence | cbn; lia].
Qed.

End FormRequests.

Section FormRequestsExamples.

Import datatypes modbus gui.

Lemma read_request_witness :
  let f := mkRegisterForm "0" "65535" "Input Register" "UINT16" "" in
  let c := mkClient (Some TCPClientHandler) (Some TCPClientHandler) TCP true
                    (NewConverter AB WORD_1234) None None 0 in
  0 <= 0 <= 65535 /\ 0 <= 65535 <= 65535 /\
  exists f',
    readRegister (fun _ _ => EmptyString) (fun _ => Float64frombits 0)
                 f c 1 (inr "illegal data value"%string)
    = Done f' (recordADU c [4; 0; 0; 0; 0] None 1).
Proof.
  intros f c.
  apply (read_request (fun _ _ => EmptyString) (fun _ => Float64frombits 0)
                      f c 1 0 65535 (inr "illegal data value"%string));
    reflexivity.
Defined.

Lemma unwritable_sends_nothing_witness :
  let f := mkRegisterForm "0" "0" "Coil" "UINT16" "1" in
  let c := mkClient (Some TCPClientHandler) (Some TCPClientHandler) TCP true
                    (NewConverter AB WORD_1234) None None 0 in
  exists outcome,
    writeRegister (fun _ _ => None) (fun _ => Float32frombits 0)
                  f c 1 (inl [0; 0; 255; 0])
    = Done outcome c /\ outcome <> Succeeded.
Proof.
  intros f c.
  apply (unwritable_sends_nothing (fun _ _ => None)
           (fun _ => Float32frombits 0) f c 1 (inl [0; 0; 255; 0])).
  reflexivity.
Defined.

Lemma coils_read_then_write_back_witness :
  let f := mkRegisterForm "8" "10" "Coil" "BOOL" "" in
  let c := mkClient (Some RTUClientHandler) (Some RTUClientHandler) RTU true
                    (NewConverter AB WORD_1234) None None 0 in
  exists f' c',
    readRegister (fun _ _ => EmptyString) (fun _ => Float64frombits 0)
                 f c 1 (inl [5]) = Done f' c' /\
    writeRegister (fun _ _ => None) (fun _ => Float32frombits 0)
                  f' c' 1 (inl [0; 8; 0; 3])
    = reported (WriteCoils c' 1 8 [true; false; true] (inl [0; 8; 0; 3])).
Proof.
  intros f c.
  apply (coils_read_then_write_back
           (fun _ _ => EmptyString) (fun _ => Float64frombits 0)
           (fun _ _ => None) (fun _ => Float32frombits 0)
           f c 1 8 10 [5] (inl [0; 8; 0; 3]));
    try reflexivity; try lia; discriminate.
Defined.

End FormRequestsExamples.

Section DisconnectWhilePolling.

Import datatypes modbus gui.

Variable FormatFloat : float64 -> Z -> string.
Variable float64_of_float32 : float32 -> float64.

Let read := readRegister FormatFloat float64_of_float32.

(** X27.  Disconnecting while polling.  Take the application in any
    reachable state, its client holding a live connection, and a form with
    valid addresses and a known register type.  After
    [disconnectFromDevice] the application shows itself disconnected, yet
    every polling goroutine is still there and none can take its stop
    branch; and the [readRegister] their next tick runs does not decline:
    the client still reports itself connected, the request is built, and
    the call on the closed transport is a nil dereference. *)
Theorem poll_after_disconnect_panics (a : AppRefined) (c : Client)
        (f : RegisterForm) (closeErr : option string)
        (slaveID s e : Z) (reply : Reply) :
  reachable a ->
  modbus.isConnected c = true -> handler c <> None ->
  ParseUint (startAddressInput f) 16 = Some s ->
  ParseUint (endAddressInput f) 16 = Some e ->
  s <= e ->
  readFunctionCode (registerTypeCombo f) <> None ->
  let a' := fst (disconnectFromDevice a c closeErr) in
  let c' := snd (disconnectFromDevice a c closeErr) in
  reachable a' /\ gui.isConnected a' = false /\
  goroutines a' = goroutines a /\
  (forall i, receiveStop a' i = None) /\
  IsConnected c' = true /\
  read f c' slaveID reply = Panic nilDereference c'.
Proof.
  intros Hreach Hconn Hhandler Hs He Hle Hfc. cbv zeta.
  unfold disconnectFromDevice, IsConnected, Disconnect. rewrite Hconn.
  destruct (handler c) as [h |]; [| contradiction].
  set (c' := mkClient None None _ _ _ _ _ _).
  assert (Hshape : exists message,
             (let '(a1, c1) :=
                match closeErr with
                | Some err => (appendLog a ("断开连接失败: " ++ err)%string, c')
                | None => (appendLog a "连接已断开。"%string, c')
                end in
              (updateConnectionStateUI (stopPolling (setConnected a1 false)), c1))
             = (updateConnectionStateUI
                  (stopPolling (setConnected (appendLog a message) false)), c')).
  { destruct closeErr as [err |]; eexists; reflexivity. }
  destruct Hshape as [message Hshape].
  match goal with
  | |- context [fst ?p] =>
      replace p with
        (updateConnectionStateUI
           (stopPolling (setConnected (appendLog a message) false)), c')
        by (destruct closeErr; exact (eq_sym Hshape) || (symmetry; exact Hshape))
  end.
  cbn [fst snd].
  assert (Hr1 : reachable (setConnected (appendLog a message) false))
    by (apply reach_flag, reach_log, Hreach).
  destruct (reachable_invariant _ Hr1) as [Hp1 Hs1].
  rewrite (stopPolling_with_channel _ Hp1).
  assert (Hr2 : reachable (updateConnectionStateUI
                             (setConnected (appendLog a message) false)))
    by (apply reach_ui, Hr1).
  destruct (reachable_invariant _ Hr2) as [_ Hs2].
  split; [exact Hr2 |]. split; [reflexivity |]. split; [reflexivity |].
  split; [intros i; apply receiveStop_unsignalled, Hs2 |].
  split; [reflexivity |].
  unfold read, readRegister, IsConnected. subst c'. cbn [modbus.isConnected].
  rewrite Hs, He. cbn [negb].
  destruct (Z.ltb_spec e s) as [Hlt | _]; [lia |].
  cbv zeta. unfold readFunctionCode in Hfc.
  unfold ReadHoldingRegisters, ReadInputRegisters, ReadCoils,
    ReadDiscreteInputs.
  cbn [modbus.isConnected client negb boxed].
  destruct (String.eqb (registerTypeCombo f) "Holding Register");
    [reflexivity |].
  destruct (String.eqb (registerTypeCombo f) "Input Register");
    [reflexivity |].
  destruct (String.eqb (registerTypeCombo f) "Coil"); [reflexivity |].
  destruct (String.eqb (registerTypeCombo f) "Discrete Input");
    [reflexivity | congruence].
Qed.

End DisconnectWhilePolling.

Section DisconnectWhilePollingExample.

Import datatypes modbus gui.

Lemma poll_after_disconnect_panics_witness :
  let a := startPolling (setInterval (connected NewAppRefined) "500") 1 in
  let c := snd (ConnectTCP NewClient "192.168.1.10" 502 None) in
  let f := mkRegisterForm "0" "9" "Holding Register" "UINT16" "" in
  let a' := fst (disconnectFromDevice a c None) in
  let c' := snd (disconnectFromDevice a c None) in
  reachable a' /\ gui.isConnected a' = false /\
  goroutines a' = goroutines a /\
  (forall i, receiveStop a' i = None) /\
  IsConnected c' = true /\
  readRegister (fun _ _ => EmptyString) (fun _ => Float64frombits 0)
               f c' 1 (inl [0; 0]) = Panic nilDereference c'.
Proof.
  intros a c f.
  apply (poll_after_disconnect_panics
           (fun _ _ => EmptyString) (fun _ => Float64frombits 0)
           a c f None 1 0 9 (inl [0; 0])).
  - apply reach_start, reach_interval.
    unfold connected. apply reach_ui, reach_flag, reach_log, reach_new.
  - reflexivity.
  - discriminate.
  - reflexivity.
  - reflexivity.
  - lia.
  - discriminate.
Defined.

End DisconnectWhilePollingExample.

(** * The language code *)

Section LanguageCode.

Import i18n.

Variable mapToLower : string -> string.
Variable loads : string -> bool.







End LanguageCode.

Section LanguageCodeExample.

Import i18n.


End LanguageCodeExample.
